(** * Template service: versioned templates, their creation, listing and rendering

    A shallow embedding of [template_app] (models.py, serializers.py,
    views.py): the table of [Template] rows as a list, the ORM queries as list
    functions, the store statements of a request as a list of statements run
    one after the other, and the views as functions from a request and a store
    to a response and a store. *)

From Stdlib Require Import ZArith Lia Ascii String.
From stdpp Require Import base list strings pretty gmap sorting.

Open Scope string_scope.
Open Scope list_scope.
Open Scope Z_scope.

(** ** models.py *)

Module models.

(** [uuid.uuid4()]: a 128-bit number. *)
Definition UUID := N.

(** class Template(models.Model).  [created_at] and [updated_at] are clock
    readings ([auto_now_add], [auto_now]). *)
Record Template := {
  id : UUID;
  code : string;
  name : string;
  language : string;
  subject : option string;
  content : string;
  version : Z;
  is_active : bool;
  created_at : Z;
  updated_at : Z
}.

#[export] Instance Template_eq_dec : EqDecision Template.
Proof. solve_decision. Defined.

(** The table: its rows, in the order they were inserted. *)
Abbreviation Store := (list Template).

Definition set_is_active (b : bool) (t : Template) : Template :=
  {| id := id t; code := code t; name := name t; language := language t;
     subject := subject t; content := content t; version := version t;
     is_active := b; created_at := created_at t; updated_at := updated_at t |}.

(** Meta.unique_together = ('code', 'language', 'version') *)
Definition same_key (r t : Template) : Prop :=
  code t = code r ∧ language t = language r ∧ version t = version r.

#[export] Instance same_key_dec r t : Decision (same_key r t).
Proof. unfold same_key. apply _. Defined.

(** The two uniqueness constraints the table enforces: the primary key and
    [unique_together]. *)
Fixpoint constraints_ok (db : Store) : bool :=
  match db with
  | [] => true
  | r :: db' =>
      forallb (λ t, negb (bool_decide (id t = id r)) && negb (bool_decide (same_key r t))) db'
      && constraints_ok db'
  end.

End models.

Export models.

(** ** The ORM calls the views make *)

Module orm.

(** Exceptions of [django.db]. *)
Inductive DatabaseError := IntegrityError | OperationalError.

#[export] Instance DatabaseError_eq_dec : EqDecision DatabaseError.
Proof. solve_decision. Defined.

(** [Template.objects.filter(code=c, language=l)].  The column is not
    nullable, so a lookup by [None] ([IS NULL]) matches no row. *)
Definition in_group (c l : option string) (t : Template) : Prop :=
  c = Some (code t) ∧ l = Some (language t).

#[export] Instance in_group_dec c l t : Decision (in_group c l t).
Proof. unfold in_group. apply _. Defined.

Definition objects_filter (c l : option string) (db : Store) : list Template :=
  filter (in_group c l) db.

(** [.order_by('-version')] *)
Definition version_ge (a b : Template) : Prop := version b ≤ version a.

#[export] Instance version_ge_dec a b : Decision (version_ge a b).
Proof. unfold version_ge. apply _. Defined.

Definition order_by_version_desc (q : list Template) : list Template :=
  merge_sort version_ge q.

(** [.first()] *)
Definition first (q : list Template) : option Template := head q.

(** [.latest("version")]: [None] stands for [Template.DoesNotExist]. *)
Definition latest_version (q : list Template) : option Template :=
  head (order_by_version_desc q).

(** A statement that writes.  [UPDATE] is both [QuerySet.update] (many
    rows) and [Model.save] of an existing row (the row with its key). *)
Inductive Stmt :=
| INSERT (r : Template)
| UPDATE (where_ : Template → bool) (set_ : Template → Template).

Definition apply_update (where_ : Template → bool) (set_ : Template → Template)
    (db : Store) : Store :=
  (λ t, if where_ t then set_ t else t) <$> db.

(** One statement against the table.  A statement that would break a
    uniqueness constraint raises [IntegrityError] and changes nothing (the
    table satisfies its constraints at all times, so the check is made on
    the table the statement would leave). *)
Definition exec (s : Stmt) (db : Store) : DatabaseError + Store :=
  let db' := match s with
             | INSERT r => db ++ [r]
             | UPDATE w f => apply_update w f db
             end in
  if constraints_ok db' then inr db' else inl IntegrityError.

(** The statements of one request, in order.  The views open no
    transaction, so every statement is committed as it completes: when a
    statement raises, the statements before it stay.  [outage = Some k]
    is a database that fails ([OperationalError]) at the statement of
    index [k]; [None] is a database that stays up. *)
Fixpoint run (outage : option nat) (ss : list Stmt) (db : Store)
    : Store * option DatabaseError :=
  match ss with
  | [] => (db, None)
  | s :: ss' =>
      match outage with
      | Some O => (db, Some OperationalError)
      | _ =>
          match exec s db with
          | inl e => (db, Some e)
          | inr db' => run (pred <$> outage) ss' db'
          end
      end
  end.

(** The committed tables another connection can read while the statements
    run on a database that stays up: the table after each statement. *)
Fixpoint committed (ss : list Stmt) (db : Store) : list Store :=
  match ss with
  | [] => []
  | s :: ss' =>
      match exec s db with
      | inl _ => []
      | inr db' => db' :: committed ss' db'
      end
  end.

End orm.

Export orm.

(** ** Python strings *)

Module python.

(** [str.isspace] on code points below 256. *)
Definition is_whitespace (a : ascii) : bool :=
  let n := nat_of_ascii a in
  ((9 <=? n) && (n <=? 13) || (28 <=? n) && (n <=? 32) || (n =? 133) || (n =? 160))%nat.

Fixpoint lstrip (s : string) : string :=
  match s with
  | String a s' => if is_whitespace a then lstrip s' else s
  | EmptyString => EmptyString
  end.

(** [str.strip()] *)
Definition strip (s : string) : string :=
  String.rev (lstrip (String.rev (lstrip s))).

End python.

Export python.

(** ** django.template, as the serializer and the render view call it *)

Module template.

Record TemplateSyntaxError := { str : string }.

(** [Template(template_string)] compiles or raises; [.render(Context(d))]
    produces the text.  The engine is a library: the views are modelled
    over any engine with this interface. *)
Class Engine := {
  NodeList : Type;
  DjangoTemplate : string → TemplateSyntaxError + NodeList;
  render : NodeList → gmap string string → TemplateSyntaxError + string
}.

(** *** The engine on templates of text and [{{ name }}] tags

    What the engine does, with its default options ([autoescape] on,
    [string_if_invalid] empty), on a template whose tags are variable tags
    with a plain name and comments.  Block tags, filters, literals and
    dotted lookups are outside this fragment. *)

Inductive Token :=
| TEXT (contents : string)
| VAR (contents : string) (lineno : nat)
| BLOCK (contents : string)
| COMMENT (contents : string).

(** The text after a tag's opening pair, up to the first closing pair
    [c1 c2] on the same line: the lazy [.*?] of
    [tag_re = ({%.*?%}|{{.*?}}|{#.*?#})]. *)
Fixpoint tag_contents (c1 c2 : ascii) (s : string) : option string :=
  match s with
  | String a s' =>
      match s' with
      | String b _ =>
          if bool_decide (a = c1) && bool_decide (b = c2) then Some EmptyString
          else if bool_decide (a = "010"%char) then None
          else String a <$> tag_contents c1 c2 s'
      | EmptyString => None
      end
  | EmptyString => None
  end.

Definition text_token (text : string) : list Token :=
  if bool_decide (text = EmptyString) then [] else [TEXT text].

Definition tag_token (kind : ascii) (contents : string) (lineno : nat) : Token :=
  if bool_decide (kind = "{"%char) then VAR (strip contents) lineno
  else if bool_decide (kind = "%"%char) then BLOCK (strip contents)
  else COMMENT (strip contents).

Definition closing (kind : ascii) : ascii :=
  if bool_decide (kind = "{"%char) then "}"%char else kind.

(** [Lexer.tokenize]: the string is split at the tags; [skip] counts the
    characters of a recognised tag still to pass, [text] is the text since
    the last tag and [lineno] the line reached. *)
Fixpoint lex (skip : nat) (lineno : nat) (text : string) (s : string) : list Token :=
  match s with
  | EmptyString => text_token text
  | String a s' =>
      match skip with
      | S k => lex k lineno text s'
      | O =>
          let lineno' := if bool_decide (a = "010"%char) then S lineno else lineno in
          match s' with
          | String kind rest =>
              if bool_decide (a = "{"%char)
                 && (bool_decide (kind = "{"%char) || bool_decide (kind = "%"%char)
                     || bool_decide (kind = "#"%char)) then
                match tag_contents (closing kind) "}"%char rest with
                | Some contents =>
                    text_token text ++ tag_token kind contents lineno
                      :: lex (String.length contents + 3) lineno EmptyString s'
                | None => lex 0 lineno' (text +:+ String a EmptyString) s'
                end
              else lex 0 lineno' (text +:+ String a EmptyString) s'
          | EmptyString => lex 0 lineno' (text +:+ String a EmptyString) s'
          end
      end
  end.

Definition tokenize (template_string : string) : list Token :=
  lex 0 1 EmptyString template_string.

Inductive Node := TextNode (s : string) | VariableNode (name : string).

Inductive Parsed :=
| Nodes (nodelist : list Node)
| SyntaxError (e : TemplateSyntaxError)
| Outside.

Definition is_letter (a : ascii) : bool :=
  let n := nat_of_ascii a in
  ((65 <=? n) && (n <=? 90) || (97 <=? n) && (n <=? 122))%nat.

Definition is_word (a : ascii) : bool :=
  let n := nat_of_ascii a in
  is_letter a || (48 <=? n)%nat && (n <=? 57)%nat || (n =? 95)%nat.

Fixpoint all_word (s : string) : bool :=
  match s with
  | String a s' => is_word a && all_word s'
  | EmptyString => true
  end.

(** A variable tag of the fragment: a letter, then letters, digits and
    underscores (a [Variable] with the single lookup [name]). *)
Definition plain_name (s : string) : bool :=
  match s with
  | String a s' => is_letter a && all_word s'
  | EmptyString => false
  end.

Definition extend_nodelist (n : Node) (p : Parsed) : Parsed :=
  match p with Nodes ns => Nodes (n :: ns) | _ => p end.

(** [Parser.parse]: the tokens in order, the first one that does not
    compile decides. *)
Fixpoint parse (tokens : list Token) : Parsed :=
  match tokens with
  | [] => Nodes []
  | TEXT s :: tokens' => extend_nodelist (TextNode s) (parse tokens')
  | VAR contents lineno :: tokens' =>
      if bool_decide (contents = EmptyString) then
        SyntaxError {| str := "Empty variable tag on line " +:+ pretty lineno |}
      else if plain_name contents then
        extend_nodelist (VariableNode contents) (parse tokens')
      else Outside
  | COMMENT _ :: tokens' => parse tokens'
  | BLOCK _ :: _ => Outside
  end.

Definition compile (template_string : string) : Parsed :=
  parse (tokenize template_string).

(** [html.escape(s, quote=True)], applied by [conditional_escape]. *)
Fixpoint escape (s : string) : string :=
  match s with
  | String a s' =>
      (if bool_decide (a = "&"%char) then "&amp;"
       else if bool_decide (a = "<"%char) then "&lt;"
       else if bool_decide (a = ">"%char) then "&gt;"
       else if bool_decide (a = "034"%char) then "&quot;"
       else if bool_decide (a = "'"%char) then "&#x27;"
       else String a EmptyString) +:+ escape s'
  | EmptyString => EmptyString
  end.

(** The names every [Context] starts with. *)
Definition builtins : gmap string string :=
  {[ "True" := "True"; "False" := "False"; "None" := "None" ]}.

(** The engine option [string_if_invalid], at its default. *)
Definition string_if_invalid : string := EmptyString.

(** [Variable.resolve]: the variables of the request, then the builtins. *)
Definition resolve (context : gmap string string) (name : string) : option string :=
  match context !! name with
  | Some v => Some v
  | None => builtins !! name
  end.

Definition render_node (context : gmap string string) (n : Node) : string :=
  match n with
  | TextNode s => s
  | VariableNode name => escape (default string_if_invalid (resolve context name))
  end.

(** [NodeList.render] *)
Definition render_nodes (nodelist : list Node) (context : gmap string string) : string :=
  foldr (λ n out, render_node context n +:+ out) EmptyString nodelist.

Definition Compiled : Type :=
  list Node + (gmap string string → TemplateSyntaxError + string).

(** The engine: the fragment above, and [outside] for every other
    template (what the engine does there is left open). *)
Definition django
    (outside : string → TemplateSyntaxError + (gmap string string → TemplateSyntaxError + string))
    : Engine :=
  {| NodeList := Compiled;
     DjangoTemplate template_string :=
       match compile template_string with
       | Nodes ns => inr (inl ns)
       | SyntaxError e => inl e
       | Outside =>
           match outside template_string with
           | inl e => inl e
           | inr f => inr (inr f)
           end
       end;
     render t context :=
       match t with
       | inl ns => inr (render_nodes ns context)
       | inr f => f context
       end |}.

End template.

Export template.

(** ** serializers.py *)

Module serializers.

(** A key of [request.data]: missing, JSON null, or a JSON string. *)
Inductive Field := Absent | Null | Str (s : string).

(** [request.data.get(key)] *)
Definition get (f : Field) : option string :=
  match f with Str s => Some s | _ => None end.

(** [request.data.get(key, default)] *)
Definition get_default (f : Field) (dflt : string) : option string :=
  match f with Absent => Some dflt | Null => None | Str s => Some s end.

(** The body of a POST, PUT or PATCH on a template.  [version] and
    [is_active] are keys a client may send as well. *)
Record RequestData := {
  d_code : Field;
  d_name : Field;
  d_language : Field;
  d_subject : Field;
  d_content : Field;
  d_version : option Z;
  d_is_active : option bool
}.

(** [serializer.validated_data]: a dict with the keys that were validated.
    Meta.read_only_fields = ('id', 'version', 'is_active', 'created_at',
    'updated_at'): these keys are never in it. *)
Record validated_data := {
  v_code : option string;
  v_name : option string;
  v_language : option string;
  v_subject : option (option string);
  v_content : option string
}.

Record ValidationError := { detail : list (string * string) }.

Fixpoint has_null_character (s : string) : bool :=
  match s with
  | String a s' => (nat_of_ascii a =? 0)%nat || has_null_character s'
  | EmptyString => false
  end.

(** The outcome of one field: not in [validated_data], a value for it, or
    its error messages. *)
Inductive Outcome := Skip | Value (v : option string) | Invalid (msgs : list string).

(** [Field.run_validators] with the validators of a [CharField], in their
    order: [MaxLengthValidator] when the column has a length, then
    [ProhibitNullCharactersValidator]; the messages of all that fail are
    reported. *)
Definition run_validators (max_length : option nat) (value : string) : list string :=
  match max_length with
  | Some n => if (String.length value <=? n)%nat then [] else ["max_length"]
  | None => []
  end
  ++ (if has_null_character value then ["null_characters_not_allowed"] else []).

(** The [CharField] that ModelSerializer builds for a character column:
    [required] unless the column has a default or may be blank,
    [allow_null], [allow_blank], [max_length] from the column, leading and
    trailing whitespace trimmed. *)
Definition CharField (partial required allow_null allow_blank : bool)
    (max_length : option nat) (f : Field) : Outcome :=
  match f with
  | Absent => if required && negb partial then Invalid ["required"] else Skip
  | Null => if allow_null then Value None else Invalid ["null"]
  | Str s =>
      let s' := strip s in
      if bool_decide (s' = EmptyString) then
        if allow_blank then Value (Some EmptyString) else Invalid ["blank"]
      else match run_validators max_length s' with
           | [] => Value (Some s')
           | msgs => Invalid msgs
           end
  end.

Section TemplateSerializer.
Context {E : Engine}.

(** def validate_content(self, value) *)
Definition validate_content (value : string) : string + string :=
  match DjangoTemplate value with
  | inl e => inl ("Invalid template syntax: " +:+ str e)
  | inr _ => inr value
  end.

Definition content_field (partial : bool) (f : Field) : Outcome :=
  match CharField partial true false false None f with
  | Value (Some value) =>
      match validate_content value with
      | inl msg => Invalid [msg]
      | inr value' => Value (Some value')
      end
  | o => o
  end.

Definition errors_of (key : string) (o : Outcome) : list (string * string) :=
  match o with Invalid msgs => (λ msg, (key, msg)) <$> msgs | _ => [] end.

Definition value_of (o : Outcome) : option (option string) :=
  match o with Value v => Some v | _ => None end.

(** [serializer.is_valid(raise_exception=True)]: every writable field is
    validated, [validate_content] after the field's own checks; the
    errors of all fields are collected. *)
Definition is_valid (partial : bool) (d : RequestData)
    : ValidationError + validated_data :=
  let c := CharField partial true false false (Some 100%nat) (d_code d) in
  let n := CharField partial true false false (Some 200%nat) (d_name d) in
  let l := CharField partial false false false (Some 10%nat) (d_language d) in
  let s := CharField partial false true true (Some 255%nat) (d_subject d) in
  let b := content_field partial (d_content d) in
  match errors_of "code" c ++ errors_of "name" n ++ errors_of "language" l
        ++ errors_of "subject" s ++ errors_of "content" b with
  | [] => inr {| v_code := mjoin (value_of c); v_name := mjoin (value_of n);
                 v_language := mjoin (value_of l); v_subject := value_of s;
                 v_content := mjoin (value_of b) |}
  | errs => inl {| detail := errs |}
  end.

End TemplateSerializer.

End serializers.

Export serializers.

(** ** views.py *)

Module status.
Definition HTTP_200_OK : Z := 200.
Definition HTTP_201_CREATED : Z := 201.
Definition HTTP_400_BAD_REQUEST : Z := 400.
Definition HTTP_404_NOT_FOUND : Z := 404.
Definition HTTP_500_INTERNAL_SERVER_ERROR : Z := 500.
End status.

Module views.

(** The [data] dict of a rendered template. *)
Record Rendered := {
  r_code : string;
  r_subject : option string;
  r_content : string;
  r_version : Z;
  r_language : string
}.

Inductive Data :=
| DataNone
| DataTemplate (t : Template)
| DataList (ts : list Template)
| DataRendered (r : Rendered).

Record PageMeta := {
  total : nat; limit : nat; page : Z; total_pages : nat;
  has_next : bool; has_previous : bool
}.

Record Envelope := {
  success : bool;
  data : Data;
  error : option string;
  message : string;
  meta : option PageMeta
}.

(** What a response carries: the envelope of a view, the body that the
    framework writes for an exception of its own ([ValidationError],
    [NotFound]), or the server error of an exception no one catches. *)
Inductive Body :=
| Enveloped (e : Envelope)
| Errors (detail : list (string * string))
| Uncaught (e : DatabaseError).

Record Response := { status_code : Z; body : Body }.

(** def _envelope_response(success, data, message, error, meta): [meta or {}]
    is [None] here when there is no meta. *)
Definition _envelope_response (success : bool) (data : Data) (message : string)
    (error : option string) (meta : option PageMeta) : Body :=
  Enveloped {| success := success; data := data; error := error;
               message := message; meta := meta |}.

Definition bad_request (e : ValidationError) : Response :=
  {| status_code := status.HTTP_400_BAD_REQUEST; body := Errors (detail e) |}.

Definition not_found (msg : string) : Response :=
  {| status_code := status.HTTP_404_NOT_FOUND; body := Errors [("detail", msg)] |}.

Definition server_error (e : DatabaseError) : Response :=
  {| status_code := status.HTTP_500_INTERNAL_SERVER_ERROR; body := Uncaught e |}.

(** *** TemplateListCreateView *)

(** latest = Template.objects.filter(code=code, language=language)
               .order_by('-version').first()
    next_version = latest.version + 1 if latest else 1 *)
Definition next_version (code : option string) (language : string) (db : Store) : Z :=
  match first (order_by_version_desc (objects_filter code (Some language) db)) with
  | Some latest => version latest + 1
  | None => 1
  end.

(** [serializer.save(version=next_version)] builds a [Template] from the
    keys of [validated_data] and the version: a key that is not in
    [validated_data] takes the column's default. *)
Definition instance_of (vd : validated_data) (uuid : UUID) (now : Z) (v : Z) : Template :=
  {| id := uuid;
     code := default EmptyString (v_code vd);
     name := default EmptyString (v_name vd);
     language := default "en" (v_language vd);
     subject := default None (v_subject vd);
     content := default EmptyString (v_content vd);
     version := v;
     is_active := true;
     created_at := now;
     updated_at := now |}.

(** Template.objects.filter(code=code, language=language)
      .exclude(version=next_version).update(is_active=False) *)
Definition deactivate_older (code : option string) (language : string) (v : Z) : Stmt :=
  UPDATE (λ t, bool_decide (in_group code (Some language) t)
               && negb (bool_decide (version t = v)))
         (set_is_active false).

(** The two statements of [perform_create], from the table it reads. *)
Definition perform_create_stmts (vd : validated_data) (uuid : UUID) (now : Z)
    (db : Store) : list Stmt :=
  let code := v_code vd in
  let language := default "en" (v_language vd) in
  let next_version := next_version code language db in
  [ INSERT (instance_of vd uuid now next_version);
    deactivate_older code language next_version ].

(** def perform_create(self, serializer).  [uuid] is the identifier that
    [uuid.uuid4] draws for the row, [now] the clock, [outage] the database
    failure the request meets, if any (see [run]). *)
Definition perform_create (outage : option nat) (vd : validated_data) (uuid : UUID)
    (now : Z) (db : Store) : Store * (DatabaseError + Template) :=
  let next_version := next_version (v_code vd) (default "en" (v_language vd)) db in
  match run outage (perform_create_stmts vd uuid now db) db with
  | (db', Some e) => (db', inl e)
  | (db', None) => (db', inr (instance_of vd uuid now next_version))
  end.

(** The [page] parameter of the query string, as [Paginator.page] reads
    it: missing, one of the last-page strings, an integer, or text that
    [int()] refuses. *)
Inductive PageParam := NoPage | LastPage | PageNumber (n : Z) | NotAnInteger.

(** The body of a render request. *)
Record RenderData := {
  q_code : Field;
  q_language : Field;
  q_variables : option (gmap string string)
}.

Section Views.
Context {E : Engine}.

(** The REST_FRAMEWORK['PAGE_SIZE'] setting ([None] when it is not set). *)
Variable PAGE_SIZE : option nat.

(** def create(self, request, *args, **kwargs) *)
Definition create (outage : option nat) (d : RequestData) (uuid : UUID) (now : Z)
    (db : Store) : Store * Response :=
  match is_valid false d with
  | inl e => (db, bad_request e)
  | inr vd =>
      match perform_create outage vd uuid now db with
      | (db', inl e) => (db', server_error e)
      | (db', inr instance) =>
          (db', {| status_code := status.HTTP_201_CREATED;
                   body := _envelope_response true (DataTemplate instance)
                             "Template created" None None |})
      end
  end.

(** *** TemplateDetailView *)

(** [self.get_object()]: [None] stands for the [Http404] of
    [get_object_or_404], which the framework answers with 404 and the
    message of the exception, "No Template matches the given query." *)
Definition get_object (pk : UUID) (db : Store) : option Template :=
  head (filter (λ t, id t = pk) db).

(** [serializer.save()] on an existing instance: each key of
    [validated_data] is set on the instance, and [auto_now] stamps
    [updated_at]. *)
Definition update_instance (vd : validated_data) (now : Z) (t : Template) : Template :=
  {| id := id t;
     code := default (code t) (v_code vd);
     name := default (name t) (v_name vd);
     language := default (language t) (v_language vd);
     subject := default (subject t) (v_subject vd);
     content := default (content t) (v_content vd);
     version := version t;
     is_active := is_active t;
     created_at := created_at t;
     updated_at := now |}.

(** def update(self, request, *args, **kwargs): PATCH is [partial = true],
    PUT is [partial = false]. *)
Definition update (outage : option nat) (partial : bool) (pk : UUID) (d : RequestData)
    (now : Z) (db : Store) : Store * Response :=
  match get_object pk db with
  | None => (db, not_found "No Template matches the given query.")
  | Some instance =>
      match is_valid partial d with
      | inl e => (db, bad_request e)
      | inr vd =>
          let instance' := update_instance vd now instance in
          match run outage [UPDATE (λ t, bool_decide (id t = pk)) (λ _, instance')] db with
          | (db', Some e) => (db', server_error e)
          | (db', None) =>
              (db', {| status_code := status.HTTP_200_OK;
                       body := _envelope_response true (DataTemplate instance')
                                 "Template updated" None None |})
          end
      end
  end.

(** *** TemplateVersionListView *)

(** def get_queryset(self): [code] is the URL's, [language] the query
    string's ([None] when the parameter is missing). *)
Definition get_queryset (code : string) (language : option string) (db : Store)
    : list Template :=
  order_by_version_desc
    (objects_filter (Some code) (Some (default "en" language)) db).

(** [Paginator.num_pages], with [allow_empty_first_page]. *)
Definition num_pages (count per_page : nat) : nat :=
  ((Nat.max 1 count + per_page - 1) / per_page)%nat.

(** [self.paginate_queryset(queryset)] of [PageNumberPagination]:
    [inr None] when there is no page size, [inl] for the [NotFound] of
    an invalid page, otherwise the list of the page's rows. *)
Definition paginate_queryset (p : PageParam) (queryset : list Template)
    : string + option (list Template) :=
  match PAGE_SIZE with
  | None | Some O => inr None
  | Some page_size =>
      let pages := num_pages (length queryset) page_size in
      let number := match p with
                    | NoPage => Some 1
                    | LastPage => Some (Z.of_nat pages)
                    | PageNumber n => Some n
                    | NotAnInteger => None
                    end in
      match number with
      | None => inl "Invalid page."
      | Some n =>
          if (n <? 1) || (Z.of_nat pages <? n) then inl "Invalid page."
          else inr (Some (take page_size (drop ((Z.to_nat n - 1) * page_size) queryset)))
      end
  end.

(** def _build_pagination_meta(page_obj): the views pass it the list that
    [paginate_queryset] returns; a list has no [paginator], so the
    [AttributeError] branch is the one taken. *)
Definition _build_pagination_meta (page_obj : option (list Template)) : option PageMeta :=
  None.

(** def list(self, request, *args, **kwargs) *)
Definition list_versions (code : string) (language : option string) (p : PageParam)
    (db : Store) : Response :=
  let queryset := get_queryset code language db in
  match paginate_queryset p queryset with
  | inl msg => not_found msg
  | inr (Some page) =>
      {| status_code := status.HTTP_200_OK;
         body := _envelope_response true (DataList page) "Versions retrieved" None
                   (_build_pagination_meta (Some page)) |}
  | inr None =>
      {| status_code := status.HTTP_200_OK;
         body := _envelope_response true (DataList queryset) "Versions retrieved"
                   None None |}
  end.

(** *** RenderTemplateView *)

(** Template.objects.filter(code=code, language=language, is_active=True)
      .latest("version") *)
Definition active_latest (code language : option string) (db : Store) : option Template :=
  latest_version (filter (λ t, is_active t = true) (objects_filter code language db)).

(** def post(self, request, *args, **kwargs) *)
Definition post (d : RenderData) (db : Store) : Response :=
  let code := get (q_code d) in
  let variables := default ∅ (q_variables d) in
  let language := get_default (q_language d) "en" in
  if bool_decide (code = None ∨ code = Some EmptyString) then
    {| status_code := status.HTTP_400_BAD_REQUEST;
       body := _envelope_response false DataNone "Missing code" (Some "missing_code") None |}
  else
    match active_latest code language db with
    | None =>
        {| status_code := status.HTTP_404_NOT_FOUND;
           body := _envelope_response false DataNone "Template not found"
                     (Some "not_found") None |}
    | Some template =>
        match match DjangoTemplate (content template) with
              | inl e => inl e
              | inr django_template => render django_template variables
              end with
        | inl e =>
            {| status_code := status.HTTP_500_INTERNAL_SERVER_ERROR;
               body := _envelope_response false DataNone "Template render error"
                         (Some "render_error") None |}
        | inr rendered_content =>
            {| status_code := status.HTTP_200_OK;
               body := _envelope_response true
                         (DataRendered {| r_code := models.code template;
                                          r_subject := subject template;
                                          r_content := rendered_content;
                                          r_version := version template;
                                          r_language := models.language template |})
                         "Template rendered successfully" None None |}
        end
    end.

End Views.

End views.

Export views.

(** ** Notions the statements below use *)

Module notions.

(** The row a successful create answers with. *)
Definition created (r : Response) : option Template :=
  if bool_decide (status_code r = status.HTTP_201_CREATED) then
    match body r with
    | Enveloped {| data := DataTemplate t |} => Some t
    | _ => None
    end
  else None.

(** The (code, language) of that row. *)
Definition created_in (r : Response) : option (string * string) :=
  (λ t, (code t, language t)) <$> created r.

(** The rows of a group, and those of them that are active. *)
Definition group (c l : string) (db : Store) : list Template :=
  objects_filter (Some c) (Some l) db.

Definition active (c l : string) (db : Store) : list Template :=
  filter (λ t, is_active t = true) (group c l db).

(** The table after the two statements of a create, when both complete. *)
Definition after_create (vd : validated_data) (uuid : UUID) (now : Z) (db : Store) : Store :=
  let v := next_version (v_code vd) (default "en" (v_language vd)) db in
  apply_update
    (λ t, bool_decide (in_group (v_code vd) (Some (default "en" (v_language vd))) t)
          && negb (bool_decide (version t = v)))
    (set_is_active false)
    (db ++ [instance_of vd uuid now v]).

(** A function on rows that keeps the identifier and the key. *)
Definition keeps_keys (f : Template → Template) : Prop :=
  ∀ t, id (f t) = id t ∧ code (f t) = code t ∧ language (f t) = language t
       ∧ version (f t) = version t.

(** A create request as the server receives it: the database outage it
    meets (if any), the body, the identifier drawn for the row and the
    clock. *)
Record CreateCall := {
  cc_outage : option nat;
  cc_data : RequestData;
  cc_uuid : UUID;
  cc_now : Z
}.

(** A sequence of create requests, one after the other: the final table
    and the responses in order. *)
Fixpoint creates {E : Engine} (calls : list CreateCall) (db : Store)
    : Store * list Response :=
  match calls with
  | [] => (db, [])
  | c :: calls' =>
      let '(db1, r) := create (cc_outage c) (cc_data c) (cc_uuid c) (cc_now c) db in
      let '(db2, rs) := creates calls' db1 in
      (db2, r :: rs)
  end.

(** A text passed through the placeholder renderer with the variables:
    compiled, then rendered. *)
Definition rendering {E : Engine} (s : string) (variables : gmap string string)
    : TemplateSyntaxError + string :=
  match DjangoTemplate s with
  | inl e => inl e
  | inr t => render t variables
  end.

(** [not code] *)
Definition falsy (code : option string) : Prop :=
  code = None ∨ code = Some EmptyString.

(** The 404 answer of the render view. *)
Definition render_not_found : Response :=
  {| status_code := status.HTTP_404_NOT_FOUND;
     body := _envelope_response false DataNone "Template not found" (Some "not_found") None |}.

(** The 200 answer of the version list. *)
Definition versions_retrieved (ts : list Template) : Response :=
  {| status_code := status.HTTP_200_OK;
     body := _envelope_response true (DataList ts) "Versions retrieved" None None |}.

(** The rows a list response carries. *)
Definition rows_of (r : Response) : list Template :=
  match body r with
  | Enveloped {| data := DataList ts |} => ts
  | _ => []
  end.

Definition with_subject (f : Field) (d : RequestData) : RequestData :=
  {| d_code := d_code d; d_name := d_name d; d_language := d_language d;
     d_subject := f; d_content := d_content d; d_version := d_version d;
     d_is_active := d_is_active d |}.

Definition set_v_subject (s : option (option string)) (vd : validated_data) : validated_data :=
  {| v_code := v_code vd; v_name := v_name vd; v_language := v_language vd;
     v_subject := s; v_content := v_content vd |}.

(** A row with another subject. *)
Definition set_subject (s : option string) (t : Template) : Template :=
  {| id := id t; code := code t; name := name t; language := language t;
     subject := s; content := content t; version := version t;
     is_active := is_active t; created_at := created_at t; updated_at := updated_at t |}.

(** The columns a direct update cannot reach. *)
Definition read_only (t : Template) : UUID * Z * bool * Z :=
  (id t, version t, is_active t, created_at t).

(** A text without an opening brace. *)
Fixpoint no_brace (s : string) : bool :=
  match s with
  | String a s' => negb (bool_decide (a = "{"%char)) && no_brace s'
  | EmptyString => true
  end.

(** Template text written as spans: text in which no tag opens, and
    variable tags [{{ name }}], the name between blanks. *)
Inductive Span := Chars (s : string) | Tag (before name after : string).

(** The blanks a tag can hold: whitespace other than a line feed (a tag
    does not span lines). *)
Fixpoint blank (s : string) : bool :=
  match s with
  | String a s' => is_whitespace a && negb (bool_decide (a = "010"%char)) && blank s'
  | EmptyString => true
  end.

(** The characters a tag can hold before its closing pair. *)
Fixpoint inner (s : string) : bool :=
  match s with
  | String a s' =>
      negb (bool_decide (a = "}"%char)) && negb (bool_decide (a = "010"%char)) && inner s'
  | EmptyString => true
  end.

(** An opening brace followed by a brace, a percent sign or a hash is the
    start of a tag. *)
Definition opens (a b : ascii) : bool :=
  bool_decide (a = "{"%char)
  && (bool_decide (b = "{"%char) || bool_decide (b = "%"%char)
      || bool_decide (b = "#"%char)).

Fixpoint no_tag_open (s : string) : bool :=
  match s with
  | String a s' =>
      match s' with
      | String b _ => negb (opens a b) && no_tag_open s'
      | EmptyString => true
      end
  | EmptyString => true
  end.

Definition first_char (s : string) : string :=
  match s with
  | String a _ => String a EmptyString
  | EmptyString => EmptyString
  end.

(** The template that the spans spell. *)
Fixpoint template_of (ps : list Span) : string :=
  match ps with
  | [] => EmptyString
  | Chars s :: ps' => s +:+ template_of ps'
  | Tag before name after :: ps' =>
      "{{" +:+ before +:+ name +:+ after +:+ "}}" +:+ template_of ps'
  end.

(** No tag opens in a text span, nor where it meets what follows it; the
    name of a tag is a plain name between blanks. *)
Fixpoint spans_ok (ps : list Span) : bool :=
  match ps with
  | [] => true
  | Chars s :: ps' => no_tag_open (s +:+ first_char (template_of ps')) && spans_ok ps'
  | Tag before name after :: ps' =>
      blank before && plain_name name && blank after && spans_ok ps'
  end.

(** The names every context gives, whatever the request. *)
Definition builtin_names : list string := ["True"; "False"; "None"].

(** A name that the variables of the request do not give (and that is not
    one of the names every context gives). *)
Definition unresolved (variables : gmap string string) (name : string) : Prop :=
  variables !! name = None ∧ name ∉ builtin_names.

#[export] Instance unresolved_dec variables name : Decision (unresolved variables name).
Proof. unfold unresolved. apply _. Defined.

(** What is expected in the place of a tag: the escaped value of its name
    when the variables give one, and nothing when they do not (for "True",
    "False" and "None", the name itself). *)
Definition substitute (variables : gmap string string) (name : string) : string :=
  match variables !! name with
  | Some value => escape value
  | None => if bool_decide (name ∈ builtin_names) then name else EmptyString
  end.

(** What is expected of the renderer: the text as it is, each tag replaced
    by its substitute. *)
Fixpoint substituted (variables : gmap string string) (ps : list Span) : string :=
  match ps with
  | [] => EmptyString
  | Chars s :: ps' => s +:+ substituted variables ps'
  | Tag _ name _ :: ps' => substitute variables name +:+ substituted variables ps'
  end.

(** The text spans alone. *)
Fixpoint texts (ps : list Span) : string :=
  match ps with
  | [] => EmptyString
  | Chars s :: ps' => s +:+ texts ps'
  | Tag _ _ _ :: ps' => texts ps'
  end.

(** A tag whose name is unresolved. *)
Definition tag_unresolved (variables : gmap string string) (p : Span) : bool :=
  match p with
  | Tag _ name _ => bool_decide (unresolved variables name)
  | Chars _ => false
  end.

End notions.

Export notions.

(** ** Tables and requests of the examples *)

Module examples.

(** The engine of the examples; none of their templates is outside the
    fragment. *)
Definition engine : Engine :=
  django (λ _, inl {| str := "outside the fragment" |}).

Definition row (i : UUID) (c l : string) (s : option string) (b : string) (v : Z)
    (a : bool) : Template :=
  {| id := i; code := c; name := "Welcome"; language := l; subject := s; content := b;
     version := v; is_active := a; created_at := 0; updated_at := 0 |}.

(** A create body with code "welcome", no language, and the given content
    and subject. *)
Definition welcome (c : string) (s : Field) : RequestData :=
  {| d_code := Str "welcome"; d_name := Str "Welcome"; d_language := Absent;
     d_subject := s; d_content := Str c; d_version := None; d_is_active := None |}.

Definition post_of (c : string) (b : string) : RequestData :=
  {| d_code := Str c; d_name := Str "Welcome"; d_language := Absent; d_subject := Absent;
     d_content := Str b; d_version := None; d_is_active := None |}.

Definition call (uuid : UUID) (d : RequestData) : CreateCall :=
  {| cc_outage := None; cc_data := d; cc_uuid := uuid; cc_now := 0 |}.

(** Version 1 of ("welcome", "en"), created through the view. *)
Definition one_version : Store :=
  fst (create (E := engine) None
         (welcome "Hello {{name}}, welcome to {{company}}!" (Str "Welcome {{name}}!"))
         1%N 0 []).

Definition second : RequestData := welcome "Hi {{name}}" Absent.

Definition second_valid : validated_data :=
  {| v_code := Some "welcome"; v_name := Some "Welcome"; v_language := None;
     v_subject := None; v_content := Some "Hi {{name}}" |}.

(** The second create for ("welcome", "en"): its row, its answer and the
    table it leaves. *)
Definition second_row : Template :=
  {| id := 2%N; code := "welcome"; name := "Welcome"; language := "en";
     subject := None; content := "Hi {{name}}"; version := 2;
     is_active := true; created_at := 1; updated_at := 1 |}.

Definition second_response : Response :=
  {| status_code := 201;
     body := _envelope_response true (DataTemplate second_row) "Template created" None None |}.

Definition two_versions : Store :=
  [row 1%N "welcome" "en" (Some "Welcome {{name}}!")
     "Hello {{name}}, welcome to {{company}}!" 1 false;
   second_row].

(** Three creates for ("welcome", "en"). *)
Definition three_calls : list CreateCall :=
  [call 1%N (post_of "welcome" "v1"); call 2%N (post_of "welcome" "v2 {{name}}");
   call 3%N (post_of "welcome" "v3")].

(** Render requests. *)
Definition alice : RenderData :=
  {| q_code := Str "welcome"; q_language := Absent;
     q_variables := Some {[ "name" := "Alice"; "company" := "ACME" ]} |}.

Definition only_name : RenderData :=
  {| q_code := Str "welcome"; q_language := Absent;
     q_variables := Some {[ "name" := "Alice" ]} |}.

Definition render_of (c : string) : RenderData :=
  {| q_code := Str c; q_language := Absent; q_variables := None |}.

(** PATCH bodies with one key. *)
Definition patch_is_active (b : bool) : RequestData :=
  {| d_code := Absent; d_name := Absent; d_language := Absent; d_subject := Absent;
     d_content := Absent; d_version := None; d_is_active := Some b |}.

Definition patch_code (c : string) : RequestData :=
  {| d_code := Str c; d_name := Absent; d_language := Absent; d_subject := Absent;
     d_content := Absent; d_version := None; d_is_active := None |}.

(** Three creates: "welcome" once, "promo" twice. *)
Definition two_codes_calls : list CreateCall :=
  [call 1%N (post_of "welcome" "Hello {{name}}"); call 2%N (post_of "promo" "Buy");
   call 3%N (post_of "promo" "Buy {{what}}")].

Definition two_codes : Store := fst (creates (E := engine) two_codes_calls []).

(** Two PATCH requests on it that give both active rows the code "offer". *)
Definition two_patches : Store :=
  let db1 := fst (update (E := engine) None true 1%N (patch_code "offer") 5 two_codes) in
  fst (update (E := engine) None true 3%N (patch_code "offer") 6 db1).

(** A PATCH of is_active on the inactive version 1 of "promo": the table
    it leaves and its answer. *)
Definition promo1_patched : Template :=
  {| id := 2%N; code := "promo"; name := "Welcome"; language := "en";
     subject := None; content := "Buy"; version := 1; is_active := false;
     created_at := 0; updated_at := 9 |}.

Definition promo_patched : Store :=
  [row 1%N "welcome" "en" None "Hello {{name}}" 1 true;
   promo1_patched;
   row 3%N "promo" "en" None "Buy {{what}}" 2 true].

Definition promo_patched_response : Response :=
  {| status_code := 200;
     body := _envelope_response true (DataTemplate promo1_patched) "Template updated"
               None None |}.

(** The two active rows of ("offer", "en") that they leave. *)
Definition offer1 : Template :=
  {| id := 1%N; code := "offer"; name := "Welcome"; language := "en"; subject := None;
     content := "Hello {{name}}"; version := 1; is_active := true;
     created_at := 0; updated_at := 5 |}.

Definition offer2 : Template :=
  {| id := 3%N; code := "offer"; name := "Welcome"; language := "en"; subject := None;
     content := "Buy {{what}}"; version := 2; is_active := true;
     created_at := 0; updated_at := 6 |}.

(** A template with a tag whose name has blanks around it, a tag without,
    and a brace that opens no tag. *)
Definition padded_spans : list Span :=
  [Chars "Hi "; Tag " " "name" " "; Chars ", "; Tag EmptyString "company" EmptyString;
   Chars " {sic}"].

Definition padded : Store :=
  [row 1%N "welcome" "en" None "Hi {{ name }}, {{company}} {sic}" 1 true].


End examples.

Import examples.

(** ** views.py: the list, retrieve and destroy views *)

Module more_views.

Definition HTTP_204_NO_CONTENT : Z := 204.



(** TemplateDetailView.retrieve *)
Definition retrieve (pk : UUID) (db : Store) : Response :=
  match get_object pk db with
  | None => not_found "No Template matches the given query."
  | Some instance =>
      {| status_code := status.HTTP_200_OK;
         body := _envelope_response true (DataTemplate instance) "Template retrieved"
                   None None |}
  end.

(** TemplateDetailView.destroy: [perform_destroy] is [instance.delete()],
    one DELETE by primary key; [outage = Some 0] is a database that fails at
    that statement. *)
Definition destroy (outage : option nat) (pk : UUID) (db : Store) : Store * Response :=
  match get_object pk db with
  | None => (db, not_found "No Template matches the given query.")
  | Some instance =>
      match outage with
      | Some O => (db, server_error OperationalError)
      | _ =>
          (filter (λ t, id t ≠ pk) db,
           {| status_code := HTTP_204_NO_CONTENT;
              body := _envelope_response true DataNone "Template deleted" None None |})
      end
  end.

End more_views.

Export more_views.

(** ** Sequences of requests, and what holds of the tables they leave *)

Module histories.

(** A request that writes: a create, a PUT or PATCH, or a DELETE. *)
Inductive Call :=
| POST_template (c : CreateCall)
| PUT_template (outage : option nat) (partial : bool) (pk : UUID) (d : RequestData) (now : Z)
| DELETE_template (outage : option nat) (pk : UUID).

Definition call_on {E : Engine} (c : Call) (db : Store) : Store * Response :=
  match c with
  | POST_template c => create (cc_outage c) (cc_data c) (cc_uuid c) (cc_now c) db
  | PUT_template outage partial pk d now => update outage partial pk d now db
  | DELETE_template outage pk => destroy outage pk db
  end.

(** The table that a sequence of such requests leaves. *)
Fixpoint calls_on {E : Engine} (cs : list Call) (db : Store) : Store :=
  match cs with
  | [] => db
  | c :: cs' => calls_on cs' (fst (call_on c db))
  end.

(** The row a successful PUT or PATCH answers with. *)
Definition updated (r : Response) : option Template :=
  if bool_decide (status_code r = status.HTTP_200_OK) then
    match body r with
    | Enveloped {| data := DataTemplate t |} => Some t
    | _ => None
    end
  else None.

(** A create on a database that stays up, or a delete. *)
Definition create_or_delete (c : Call) : Prop :=
  match c with
  | POST_template c => cc_outage c = None
  | PUT_template _ _ _ _ _ => False
  | DELETE_template _ _ => True
  end.

(** What the serializer lets into a row: the writable columns within their
    bounds, a content that compiles, and a version from 1 on. *)
Definition row_valid {E : Engine} (t : Template) : Prop :=
  code t ≠ EmptyString ∧ (String.length (code t) ≤ 100)%nat
  ∧ name t ≠ EmptyString ∧ (String.length (name t) ≤ 200)%nat
  ∧ language t ≠ EmptyString ∧ (String.length (language t) ≤ 10)%nat
  ∧ (∀ s, subject t = Some s → (String.length s ≤ 255)%nat)
  ∧ content t ≠ EmptyString ∧ (∃ django_template, DjangoTemplate (content t) = inr django_template)
  ∧ 1 ≤ version t.

(** An active row is the newest of its group: a group has at most one
    active row, and no row of the group has a greater version than an active
    one. *)
Definition active_is_newest (db : Store) : Prop :=
  ∀ c l, (length (active c l db) ≤ 1)%nat
         ∧ ∀ t u, t ∈ active c l db → u ∈ group c l db → version u ≤ version t.

End histories.

Export histories.

(** ** More tables and requests of the examples *)

Module more_examples.

(** Version 1 of ("welcome", "en") once version 2 has been created and
    deleted again. *)
Definition after_delete : Store :=
  [row 1%N "welcome" "en" (Some "Welcome {{name}}!")
     "Hello {{name}}, welcome to {{company}}!" 1 false].

Definition deleted_response : Response :=
  {| status_code := 204;
     body := _envelope_response true DataNone "Template deleted" None None |}.

(** The create that follows the delete. *)
Definition again : RequestData := welcome "Hi again" Absent.

Definition again_row : Template :=
  {| id := 3%N; code := "welcome"; name := "Welcome"; language := "en";
     subject := None; content := "Hi again"; version := 2;
     is_active := true; created_at := 2; updated_at := 2 |}.

Definition again_response : Response :=
  {| status_code := 201;
     body := _envelope_response true (DataTemplate again_row) "Template created" None None |}.

(** What validation leaves of a PATCH whose only key is the code "promo". *)
Definition only_code : validated_data :=
  {| v_code := Some "promo"; v_name := None; v_language := None;
     v_subject := None; v_content := None |}.

(** The two creates that leave [two_versions], and the delete of version 2
    after them. *)
Definition two_creates : list Call :=
  [POST_template
     (call 1%N (welcome "Hello {{name}}, welcome to {{company}}!" (Str "Welcome {{name}}!")));
   POST_template {| cc_outage := None; cc_data := second; cc_uuid := 2%N; cc_now := 1 |}].

Definition create_create_delete : list Call :=
  two_creates ++ [DELETE_template None 2%N].

(** A PATCH of the content of version 2 of ("welcome", "en"): the row, the
    table and the answer it leaves. *)
Definition patch_content : RequestData :=
  {| d_code := Absent; d_name := Absent; d_language := Absent; d_subject := Absent;
     d_content := Str "Bye {{name}}"; d_version := None; d_is_active := None |}.

Definition second_row_patched : Template :=
  {| id := 2%N; code := "welcome"; name := "Welcome"; language := "en";
     subject := None; content := "Bye {{name}}"; version := 2;
     is_active := true; created_at := 1; updated_at := 5 |}.

Definition two_versions_patched : Store :=
  [row 1%N "welcome" "en" (Some "Welcome {{name}}!")
     "Hello {{name}}, welcome to {{company}}!" 1 false;
   second_row_patched].

Definition patched_response : Response :=
  {| status_code := 200;
     body := _envelope_response true (DataTemplate second_row_patched) "Template updated"
               None None |}.

End more_examples.

Import more_examples.

(** ** urls.py *)

Module urls.

(** The path converters the routes use. *)
Inductive Converter := str_converter | uuid_converter.

(** A route as [path()] cuts it: the text between the parameters, and the
    parameters [<converter:name>]. *)
Inductive Part :=
| Literal (text : string)
| Param (converter : Converter) (name : string).

Inductive View :=
| TemplateListCreateView
| TemplateDetailView
| TemplateVersionListView
| RenderTemplateView
| HealthCheckView.

#[export] Instance View_eq_dec : EqDecision View.
Proof. solve_decision. Defined.

(** urlpatterns = [path(route, view, name=...), ...] *)
Definition urlpatterns : list (list Part * View * string) :=
  [ ([Literal "api/v1/templates/"], TemplateListCreateView, "template-list");
    ([Literal "api/v1/templates/"; Param uuid_converter "pk"; Literal "/"],
     TemplateDetailView, "template-detail");
    ([Literal "api/v1/templates/"; Param str_converter "code"; Literal "/versions/"],
     TemplateVersionListView, "template-versions");
    ([Literal "api/v1/templates/render/"], RenderTemplateView, "render-template");
    ([Literal "health/"], HealthCheckView, "health-check") ].

(** The text after a literal, when the text starts with it. *)
Fixpoint after_literal (text s : string) : option string :=
  match text with
  | EmptyString => Some s
  | String a text' =>
      match s with
      | String b s' => if bool_decide (a = b) then after_literal text' s' else None
      | EmptyString => None
      end
  end.

(** [[^/]*] at the start of a text: the characters before its first slash,
    and the rest. *)
Fixpoint segment (s : string) : string * string :=
  match s with
  | String a s' =>
      if bool_decide (a = "/"%char) then (EmptyString, s)
      else let '(seg, rest) := segment s' in (String a seg, rest)
  | EmptyString => (EmptyString, EmptyString)
  end.

Definition is_hex (a : ascii) : bool :=
  let n := nat_of_ascii a in
  ((48 <=? n) && (n <=? 57) || (97 <=? n) && (n <=? 102))%nat.

Definition is_dash (a : ascii) : bool := bool_decide (a = "-"%char).

(** The characters at the start of a text that are one by one of the
    classes, and the rest of the text. *)
Fixpoint classes (cs : list (ascii → bool)) (s : string) : option (string * string) :=
  match cs with
  | [] => Some (EmptyString, s)
  | c :: cs' =>
      match s with
      | String a s' =>
          if c a then
            match classes cs' s' with
            | Some (m, rest) => Some (String a m, rest)
            | None => None
            end
          else None
      | EmptyString => None
      end
  end.

(** [[0-9a-f]{8}-[0-9a-f]{4}-[0-9a-f]{4}-[0-9a-f]{4}-[0-9a-f]{12}] *)
Definition uuid_regex : list (ascii → bool) :=
  replicate 8 is_hex ++ [is_dash] ++ replicate 4 is_hex ++ [is_dash]
  ++ replicate 4 is_hex ++ [is_dash] ++ replicate 4 is_hex ++ [is_dash]
  ++ replicate 12 is_hex.

(** What a converter takes from the start of a text: [str] is [[^/]+],
    [uuid] the pattern above. *)
Definition convert (c : Converter) (s : string) : option (string * string) :=
  match c with
  | str_converter =>
      let '(seg, rest) := segment s in
      if bool_decide (seg = EmptyString) then None else Some (seg, rest)
  | uuid_converter => classes uuid_regex s
  end.

(** A route against a path: the whole path has to be taken; the result is
    the keyword arguments of the view. *)
Fixpoint match_route (route : list Part) (path : string) : option (list (string * string)) :=
  match route with
  | [] => if bool_decide (path = EmptyString) then Some [] else None
  | Literal text :: route' =>
      match after_literal text path with
      | Some rest => match_route route' rest
      | None => None
      end
  | Param c name :: route' =>
      match convert c path with
      | Some (value, rest) =>
          match match_route route' rest with
          | Some kwargs => Some ((name, value) :: kwargs)
          | None => None
          end
      | None => None
      end
  end.

(** The resolver: the first pattern whose route matches the path (the
    request path without its leading slash). *)
Fixpoint resolve_in (patterns : list (list Part * View * string)) (path : string)
    : option (View * list (string * string)) :=
  match patterns with
  | [] => None
  | (route, view, _) :: patterns' =>
      match match_route route path with
      | Some kwargs => Some (view, kwargs)
      | None => resolve_in patterns' path
      end
  end.

Definition resolve (path : string) : option (View * list (string * string)) :=
  resolve_in urlpatterns path.

(** A text without a slash. *)
Fixpoint no_slash (s : string) : bool :=
  match s with
  | String a s' => negb (bool_decide (a = "/"%char)) && no_slash s'
  | EmptyString => true
  end.

(** A text that a converter takes whole. *)
Definition converts (c : Converter) (value : string) : Prop :=
  convert c value = Some (value, EmptyString).

End urls.

(** * Properties of the queries *)

Section Queries.

#[local] Instance version_ge_trans : Transitive version_ge.
Proof. unfold version_ge. intros a b c ??. lia. Qed.

#[local] Instance version_ge_total : Total version_ge.
Proof. unfold version_ge. intros a b. lia. Qed.

Lemma order_by_version_desc_perm q : order_by_version_desc q ≡ₚ q.
Proof. apply merge_sort_Permutation. Qed.

Lemma order_by_version_desc_sorted q :
  StronglySorted version_ge (order_by_version_desc q).
Proof. apply (StronglySorted_merge_sort version_ge). Qed.

Lemma first_order_by_None q : first (order_by_version_desc q) = None ↔ q = [].
Proof.
  unfold first. rewrite head_None. split.
  - intros Hs. apply Permutation_nil_r. rewrite <- Hs. symmetry.
    apply order_by_version_desc_perm.
  - intros ->. reflexivity.
Qed.

Lemma first_order_by_Some q t :
  first (order_by_version_desc q) = Some t →
  t ∈ q ∧ Forall (λ u, version u ≤ version t) q.
Proof.
  unfold first. intros Hh.
  pose proof (order_by_version_desc_perm q) as Hp.
  pose proof (order_by_version_desc_sorted q) as Hs.
  destruct (order_by_version_desc q) as [|t' s]; simplify_eq/=.
  split.
  - rewrite <- Hp. left.
  - rewrite <- Hp. apply StronglySorted_inv in Hs as [_ Hall].
    constructor; [lia | exact Hall].
Qed.

(** The head of the ordered query is fixed by the rows, whatever their
    order, as soon as no two rows share a version. *)
Lemma first_order_by_unique q t :
  t ∈ q → Forall (λ u, u ≠ t → version u < version t) q →
  first (order_by_version_desc q) = Some t.
Proof.
  intros Hin Hmax.
  destruct (first (order_by_version_desc q)) as [t'|] eqn:Hf.
  - apply first_order_by_Some in Hf as [Hin' Hall].
    destruct (decide (t' = t)) as [->|Hne]; [done|].
    rewrite Forall_forall in Hmax, Hall.
    specialize (Hmax t' Hin' Hne). specialize (Hall t Hin). lia.
  - apply first_order_by_None in Hf. subst. inversion Hin.
Qed.

End Queries.

Lemma filter_none {A} (P : A → Prop) `{∀ x, Decision (P x)} (l : list A) :
  (∀ x, x ∈ l → ¬ P x) → filter P l = [].
Proof.
  induction l as [|x l IH]; [done|]. intros Hall.
  rewrite filter_cons, decide_False by (apply Hall; left).
  apply IH. intros y Hy. apply Hall. by right.
Qed.

(** * Constraints and statements *)

Section Constraints.

Lemma set_is_active_keeps_keys w b :
  keeps_keys (λ t, if w t : bool then set_is_active b t else t).
Proof. intros t. destruct (w t); done. Qed.

Lemma constraints_ok_fmap f db :
  keeps_keys f → constraints_ok (f <$> db) = constraints_ok db.
Proof.
  intros Hf. induction db as [|r db IH]; [done|].
  cbn [fmap list_fmap constraints_ok]. change (list_fmap _ _ f db) with (f <$> db).
  rewrite IH. f_equal.
  destruct (Hf r) as (Hi & Hc & Hl & Hv).
  clear IH. induction db as [|t db IH]; [done|].
  cbn [fmap list_fmap forallb]. change (list_fmap _ _ f db) with (f <$> db).
  rewrite IH. f_equal.
  destruct (Hf t) as (Hi' & Hc' & Hl' & Hv').
  f_equal; f_equal; apply bool_decide_ext; unfold same_key.
  - by rewrite Hi, Hi'.
  - by rewrite Hc, Hl, Hv, Hc', Hl', Hv'.
Qed.

Lemma in_group_fmap f c l t :
  keeps_keys f → in_group c l (f t) ↔ in_group c l t.
Proof. intros Hf. destruct (Hf t) as (_ & Hc & Hl & _). unfold in_group. by rewrite Hc, Hl. Qed.

(** An update that keeps the keys keeps each group, row for row. *)
Lemma objects_filter_fmap f c l db :
  keeps_keys f → objects_filter c l (f <$> db) = f <$> objects_filter c l db.
Proof.
  intros Hf. unfold objects_filter. induction db as [|t db IH]; [done|].
  rewrite fmap_cons, (filter_cons _ (f t)), (filter_cons _ t). rewrite IH.
  destruct (decide (in_group c l (f t))) as [Hg|Hg];
    destruct (decide (in_group c l t)) as [Hg'|Hg']; try done;
    rewrite in_group_fmap in Hg by done; done.
Qed.

Lemma NoDup_fmap_elem_inj {A B} (f : A → B) (l : list A) x y :
  NoDup (f <$> l) → x ∈ l → y ∈ l → f x = f y → x = y.
Proof.
  induction l as [|a l IH]; [by intros _ Hx; inversion Hx|].
  rewrite fmap_cons, NoDup_cons. intros [Hna Hnd] Hx Hy Hf.
  apply elem_of_cons in Hx as [->|Hx]; apply elem_of_cons in Hy as [->|Hy]; try done.
  - exfalso. apply Hna. rewrite Hf. by apply list_elem_of_fmap_2.
  - exfalso. apply Hna. rewrite <- Hf. by apply list_elem_of_fmap_2.
  - by apply IH.
Qed.

Lemma constraints_ok_ids db : constraints_ok db = true → NoDup (id <$> db).
Proof.
  induction db as [|r db IH]; [constructor|].
  cbn [constraints_ok]. rewrite andb_true_iff, forallb_forall. intros [Hr Hok].
  rewrite fmap_cons. apply NoDup_cons. split; [|by apply IH].
  intros Hin. apply list_elem_of_fmap in Hin as (t & Hid & Hin).
  apply list_elem_of_In in Hin. specialize (Hr t Hin).
  apply andb_true_iff in Hr as [Hr _]. apply negb_true_iff, bool_decide_eq_false in Hr. done.
Qed.

(** [unique_together]: two rows of a table with the same code, language
    and version are one row. *)
Lemma constraints_ok_keys db t u :
  constraints_ok db = true → t ∈ db → u ∈ db → same_key t u → t = u.
Proof.
  induction db as [|r db IH]; [by intros _ Ht; inversion Ht|].
  cbn [constraints_ok]. rewrite andb_true_iff, forallb_forall. intros [Hr Hok] Ht Hu Hk.
  assert (∀ x, x ∈ db → ¬ same_key r x) as Hrx.
  { intros x Hx. apply list_elem_of_In in Hx. specialize (Hr x Hx).
    apply andb_true_iff in Hr as [_ Hr]. by apply negb_true_iff, bool_decide_eq_false in Hr. }
  apply elem_of_cons in Ht as [->|Ht]; apply elem_of_cons in Hu as [->|Hu]; try done.
  - exfalso. by apply (Hrx u).
  - exfalso. apply (Hrx t Ht). destruct Hk as (? & ? & ?). unfold same_key. split_and!; congruence.
  - by apply IH.
Qed.

(** An insert is accepted exactly when the table has neither the
    identifier nor the key of the new row. *)
Lemma constraints_ok_snoc db r :
  constraints_ok (db ++ [r]) = true ↔
  constraints_ok db = true ∧ ∀ t, t ∈ db → id t ≠ id r ∧ ¬ same_key t r.
Proof.
  induction db as [|a db IH].
  - cbn. split; [|done]. intros _. split; [done|]. intros t Ht. inversion Ht.
  - cbn [app constraints_ok]. rewrite andb_true_iff, IH, forallb_app, andb_true_iff.
    cbn [forallb]. rewrite andb_true_r, andb_true_iff, !negb_true_iff.
    rewrite !bool_decide_eq_false. split.
    + intros [[Ha [Hi Hk]] [Hok Hall]]. split; [by rewrite andb_true_iff|].
      intros t Ht. apply elem_of_cons in Ht as [->|Ht]; [|by apply Hall].
      split; [congruence|]. intros (? & ? & ?). apply Hk. unfold same_key. done.
    + intros [[Ha Hok]%andb_true_iff Hall].
      destruct (Hall a) as [Hi Hk]; [left|].
      split_and!; try done. intros t Ht. apply Hall. by right.
Qed.

End Constraints.

Section NextVersion.

Lemma next_version_empty c l db :
  objects_filter c (Some l) db = [] → next_version c l db = 1.
Proof. intros Hq. unfold next_version. by rewrite Hq. Qed.

Lemma next_version_max c l db :
  objects_filter c (Some l) db ≠ [] →
  ∃ latest, latest ∈ objects_filter c (Some l) db
            ∧ Forall (λ u, version u ≤ version latest) (objects_filter c (Some l) db)
            ∧ next_version c l db = version latest + 1.
Proof.
  intros Hq. unfold next_version.
  destruct (first _) as [latest|] eqn:Hf.
  - apply first_order_by_Some in Hf as [??]. eauto.
  - by apply first_order_by_None in Hf.
Qed.

(** Every row of the group is below the next version. *)
Lemma next_version_above c l db t :
  t ∈ objects_filter c (Some l) db → version t < next_version c l db.
Proof.
  intros Hin. destruct (next_version_max c l db) as (m & _ & Hall & ->).
  - intros Hq. rewrite Hq in Hin. inversion Hin.
  - rewrite Forall_forall in Hall. specialize (Hall t Hin). lia.
Qed.

End NextVersion.

(** * What a create does to the table *)

Section Create.
Context {E : Engine}.

(** A field that is refused has at least one message. *)
Lemma CharField_Invalid partial required allow_null allow_blank max_length f msgs :
  CharField partial required allow_null allow_blank max_length f = Invalid msgs → msgs ≠ [].
Proof. unfold CharField. destruct f; repeat case_match; intros; by simplify_eq. Qed.

Lemma errors_of_Invalid key msgs : msgs ≠ [] → errors_of key (Invalid msgs) ≠ [].
Proof. by destruct msgs. Qed.

(** A request that passes validation for a create carries a code. *)
Lemma is_valid_create_code d vd :
  is_valid false d = inr vd → ∃ c, v_code vd = Some c.
Proof.
  unfold is_valid. intros Hv.
  destruct (CharField false true false false (Some 100%nat) (d_code d)) as [|[c|]|msgs] eqn:Hc.
  - unfold CharField in Hc. destruct (d_code d); simplify_eq/=. repeat case_match; simplify_eq.
  - cbn in Hv. case_match; simplify_eq. cbn. eauto.
  - unfold CharField in Hc. destruct (d_code d); simplify_eq/=. repeat case_match; simplify_eq.
  - apply CharField_Invalid in Hc. destruct msgs as [|msg msgs]; [done|].
    cbn in Hv. simplify_eq.
Qed.

Lemma exec_inr s db db' :
  exec s db = inr db' →
  constraints_ok db' = true
  ∧ db' = match s with INSERT r => db ++ [r] | UPDATE w f => apply_update w f db end.
Proof. unfold exec. intros Hx. case_match; by simplify_eq. Qed.

Lemma exec_INSERT r db :
  constraints_ok (db ++ [r]) = true → exec (INSERT r) db = inr (db ++ [r]).
Proof. unfold exec. by intros ->. Qed.

Lemma exec_deactivate w b db :
  constraints_ok (apply_update w (set_is_active b) db) = true →
  exec (UPDATE w (set_is_active b)) db = inr (apply_update w (set_is_active b) db).
Proof. unfold exec. by intros ->. Qed.

Lemma perform_create_inr outage vd uuid now db db' t :
  perform_create outage vd uuid now db = (db', inr t) →
  t = instance_of vd uuid now (next_version (v_code vd) (default "en" (v_language vd)) db)
  ∧ constraints_ok (db ++ [t]) = true
  ∧ db' = after_create vd uuid now db.
Proof.
  unfold perform_create, perform_create_stmts, after_create, deactivate_older.
  cbn [run exec]. intros Hr.
  destruct outage as [[|[|k]]|]; simplify_eq/=;
    repeat (case_match; simplify_eq/=); try done;
    repeat match goal with
           | Hx : exec _ _ = inr _ |- _ => apply exec_inr in Hx as [? ?]
           end; simplify_eq/=; done.
Qed.

(** On a database that stays up, a create whose identifier is new goes
    through: the second statement cannot break a constraint. *)
Lemma perform_create_total vd uuid now db :
  let t := instance_of vd uuid now (next_version (v_code vd) (default "en" (v_language vd)) db) in
  constraints_ok (db ++ [t]) = true →
  perform_create None vd uuid now db = (after_create vd uuid now db, inr t).
Proof.
  intros t Hok.
  unfold perform_create, perform_create_stmts, after_create, deactivate_older.
  cbn [run fmap option_fmap option_map]. fold t.
  rewrite (exec_INSERT _ _ Hok).
  rewrite exec_deactivate; [done|].
  unfold apply_update. by rewrite constraints_ok_fmap by apply set_is_active_keeps_keys.
Qed.

Lemma create_201 outage d uuid now db db' r :
  create outage d uuid now db = (db', r) →
  status_code r = status.HTTP_201_CREATED →
  ∃ vd t, is_valid false d = inr vd
          ∧ perform_create outage vd uuid now db = (db', inr t)
          ∧ created r = Some t.
Proof.
  unfold create. intros Hc Hs.
  destruct (is_valid false d) as [e|vd]; [by simplify_eq|].
  destruct (perform_create outage vd uuid now db) as [db1 [e|t]] eqn:Hp; simplify_eq/=.
  exists vd, t. split_and!; [done..|]. unfold created. cbn [status_code body].
  rewrite bool_decide_eq_true_2 by done. done.
Qed.

End Create.

Section CreateVersions.
Context {E : Engine}.

Lemma versions_after_create vd uuid now db c l :
  version <$> objects_filter c l (after_create vd uuid now db)
  = version <$> objects_filter c l
      (db ++ [instance_of vd uuid now
                (next_version (v_code vd) (default "en" (v_language vd)) db)]).
Proof.
  unfold after_create, apply_update.
  rewrite objects_filter_fmap by apply set_is_active_keeps_keys.
  rewrite <- list_fmap_compose. apply list_fmap_ext.
  intros i t _. cbn. by case_match.
Qed.

(** After a create in a group, the group's next version is one more. *)
Lemma next_version_after_create vd uuid now db c :
  v_code vd = Some c →
  let l := default "en" (v_language vd) in
  next_version (Some c) l (after_create vd uuid now db) = next_version (Some c) l db + 1.
Proof.
  intros Hc l.
  set (v := next_version (Some c) l db).
  set (t := instance_of vd uuid now v).
  assert (Hvs : version <$> objects_filter (Some c) (Some l) (after_create vd uuid now db)
                = (version <$> objects_filter (Some c) (Some l) db) ++ [v]).
  { rewrite versions_after_create. rewrite Hc. fold l v t.
    unfold objects_filter. rewrite filter_app, fmap_app. f_equal.
    rewrite filter_cons, filter_nil.
    rewrite decide_True; [done|]. unfold in_group, t. cbn. by rewrite Hc. }
  destruct (next_version_max (Some c) l (after_create vd uuid now db)) as (m & Hm & Hall & ->).
  { intros Hq. rewrite Hq in Hvs. by destruct (version <$> objects_filter (Some c) (Some l) db). }
  f_equal. apply Z.le_antisymm.
  - apply (list_elem_of_fmap_2 version) in Hm. rewrite Hvs in Hm.
    apply elem_of_app in Hm as [Hm|Hm].
    + apply list_elem_of_fmap in Hm as (u & -> & Hu).
      pose proof (next_version_above _ _ _ _ Hu). lia.
    + apply list_elem_of_singleton in Hm. lia.
  - assert (v ∈ version <$> objects_filter (Some c) (Some l) (after_create vd uuid now db)) as Hv.
    { rewrite Hvs. apply elem_of_app. right. by apply list_elem_of_singleton. }
    apply list_elem_of_fmap in Hv as (u & -> & Hu).
    rewrite Forall_forall in Hall. by apply Hall.
Qed.

(** The row a create answers with, in terms of the table before. *)
Lemma created_row outage d uuid now db db' r t :
  create outage d uuid now db = (db', r) → created r = Some t →
  ∃ vd, is_valid false d = inr vd
        ∧ v_code vd = Some (code t) ∧ default "en" (v_language vd) = language t
        ∧ t = instance_of vd uuid now (next_version (Some (code t)) (language t) db)
        ∧ constraints_ok (db ++ [t]) = true
        ∧ db' = after_create vd uuid now db.
Proof.
  intros Hc Hr.
  assert (status_code r = status.HTTP_201_CREATED) as Hs.
  { unfold created in Hr. case_bool_decide; [done|by simplify_eq]. }
  destruct (create_201 _ _ _ _ _ _ _ Hc Hs) as (vd & t' & Hv & Hp & Hr').
  rewrite Hr in Hr'. simplify_eq.
  apply perform_create_inr in Hp as (Ht & Hok & ->).
  destruct (is_valid_create_code _ _ Hv) as [c Hcode].
  assert (code t' = c) as Hct by (rewrite Ht; cbn; by rewrite Hcode).
  assert (language t' = default "en" (v_language vd)) as Hlt by (by rewrite Ht).
  exists vd. rewrite Hct, Hlt, <- Hcode. done.
Qed.

End CreateVersions.

Section Versions.
Context {E : Engine}.

Lemma created_row_stored vd uuid now db :
  let t := instance_of vd uuid now (next_version (v_code vd) (default "en" (v_language vd)) db) in
  t ∈ after_create vd uuid now db.
Proof.
  intros t. unfold after_create, apply_update. fold t.
  rewrite fmap_app. apply elem_of_app. right. cbn.
  rewrite (bool_decide_eq_true_2 (version t = _)) by done.
  rewrite andb_false_r. left.
Qed.

Lemma created_in_Some r c l :
  created_in r = Some (c, l) → ∃ t, created r = Some t ∧ code t = c ∧ language t = l.
Proof.
  unfold created_in. destruct (created r) as [t|]; [|done].
  cbn. intros; simplify_eq. eauto.
Qed.

Lemma creates_versions_from calls : ∀ c l db db' rs,
  creates calls db = (db', rs) →
  Forall (λ r, created_in r = Some (c, l)) rs →
  version <$> omap created rs
  = seqZ (next_version (Some c) l db) (Z.of_nat (length calls)).
Proof.
  induction calls as [|call calls IH]; intros c l db db' rs Hcs Hall.
  - cbn in Hcs. by simplify_eq.
  - cbn [creates] in Hcs.
    destruct (create _ _ _ _ db) as [db1 r] eqn:Hc.
    destruct (creates calls db1) as [db2 rs'] eqn:Hcs'. simplify_eq.
    apply Forall_cons in Hall as [(t & Hr & <- & <-)%created_in_Some Hall].
    destruct (created_row _ _ _ _ _ _ _ _ Hc Hr) as (vd & Hv & Hcode & Hlang & Ht & Hok & ->).
    cbn [omap list_omap]. rewrite Hr. rewrite fmap_cons.
    rewrite (IH _ _ _ _ _ Hcs' Hall).
    pose proof (next_version_after_create vd (cc_uuid call) (cc_now call) db _ Hcode) as Hn.
    cbn zeta in Hn. rewrite Hlang in Hn. rewrite Hn.
    cbn [length]. rewrite Nat2Z.inj_succ, (seqZ_cons _ (Z.succ _)) by lia.
    rewrite Z.pred_succ. f_equal. rewrite Ht at 1. done.
Qed.

End Versions.

Section SingleActive.
Context {E : Engine}.

(** The group of the new row after a create: its former rows, all
    inactive, then the new row. *)
Lemma group_after_create vd uuid now db c :
  v_code vd = Some c →
  let l := default "en" (v_language vd) in
  let t := instance_of vd uuid now (next_version (v_code vd) l db) in
  group c l (after_create vd uuid now db)
  = (set_is_active false <$> group c l db) ++ [t].
Proof.
  intros Hc l t. unfold group, after_create, apply_update. fold l t.
  rewrite objects_filter_fmap by apply set_is_active_keeps_keys.
  unfold objects_filter at 1. rewrite filter_app, fmap_app. f_equal.
  - apply list_fmap_ext. intros i u Hu. apply list_elem_of_lookup_2 in Hu.
    pose proof Hu as Hu'. apply list_elem_of_filter in Hu' as [Hg _].
    rewrite Hc. rewrite (bool_decide_eq_true_2 _ Hg).
    rewrite bool_decide_eq_false_2; [done|].
    pose proof (next_version_above _ _ _ _ Hu). lia.
  - rewrite filter_cons, filter_nil.
    rewrite decide_True by (unfold in_group, t; cbn; by rewrite Hc).
    cbn. rewrite (bool_decide_eq_true_2 (version t = _)) by done.
    by rewrite andb_false_r.
Qed.

(** Every other group is left as it was. *)
Lemma group_after_create_other vd uuid now db c l :
  (v_code vd, default "en" (v_language vd)) ≠ (Some c, l) →
  v_code vd ≠ None →
  group c l (after_create vd uuid now db) = group c l db.
Proof.
  intros Hne Hsome. unfold group, after_create, apply_update.
  rewrite objects_filter_fmap by apply set_is_active_keeps_keys.
  unfold objects_filter. rewrite filter_app, fmap_app.
  rewrite filter_cons, filter_nil.
  rewrite decide_False.
  2:{ unfold in_group. cbn. intros [Hc Hl]. simplify_eq.
      destruct (v_code vd) as [c'|]; [|done]. by apply Hne. }
  rewrite app_nil_r. rewrite <- (list_fmap_id (filter _ db)) at 2.
  apply list_fmap_ext. intros i u Hu. apply list_elem_of_lookup_2 in Hu.
  apply list_elem_of_filter in Hu as [[Hg1 Hg2] _]. simplify_eq.
  rewrite bool_decide_eq_false_2; [done|].
  unfold in_group. intros [Hc Hl]. apply Hne. congruence.
Qed.

Lemma filter_active_deactivated q :
  filter (λ t, is_active t = true) (set_is_active false <$> q) = [].
Proof.
  induction q as [|t q IH]; [done|].
  rewrite fmap_cons, filter_cons, IH. by rewrite decide_False.
Qed.

(** A create on a database that stays up either leaves the table as it
    was or goes through. *)
Lemma create_up_cases d uuid now db db' r :
  create None d uuid now db = (db', r) →
  db' = db ∨ ∃ t, created r = Some t.
Proof.
  unfold create. intros Hc.
  destruct (is_valid false d) as [e|vd] eqn:Hv; [left; by simplify_eq|].
  set (t := instance_of vd uuid now (next_version (v_code vd) (default "en" (v_language vd)) db)).
  destruct (constraints_ok (db ++ [t])) eqn:Hok.
  - rewrite (perform_create_total vd uuid now db Hok) in Hc. simplify_eq.
    right. exists t. unfold created. cbn. by rewrite bool_decide_eq_true_2.
  - left. unfold perform_create, perform_create_stmts in Hc.
    cbn [run] in Hc. fold t in Hc. unfold exec in Hc. rewrite Hok in Hc.
    by simplify_eq.
Qed.

Lemma single_active_after_create outage d uuid now db db' r t :
  create outage d uuid now db = (db', r) → created r = Some t →
  active (code t) (language t) db' = [t]
  ∧ Forall (λ u, version u ≤ version t) (group (code t) (language t) db')
  ∧ ∀ c l, (c, l) ≠ (code t, language t) → group c l db' = group c l db.
Proof.
  intros Hc Hr.
  destruct (created_row _ _ _ _ _ _ _ _ Hc Hr) as (vd & Hv & Hcode & Hlang & Ht & Hok & ->).
  pose proof (group_after_create vd uuid now db _ Hcode) as Hg. cbn zeta in Hg.
  rewrite Hlang, Hcode in Hg. rewrite <- Ht in Hg.
  split_and!.
  - unfold active. rewrite Hg, filter_app, filter_active_deactivated.
    rewrite filter_cons, filter_nil, decide_True; [done|]. by rewrite Ht.
  - rewrite Hg. apply Forall_app. split; [|by apply Forall_singleton].
    apply Forall_fmap, Forall_forall. intros u Hu. cbn.
    pose proof (next_version_above _ _ _ _ Hu) as Hlt.
    rewrite Ht. cbn. lia.
  - intros c l Hne. apply group_after_create_other.
    + rewrite Hcode, Hlang. intros ?. apply Hne. by simplify_eq.
    + by rewrite Hcode.
Qed.

Lemma creates_up_single_active calls : ∀ db db' rs,
  Forall (λ call, cc_outage call = None) calls →
  (∀ c l, (length (active c l db) ≤ 1)%nat) →
  creates calls db = (db', rs) →
  ∀ c l, (length (active c l db') ≤ 1)%nat.
Proof.
  induction calls as [|call calls IH]; intros db db' rs Hup Hinv Hcs.
  - cbn in Hcs. by simplify_eq.
  - cbn [creates] in Hcs. apply Forall_cons in Hup as [Hup0 Hup].
    destruct (create _ _ _ _ db) as [db1 r] eqn:Hc.
    destruct (creates calls db1) as [db2 rs'] eqn:Hcs'. simplify_eq.
    apply (IH db1 _ rs' Hup); [|done]. clear IH Hcs'.
    rewrite Hup0 in Hc.
    destruct (create_up_cases _ _ _ _ _ _ Hc) as [->|[t Hr]]; [done|].
    destruct (single_active_after_create _ _ _ _ _ _ _ _ Hc Hr) as (Hone & _ & Hother).
    intros c l. destruct (decide ((c, l) = (code t, language t))) as [Heq|Hne].
    + simplify_eq. by rewrite Hone.
    + unfold active. rewrite (Hother _ _ Hne). apply Hinv.
Qed.

End SingleActive.

Section BetweenStatements.
Context {E : Engine}.

(** The table between the two statements of a create: the rows that were
    active in the group still are, and so is the inserted row. *)
Lemma active_after_insert vd uuid now db :
  let t := instance_of vd uuid now (next_version (v_code vd) (default "en" (v_language vd)) db) in
  v_code vd ≠ None →
  active (code t) (language t) (db ++ [t]) = active (code t) (language t) db ++ [t].
Proof.
  intros t Hc. unfold active, group, objects_filter.
  rewrite !filter_app. f_equal.
  rewrite filter_cons, filter_nil, decide_True.
  - by rewrite filter_cons, filter_nil, decide_True.
  - unfold in_group, t. cbn. by destruct (v_code vd).
Qed.

End BetweenStatements.

(** * The render view *)

Section Render.
Context {E : Engine}.


Lemma post_no_active d db :
  ¬ falsy (get (q_code d)) →
  active_latest (get (q_code d)) (get_default (q_language d) "en") db = None →
  post d db = render_not_found.
Proof. intros Hf Hn. unfold post. rewrite bool_decide_eq_false_2 by done. by rewrite Hn. Qed.

Lemma post_200 d db :
  status_code (post d db) = status.HTTP_200_OK →
  ∃ template django_template rendered_content,
    ¬ falsy (get (q_code d))
    ∧ active_latest (get (q_code d)) (get_default (q_language d) "en") db = Some template
    ∧ DjangoTemplate (content template) = inr django_template
    ∧ render django_template (default ∅ (q_variables d)) = inr rendered_content
    ∧ post d db =
        {| status_code := status.HTTP_200_OK;
           body := _envelope_response true
                     (DataRendered {| r_code := code template;
                                      r_subject := subject template;
                                      r_content := rendered_content;
                                      r_version := version template;
                                      r_language := language template |})
                     "Template rendered successfully" None None |}.
Proof.
  unfold post. case_bool_decide as Hf; [done|].
  destruct (active_latest _ _ db) as [template|]; [|done].
  destruct (DjangoTemplate (content template)) as [e|t] eqn:Ht; [done|].
  destruct (render t _) as [e|out] eqn:Hr; [done|].
  intros _. exists template, t, out. done.
Qed.

(** [latest] on the active rows of a group finds nothing exactly when the
    group has no active row. *)
Lemma active_latest_None c l db :
  active_latest c l db = None ↔
  ∀ t, t ∈ db → in_group c l t → is_active t = false.
Proof.
  unfold active_latest, latest_version. rewrite (first_order_by_None _). split.
  - intros Hq t Hin Hg. destruct (is_active t) eqn:Ha; [|done].
    assert (t ∈ filter (λ t, is_active t = true) (objects_filter c l db)) as Hin'.
    { apply list_elem_of_filter. split; [done|]. by apply list_elem_of_filter. }
    rewrite Hq in Hin'. inversion Hin'.
  - intros Hall. apply filter_none. intros t Hin Ha.
    apply list_elem_of_filter in Hin as [Hg Hin]. rewrite (Hall t Hin Hg) in Ha. done.
Qed.

End Render.

Section Resolution.
Context {E : Engine}.

Lemma active_latest_Some c l db t :
  active_latest c l db = Some t →
  t ∈ db ∧ in_group c l t ∧ is_active t = true
  ∧ ∀ u, u ∈ db → in_group c l u → is_active u = true → version u ≤ version t.
Proof.
  unfold active_latest, latest_version. intros Hl.
  apply first_order_by_Some in Hl as [Hin Hall].
  apply list_elem_of_filter in Hin as [Ha Hin].
  apply list_elem_of_filter in Hin as [Hg Hin].
  split_and!; try done. intros u Hu Hgu Hau.
  rewrite Forall_forall in Hall. apply Hall.
  apply list_elem_of_filter. split; [done|]. by apply list_elem_of_filter.
Qed.

Lemma active_latest_is_Some c l db a :
  a ∈ db → in_group c l a → is_active a = true → is_Some (active_latest c l db).
Proof.
  intros Hin Hg Ha. destruct (active_latest c l db) eqn:Hl; [done|].
  rewrite active_latest_None in Hl. rewrite (Hl a Hin Hg) in Ha. done.
Qed.

(** The row found does not depend on the order in which the table holds
    its rows. *)
Lemma active_latest_perm c l db db' :
  constraints_ok db = true → db ≡ₚ db' →
  active_latest c l db' = active_latest c l db.
Proof.
  intros Hok Hp.
  destruct (active_latest c l db) as [t|] eqn:Hl.
  - apply active_latest_Some in Hl as (Hin & Hg & Ha & Hmax).
    unfold active_latest, latest_version. apply first_order_by_unique.
    + apply list_elem_of_filter. split; [done|]. apply list_elem_of_filter.
      split; [done|]. by rewrite <- Hp.
    + apply Forall_forall. intros u Hu Hne.
      apply list_elem_of_filter in Hu as [Hau Hu].
      apply list_elem_of_filter in Hu as [Hgu Hu]. rewrite <- Hp in Hu.
      pose proof (Hmax u Hu Hgu Hau) as Hle.
      destruct (decide (version u = version t)) as [Heq|]; [|lia].
      exfalso. apply Hne. apply (constraints_ok_keys db); try done.
      destruct Hg as [Hc1 Hl1], Hgu as [Hc2 Hl2].
      unfold same_key. split_and!; congruence.
  - rewrite active_latest_None in Hl. apply active_latest_None.
    intros t Hin. rewrite <- Hp in Hin. by apply Hl.
Qed.

End Resolution.

(** * The serializer *)

Section Validation.
Context {E : Engine}.

Lemma create_400 outage d uuid now db db' r :
  create outage d uuid now db = (db', r) →
  status_code r = status.HTTP_400_BAD_REQUEST → db' = db.
Proof.
  unfold create. destruct (is_valid false d); [by intros; simplify_eq|].
  destruct (perform_create _ _ _ _ _) as [? [?|?]]; intros; by simplify_eq.
Qed.

Lemma content_rejected partial d s e :
  d_content d = Str s → DjangoTemplate (strip s) = inl e →
  ∃ errs, is_valid partial d = inl errs.
Proof.
  intros Hd He. unfold is_valid.
  assert (∃ msg msgs, content_field partial (d_content d) = Invalid (msg :: msgs))
    as (msg & msgs & ->).
  { rewrite Hd. unfold content_field, validate_content.
    destruct (CharField partial true false false None (Str s)) as [|[v|]|msgs] eqn:Hc.
    - unfold CharField in Hc. repeat case_match; simplify_eq.
    - assert (v = strip s) as ->
        by (unfold CharField in Hc; repeat case_match; by simplify_eq).
      rewrite He. eauto.
    - unfold CharField in Hc. repeat case_match; simplify_eq.
    - apply CharField_Invalid in Hc as Hne. destruct msgs as [|msg msgs]; [done|]. eauto. }
  cbn [errors_of fmap list_fmap].
  destruct (errors_of "code" _ ++ errors_of "name" _ ++ errors_of "language" _
            ++ errors_of "subject" _ ++ ("content", msg) :: _) eqn:Herr; [|eauto].
  repeat (apply app_eq_nil in Herr as [_ Herr]). done.
Qed.

Lemma subject_unchecked partial d s vd :
  (String.length (strip s) ≤ 255)%nat → has_null_character (strip s) = false →
  is_valid partial (with_subject Absent d) = inr vd →
  is_valid partial (with_subject (Str s) d)
  = inr (set_v_subject (Some (Some (strip s))) vd).
Proof.
  intros Hlen Hnul. unfold is_valid, with_subject.
  cbn [d_code d_name d_language d_subject d_content].
  assert (CharField partial false true true (Some 255%nat) (Str s) = Value (Some (strip s))) as ->.
  { unfold CharField, run_validators. rewrite Hnul. case_bool_decide as He; [by rewrite He|].
    apply Nat.leb_le in Hlen. by rewrite Hlen. }
  assert (CharField partial false true true (Some 255%nat) Absent = Skip) as ->.
  { unfold CharField. done. }
  cbn [errors_of value_of]. rewrite !app_nil_l.
  destruct (_ ++ _ ++ _ ++ _); intros; by simplify_eq.
Qed.

End Validation.

Section Subject.
Context {E : Engine}.

(** A create on a database that fails at neither of its two statements
    goes through when the insert is accepted. *)
Lemma perform_create_up outage vd uuid now db :
  let t := instance_of vd uuid now (next_version (v_code vd) (default "en" (v_language vd)) db) in
  outage ≠ Some 0%nat → outage ≠ Some 1%nat →
  constraints_ok (db ++ [t]) = true →
  perform_create outage vd uuid now db = (after_create vd uuid now db, inr t).
Proof.
  intros t H0 H1 Hok.
  unfold perform_create, perform_create_stmts, after_create, deactivate_older.
  cbn [run]. fold t. rewrite (exec_INSERT _ _ Hok).
  assert (exec (UPDATE (λ u, bool_decide (in_group (v_code vd) (Some (default "en" (v_language vd))) u)
                             && negb (bool_decide (version u = next_version (v_code vd)
                                                     (default "en" (v_language vd)) db)))
                  (set_is_active false)) (db ++ [t])
          = inr (apply_update
                   (λ u, bool_decide (in_group (v_code vd) (Some (default "en" (v_language vd))) u)
                         && negb (bool_decide (version u = next_version (v_code vd)
                                                 (default "en" (v_language vd)) db)))
                   (set_is_active false) (db ++ [t]))) as Hup.
  { apply exec_deactivate. unfold apply_update.
    by rewrite constraints_ok_fmap by apply set_is_active_keeps_keys. }
  destruct outage as [[|[|k]]|]; try done; cbn [fmap option_fmap option_map pred];
    by rewrite Hup.
Qed.

(** A create that goes through met no failure at its two statements. *)
Lemma create_created_up outage d uuid now db db' r t :
  create outage d uuid now db = (db', r) → created r = Some t →
  outage ≠ Some 0%nat ∧ outage ≠ Some 1%nat.
Proof.
  intros Hc Hr.
  assert (status_code r = status.HTTP_201_CREATED) as Hs.
  { unfold created in Hr. case_bool_decide; [done|by simplify_eq]. }
  destruct (create_201 _ _ _ _ _ _ _ Hc Hs) as (vd & t' & Hv & Hp & _).
  unfold perform_create, perform_create_stmts in Hp. cbn [run] in Hp.
  split; intros ->; [by simplify_eq|].
  destruct (exec (INSERT _) db); cbn in Hp; by simplify_eq.
Qed.

(** A subject that has at most 255 characters once trimmed, and no NUL
    character, is stored as it is trimmed, whatever it holds. *)
Lemma create_with_subject outage d s uuid now db db' r t :
  (String.length (strip s) ≤ 255)%nat → has_null_character (strip s) = false →
  create outage (with_subject Absent d) uuid now db = (db', r) → created r = Some t →
  ∃ db'' r', create outage (with_subject (Str s) d) uuid now db = (db'', r')
             ∧ created r' = Some (set_subject (Some (strip s)) t)
             ∧ set_subject (Some (strip s)) t ∈ db''.
Proof.
  intros Hlen Hnul Hc Hr.
  destruct (create_created_up _ _ _ _ _ _ _ _ Hc Hr) as [H0 H1].
  destruct (created_row _ _ _ _ _ _ _ _ Hc Hr) as (vd & Hv & Hcode & Hlang & Ht & Hok & ->).
  pose proof (subject_unchecked false d s vd Hlen Hnul Hv) as Hv'.
  set (vd' := set_v_subject (Some (Some (strip s))) vd) in *.
  assert (instance_of vd' uuid now
            (next_version (v_code vd') (default "en" (v_language vd')) db)
          = set_subject (Some (strip s)) t) as Ht'.
  { rewrite Ht at 1. unfold vd'. cbn. by rewrite Hcode, Hlang. }
  assert (constraints_ok (db ++ [set_subject (Some (strip s)) t]) = true) as Hok'.
  { apply constraints_ok_snoc. apply constraints_ok_snoc in Hok as [Hdb Hfresh].
    split; [done|]. intros u Hu. destruct (Hfresh u Hu) as [Hi Hk]. done. }
  pose proof (perform_create_up outage vd' uuid now db) as Hp. cbn zeta in Hp.
  rewrite Ht' in Hp. specialize (Hp H0 H1 Hok').
  eexists _, _. unfold create. rewrite Hv', Hp. split; [done|]. split.
  - unfold created. cbn. by rewrite bool_decide_eq_true_2.
  - rewrite <- Ht'. apply created_row_stored.
Qed.

(** A field that is refused makes the request invalid. *)
Lemma subject_refused partial d msg msgs :
  CharField partial false true true (Some 255%nat) (d_subject d) = Invalid (msg :: msgs) →
  ∃ errs, is_valid partial d = inl errs.
Proof.
  intros Hs. unfold is_valid. rewrite Hs. cbn [errors_of fmap list_fmap].
  destruct (errors_of "code" _ ++ errors_of "name" _ ++ errors_of "language" _
            ++ (("subject", msg) :: _) ++ _) eqn:Herr; [|eauto].
  apply app_eq_nil in Herr as [_ Herr]. apply app_eq_nil in Herr as [_ Herr].
  apply app_eq_nil in Herr as [_ Herr]. by apply app_eq_nil in Herr as [Herr _].
Qed.

(** The field's own checks: a subject of more than 255 characters, or with
    a NUL character, is refused. *)
Lemma subject_too_long_or_null partial s :
  (255 < String.length (strip s))%nat ∨ has_null_character (strip s) = true →
  ∃ msg msgs, CharField partial false true true (Some 255%nat) (Str s) = Invalid (msg :: msgs).
Proof.
  intros Hbad. unfold CharField, run_validators.
  rewrite bool_decide_eq_false_2.
  2:{ intros He. rewrite He in Hbad. cbn in Hbad. destruct Hbad; [lia|done]. }
  destruct (String.length (strip s) <=? 255)%nat eqn:Hl;
    destruct (has_null_character (strip s)) eqn:Hn; cbn; eauto.
  apply Nat.leb_le in Hl. destruct Hbad; [lia|done].
Qed.

End Subject.

(** * The version list *)

Section VersionList.

Lemma get_queryset_perm code language db :
  get_queryset code language db ≡ₚ group code (default "en" language) db.
Proof. unfold get_queryset, group. apply order_by_version_desc_perm. Qed.

Lemma get_queryset_sorted code language db :
  StronglySorted (λ a b, version b ≤ version a) (get_queryset code language db).
Proof. unfold get_queryset. apply order_by_version_desc_sorted. Qed.

Lemma get_queryset_unknown code language db :
  (∀ t, t ∈ db → models.code t ≠ code) → get_queryset code language db = [].
Proof.
  intros Hno. unfold get_queryset, objects_filter.
  rewrite filter_none; [done|].
  intros t Hin [Hc _]. apply (Hno t Hin). by simplify_eq.
Qed.

Lemma list_versions_unpaginated PAGE_SIZE code language p db :
  PAGE_SIZE = None ∨ PAGE_SIZE = Some 0%nat →
  list_versions PAGE_SIZE code language p db
  = versions_retrieved (get_queryset code language db).
Proof. intros [-> | ->]; reflexivity. Qed.

Lemma list_versions_page size code language n db :
  let queryset := get_queryset code language db in
  (0 < size)%nat → 1 ≤ n ≤ Z.of_nat (num_pages (length queryset) size) →
  list_versions (Some size) code language (PageNumber n) db
  = versions_retrieved (take size (drop ((Z.to_nat n - 1) * size) queryset)).
Proof.
  intros queryset Hsize Hn. unfold list_versions, paginate_queryset. fold queryset.
  destruct size as [|size]; [lia|].
  rewrite (proj2 (Z.ltb_ge n 1)) by lia.
  rewrite (proj2 (Z.ltb_ge _ n)) by lia. reflexivity.
Qed.

Lemma num_pages_empty size : (0 < size)%nat → num_pages 0 size = 1%nat.
Proof.
  intros Hs. unfold num_pages. cbn [Nat.max].
  replace (1 + size - 1)%nat with size by lia. apply Nat.div_same. lia.
Qed.

Lemma list_versions_unknown PAGE_SIZE code language p db :
  (∀ t, t ∈ db → models.code t ≠ code) →
  p = NoPage ∨ p = LastPage ∨ p = PageNumber 1 →
  list_versions PAGE_SIZE code language p db = versions_retrieved [].
Proof.
  intros Hno Hp. unfold list_versions, paginate_queryset.
  rewrite (get_queryset_unknown _ _ _ Hno).
  destruct PAGE_SIZE as [[|size]|]; [done| |done].
  cbn [length]. rewrite num_pages_empty by lia.
  destruct Hp as [-> | [-> | ->]]; cbn; by rewrite drop_nil, take_nil.
Qed.

Lemma slices_cover {A} (size : nat) : ∀ (k : nat) (l : list A),
  (length l ≤ k * size)%nat →
  concat ((λ i, take size (drop (i * size) l)) <$> seq 0 k) = l.
Proof.
  induction k as [|k IH]; intros l Hl.
  - destruct l; [done|]. cbn in Hl. lia.
  - cbn [seq fmap list_fmap concat]. rewrite drop_0.
    transitivity (take size l ++ drop size l); [|apply take_drop]. f_equal.
    rewrite <- (IH (drop size l)) by (rewrite length_drop; lia).
    f_equal. change (list_fmap nat (list A) ?f ?l) with (f <$> l).
    rewrite <- fmap_S_seq, <- list_fmap_compose.
    apply list_fmap_ext. intros i j _. cbn. rewrite drop_drop. reflexivity.
Qed.

Lemma num_pages_cover count size :
  (0 < size)%nat → (count ≤ num_pages count size * size)%nat.
Proof.
  intros Hs. unfold num_pages.
  pose proof (Nat.div_mod_eq (Nat.max 1 count + size - 1) size) as Hd.
  pose proof (Nat.mod_upper_bound (Nat.max 1 count + size - 1) size) as Hm.
  nia.
Qed.

(** With a page size, the rows of the pages 1, 2, ... in order are the
    whole list. *)
Lemma list_versions_pages size code language db :
  (0 < size)%nat →
  let queryset := get_queryset code language db in
  concat ((λ i, rows_of (list_versions (Some size) code language
                           (PageNumber (Z.of_nat (S i))) db))
            <$> seq 0 (num_pages (length queryset) size))
  = queryset.
Proof.
  intros Hs queryset.
  etrans; [|apply (slices_cover size (num_pages (length queryset) size) queryset);
            by apply num_pages_cover].
  f_equal. apply list_fmap_ext. intros i j Hj.
  apply lookup_seq in Hj as [-> Hj]. cbn [plus].
  rewrite list_versions_page; [|done|fold queryset; lia].
  rewrite Nat2Z.id. unfold rows_of, versions_retrieved, _envelope_response.
  cbn [body data]. do 2 f_equal. lia.
Qed.

End VersionList.

(** * Direct updates *)

Section DirectUpdate.
Context {E : Engine}.

Lemma get_object_Some pk db t : get_object pk db = Some t → t ∈ db ∧ id t = pk.
Proof.
  unfold get_object. intros Hh. apply head_Some_elem_of in Hh.
  apply list_elem_of_filter in Hh as [??]. done.
Qed.

Lemma update_read_only outage partial pk d now db db' r :
  update outage partial pk d now db = (db', r) →
  read_only <$> db' = read_only <$> db.
Proof.
  unfold update. intros Hu.
  destruct (get_object pk db) as [instance|] eqn:Hg; [|by simplify_eq].
  destruct (is_valid partial d) as [e|vd]; [by simplify_eq|].
  apply get_object_Some in Hg as [Hin Hid].
  cbn [run] in Hu.
  assert (∀ db1, exec (UPDATE (λ t, bool_decide (id t = pk))
                        (λ _, update_instance vd now instance)) db = inr db1 →
                 read_only <$> db1 = read_only <$> db) as Hex.
  { intros db1 Hx. apply exec_inr in Hx as [Hok ->].
    assert (id <$> apply_update (λ t, bool_decide (id t = pk))
                     (λ _, update_instance vd now instance) db = id <$> db) as Hids.
    { unfold apply_update. rewrite <- list_fmap_compose. apply list_fmap_ext.
      intros i t _. cbn. case_bool_decide; [|done]. cbn. congruence. }
    apply constraints_ok_ids in Hok. rewrite Hids in Hok.
    unfold apply_update. rewrite <- list_fmap_compose. apply list_fmap_ext.
    intros i t Ht. cbn. case_bool_decide as Heq; [|done].
    apply list_elem_of_lookup_2 in Ht.
    assert (t = instance) as -> by (apply (NoDup_fmap_elem_inj id db); congruence).
    done. }
  destruct outage as [[|k]|]; [by simplify_eq| |];
    (destruct (exec _ db) as [e|db1] eqn:Hx; [by simplify_eq|]);
    cbn in Hu; simplify_eq; by apply Hex.
Qed.

End DirectUpdate.

(** * The engine on templates written as spans *)

Section Lexer.

Lemma append_cons a s t : String a s +:+ t = String a (s +:+ t).
Proof. reflexivity. Qed.

Lemma append_nil_r s : s +:+ EmptyString = s.
Proof. induction s as [|a s IH]; [done|]. by rewrite append_cons, IH. Qed.

Lemma append_assoc s t u : (s +:+ t) +:+ u = s +:+ t +:+ u.
Proof. induction s as [|a s IH]; [done|]. by rewrite !append_cons, IH. Qed.

Lemma length_append s t :
  String.length (s +:+ t) = (String.length s + String.length t)%nat.
Proof. induction s as [|a s IH]; [done|]. rewrite append_cons. cbn. by rewrite IH. Qed.

Lemma rev_app_rev_app s : ∀ t u,
  String.rev_app (String.rev_app s t) u = String.rev_app t (s +:+ u).
Proof.
  induction s as [|a s IH]; intros t u; [done|].
  cbn [String.rev_app]. by rewrite IH.
Qed.

Lemma rev_rev s : String.rev (String.rev s) = s.
Proof. unfold String.rev. rewrite rev_app_rev_app. cbn. apply append_nil_r. Qed.

Lemma is_word_not_whitespace a : is_word a = true → is_whitespace a = false.
Proof. destruct a as [[] [] [] [] [] [] [] []]; vm_compute; congruence. Qed.

Lemma is_word_not_special a :
  is_word a = true → a ≠ "}"%char ∧ a ≠ "010"%char.
Proof. destruct a as [[] [] [] [] [] [] [] []]; vm_compute; split; congruence. Qed.

Lemma all_word_rev_app s : ∀ t,
  all_word s = true → all_word t = true → all_word (String.rev_app s t) = true.
Proof.
  induction s as [|a s IH]; intros t Hs Ht; [done|].
  cbn in Hs. apply andb_true_iff in Hs as [Ha Hs].
  cbn [String.rev_app]. apply IH; [done|]. cbn. by rewrite Ha, Ht.
Qed.

Lemma lstrip_word s : all_word s = true → lstrip s = s.
Proof.
  destruct s as [|a s]; [done|]. cbn. intros Hs.
  apply andb_true_iff in Hs as [Ha _]. by rewrite (is_word_not_whitespace _ Ha).
Qed.

Lemma plain_name_all_word s : plain_name s = true → all_word s = true ∧ s ≠ EmptyString.
Proof.
  destruct s as [|a s]; [done|]. cbn. intros Hs. apply andb_true_iff in Hs as [Ha Hs].
  split; [|done]. rewrite Hs, andb_true_r. unfold is_word. by rewrite Ha.
Qed.

Lemma lex_skip p : ∀ rest lineno text,
  lex (String.length p) lineno text (p +:+ rest) = lex 0 lineno text rest.
Proof. induction p as [|a p IH]; intros; [done|]. cbn. apply IH. Qed.

End Lexer.

Section Spans.

Lemma rev_app_append s : ∀ t, String.rev_app s t = String.rev s +:+ t.
Proof.
  induction s as [|a s IH]; intros t; [done|].
  unfold String.rev. cbn [String.rev_app]. rewrite (IH (String a t)), (IH (String a EmptyString)).
  by rewrite append_assoc.
Qed.

Lemma rev_append s t : String.rev (s +:+ t) = String.rev t +:+ String.rev s.
Proof.
  induction s as [|a s IH]; [by rewrite append_nil_r|].
  rewrite append_cons. unfold String.rev at 1 3. cbn [String.rev_app].
  rewrite !rev_app_append, IH. by rewrite append_assoc.
Qed.

Lemma blank_whitespace s : blank s = true → lstrip s = EmptyString ∧ ∀ t, lstrip (s +:+ t) = lstrip t.
Proof.
  induction s as [|a s IH]; [done|]. cbn [blank]. intros Hs.
  apply andb_true_iff in Hs as [Ha Hs]. apply andb_true_iff in Ha as [Ha _].
  destruct (IH Hs) as [H1 H2]. split.
  - cbn. by rewrite Ha.
  - intros t. rewrite append_cons. cbn. by rewrite Ha.
Qed.

Lemma blank_rev_app s : ∀ t, blank s = true → blank t = true → blank (String.rev_app s t) = true.
Proof.
  induction s as [|a s IH]; intros t Hs Ht; [done|].
  cbn [blank] in Hs. apply andb_true_iff in Hs as [Ha Hs].
  cbn [String.rev_app]. apply IH; [done|]. cbn [blank]. by rewrite Ha, Ht.
Qed.

Lemma blank_rev s : blank s = true → blank (String.rev s) = true.
Proof. intros Hs. by apply blank_rev_app. Qed.

(** The name of a tag is what [strip] leaves of its contents. *)
Lemma strip_padded before name after :
  blank before = true → plain_name name = true → blank after = true →
  strip (before +:+ name +:+ after) = name.
Proof.
  intros Hb Hn Ha. apply plain_name_all_word in Hn as [Hw Hne].
  unfold strip.
  rewrite (proj2 (blank_whitespace _ Hb)).
  assert (lstrip (name +:+ after) = name +:+ after) as ->.
  { destruct name as [|a name]; [done|]. rewrite append_cons. cbn.
    cbn in Hw. apply andb_true_iff in Hw as [Hwa _].
    by rewrite (is_word_not_whitespace _ Hwa). }
  rewrite rev_append.
  rewrite (proj2 (blank_whitespace _ (blank_rev _ Ha))).
  rewrite lstrip_word by (by apply all_word_rev_app). apply rev_rev.
Qed.

Lemma inner_append s t : inner s = true → inner t = true → inner (s +:+ t) = true.
Proof.
  induction s as [|a s IH]; [done|]. rewrite append_cons. cbn [inner].
  intros Hs Ht. apply andb_true_iff in Hs as [-> Hs]. by apply IH.
Qed.

Lemma blank_inner s : blank s = true → inner s = true.
Proof.
  induction s as [|a s IH]; [done|]. cbn [blank inner]. intros Hs.
  apply andb_true_iff in Hs as [Ha Hs]. apply andb_true_iff in Ha as [Ha Hn].
  rewrite Hn, (IH Hs), !andb_true_r.
  apply negb_true_iff, bool_decide_eq_false. intros ->. done.
Qed.

Lemma all_word_inner s : all_word s = true → inner s = true.
Proof.
  induction s as [|a s IH]; [done|]. cbn [all_word inner]. intros Hs.
  apply andb_true_iff in Hs as [Ha Hs]. destruct (is_word_not_special _ Ha) as [Hc Hn].
  by rewrite (bool_decide_eq_false_2 _ Hc), (bool_decide_eq_false_2 _ Hn), (IH Hs).
Qed.

(** The lazy match of a variable tag stops at the first closing pair. *)
Lemma tag_contents_inner s rest :
  inner s = true → tag_contents "}" "}" (s +:+ "}}" +:+ rest) = Some s.
Proof.
  induction s as [|a s IH]; [done|]. cbn [inner]. intros Hs.
  apply andb_true_iff in Hs as [Ha Hs]. apply andb_true_iff in Ha as [Hc Hn].
  apply negb_true_iff, bool_decide_eq_false in Hc.
  apply negb_true_iff, bool_decide_eq_false in Hn. specialize (IH Hs).
  rewrite append_cons. cbn [tag_contents].
  destruct (s +:+ "}}" +:+ rest) as [|b t] eqn:Heq; [by destruct s|].
  rewrite (bool_decide_eq_false_2 _ Hc), (bool_decide_eq_false_2 _ Hn). cbn [andb].
  by rewrite IH.
Qed.

Lemma first_char_append s rest :
  first_char (s +:+ rest) = first_char (s +:+ first_char rest).
Proof. destruct s; [by destruct rest|done]. Qed.

(** A character at which no tag opens goes to the text read so far. *)
Lemma lex_no_open a s lineno text :
  no_tag_open (String a (first_char s)) = true →
  lex 0 lineno text (String a s)
  = lex 0 (if bool_decide (a = "010"%char) then S lineno else lineno)
      (text +:+ String a EmptyString) s.
Proof.
  destruct s as [|b s]; [done|]. cbn [first_char no_tag_open lex].
  rewrite andb_true_r. unfold opens. intros Ho. apply negb_true_iff in Ho. by rewrite Ho.
Qed.

Lemma no_tag_open_cons a u :
  no_tag_open (String a u) = true →
  no_tag_open (String a (first_char u)) = true ∧ no_tag_open u = true.
Proof.
  destruct u as [|b u]; [done|]. cbn [no_tag_open first_char].
  intros Ho. apply andb_true_iff in Ho as [-> Ho]. done.
Qed.

(** Text in which no tag opens goes to the text read so far. *)
Lemma lex_chars s : ∀ rest lineno text,
  no_tag_open (s +:+ first_char rest) = true →
  ∃ lineno', lex 0 lineno text (s +:+ rest) = lex 0 lineno' (text +:+ s) rest.
Proof.
  induction s as [|a s IH]; intros rest lineno text Hs.
  - exists lineno. by rewrite append_nil_r.
  - rewrite append_cons in Hs. apply no_tag_open_cons in Hs as [Ha Hs].
    rewrite <- first_char_append in Ha.
    rewrite append_cons, (lex_no_open _ _ _ _ Ha).
    destruct (IH rest (if bool_decide (a = "010"%char) then S lineno else lineno)
                (text +:+ String a EmptyString) Hs) as [l Hl].
    exists l. by rewrite Hl, append_assoc.
Qed.

(** A variable tag gives the text read so far and the name of the tag. *)
Lemma lex_tag before name after rest lineno text :
  blank before = true → plain_name name = true → blank after = true →
  lex 0 lineno text ("{{" +:+ before +:+ name +:+ after +:+ "}}" +:+ rest)
  = text_token text ++ VAR name lineno :: lex 0 lineno EmptyString rest.
Proof.
  intros Hb Hn Ha.
  set (contents := before +:+ name +:+ after).
  assert (inner contents = true) as Hi.
  { unfold contents. apply inner_append; [by apply blank_inner|].
    apply inner_append; [|by apply blank_inner].
    apply all_word_inner. by apply plain_name_all_word. }
  assert ("{{" +:+ before +:+ name +:+ after +:+ "}}" +:+ rest
          = String "{" (String "{" (contents +:+ "}}" +:+ rest))) as ->.
  { unfold contents. by rewrite !append_assoc. }
  cbn [lex]. rewrite !bool_decide_eq_true_2 by done. cbn [andb orb].
  change (closing "{") with "}"%char.
  rewrite (tag_contents_inner _ _ Hi).
  f_equal. f_equal.
  - unfold tag_token. rewrite bool_decide_eq_true_2 by done.
    unfold contents. by rewrite strip_padded.
  - replace (String.length contents + 3)%nat with (String.length ("{" +:+ contents +:+ "}}")).
    + change (String "{" (contents +:+ "}}" +:+ rest)) with ("{" +:+ contents +:+ "}}" +:+ rest).
      rewrite <- (append_assoc contents), <- (append_assoc "{"). apply lex_skip.
    + rewrite !length_append. cbn. lia.
Qed.

End Spans.

Section Compile.

Lemma parse_text_token text tokens :
  parse (text_token text ++ tokens)
  = match parse tokens with
    | Nodes ns => Nodes (if bool_decide (text = EmptyString) then ns else TextNode text :: ns)
    | o => o
    end.
Proof.
  unfold text_token. case_bool_decide; cbn; by destruct (parse tokens).
Qed.

Lemma render_nodes_text text ns variables :
  render_nodes (if bool_decide (text = EmptyString) then ns else TextNode text :: ns) variables
  = text +:+ render_nodes ns variables.
Proof. case_bool_decide as Ht; [by rewrite Ht|done]. Qed.

End Compile.

Section Output.

Lemma no_brace_append s t :
  no_brace s = true → no_brace t = true → no_brace (s +:+ t) = true.
Proof.
  induction s as [|a s IH]; [done|]. rewrite append_cons. cbn.
  intros Hs Ht. apply andb_true_iff in Hs as [-> Hs]. by apply IH.
Qed.

Lemma no_brace_escape s : no_brace s = true → no_brace (escape s) = true.
Proof.
  induction s as [|a s IH]; [done|]. cbn [no_brace escape].
  intros Hs. apply andb_true_iff in Hs as [Ha Hs].
  apply no_brace_append; [|by apply IH].
  repeat (case_match; [done|]). cbn. by rewrite Ha.
Qed.

End Output.

Section CompileSpans.

Lemma substitute_resolve variables name :
  escape (default string_if_invalid (resolve variables name)) = substitute variables name.
Proof.
  unfold resolve, substitute. destruct (variables !! name) as [v|]; [done|].
  unfold builtin_names, builtins. case_bool_decide as Hb.
  - rewrite !elem_of_cons in Hb. destruct Hb as [->|[->|[->|Hb]]]; [done..|inversion Hb].
  - rewrite !not_elem_of_cons in Hb. destruct Hb as (H1 & H2 & H3 & _).
    rewrite lookup_insert_ne, lookup_insert_ne, lookup_singleton_ne by done. done.
Qed.

(** A template written as spans compiles, and renders to its spans with
    each tag replaced by its substitute, after the text already read. *)
Lemma parse_lex_template ps :
  spans_ok ps = true →
  ∀ lineno text, ∃ ns,
    parse (lex 0 lineno text (template_of ps)) = Nodes ns
    ∧ ∀ variables, render_nodes ns variables = text +:+ substituted variables ps.
Proof.
  induction ps as [|p ps IH]; intros Hok lineno text.
  - cbn [template_of lex]. exists (if bool_decide (text = EmptyString) then [] else [TextNode text]).
    split.
    + rewrite <- (app_nil_r (text_token text)). by rewrite parse_text_token.
    + intros variables. rewrite render_nodes_text. done.
  - destruct p as [s|before name after]; cbn [template_of substituted spans_ok] in *.
    + apply andb_true_iff in Hok as [Hs Hok]. specialize (IH Hok).
      destruct (lex_chars s (template_of ps) lineno text Hs) as [l ->].
      destruct (IH l (text +:+ s)) as (ns & Hns & Hr).
      exists ns. split; [done|]. intros variables. by rewrite Hr, append_assoc.
    + apply andb_true_iff in Hok as [Hp Hok]. apply andb_true_iff in Hp as [Hp Ha].
      apply andb_true_iff in Hp as [Hb Hn]. specialize (IH Hok).
      rewrite (lex_tag _ _ _ _ _ _ Hb Hn Ha), parse_text_token.
      destruct (IH lineno EmptyString) as (ns & Hns & Hr).
      cbn [parse]. destruct (plain_name_all_word _ Hn) as [_ Hne].
      rewrite (bool_decide_eq_false_2 _ Hne), Hn, Hns. cbn [extend_nodelist].
      eexists. split; [done|]. intros variables.
      rewrite render_nodes_text. f_equal. cbn [render_nodes foldr render_node].
      fold (render_nodes ns variables). rewrite Hr. by rewrite substitute_resolve.
Qed.

Lemma compile_template ps :
  spans_ok ps = true →
  ∃ ns, compile (template_of ps) = Nodes ns
        ∧ ∀ variables, render_nodes ns variables = substituted variables ps.
Proof. intros Hok. apply (parse_lex_template ps Hok 1%nat EmptyString). Qed.

End CompileSpans.

Section Substituted.

Lemma substitute_unresolved variables name :
  unresolved variables name → substitute variables name = EmptyString.
Proof.
  intros [Hv Hb]. unfold substitute. rewrite Hv. by rewrite bool_decide_eq_false_2.
Qed.

Lemma substituted_drop_unresolved variables ps :
  substituted variables ps
  = substituted variables (filter (λ p, tag_unresolved variables p = false) ps).
Proof.
  induction ps as [|p ps IH]; [done|].
  rewrite filter_cons. destruct p as [s|before name after]; cbn [tag_unresolved].
  - rewrite decide_True by done. cbn [substituted]. by rewrite IH.
  - case_bool_decide as Hu.
    + rewrite decide_False by done. cbn [substituted].
      by rewrite (substitute_unresolved _ _ Hu).
    + rewrite decide_True by done. cbn [substituted]. by rewrite <- IH.
Qed.

Lemma substituted_texts variables ps :
  (∀ before name after, Tag before name after ∈ ps → unresolved variables name) →
  substituted variables ps = texts ps.
Proof.
  induction ps as [|p ps IH]; intros Hall; [done|].
  destruct p as [s|before name after]; cbn [substituted texts].
  - rewrite IH; [done|]. intros b n a Hin. apply (Hall b n a). by right.
  - rewrite (substitute_unresolved variables name) by (apply (Hall before name after); left).
    rewrite IH; [done|]. intros b n a Hin. apply (Hall b n a). by right.
Qed.

Lemma no_brace_no_tag_open w v :
  no_brace w = true → no_tag_open v = true → no_tag_open (w +:+ v) = true.
Proof.
  induction w as [|a w IH]; [done|]. cbn [no_brace]. intros Hw Hv.
  apply andb_true_iff in Hw as [Ha Hw]. specialize (IH Hw Hv).
  rewrite append_cons. cbn [no_tag_open].
  destruct (w +:+ v) as [|b u]; [done|]. rewrite IH, andb_true_r.
  unfold opens. apply negb_true_iff in Ha. by rewrite Ha.
Qed.

Lemma no_tag_open_first s v :
  no_tag_open (s +:+ first_char v) = true → no_tag_open v = true →
  no_tag_open (s +:+ v) = true.
Proof.
  induction s as [|a s IH]; [done|]. rewrite !append_cons. intros Hs Hv.
  apply no_tag_open_cons in Hs as [Ha Hs]. specialize (IH Hs Hv).
  rewrite <- first_char_append in Ha.
  cbn [no_tag_open]. destruct (s +:+ v) as [|b u]; [done|].
  rewrite IH, andb_true_r. cbn [first_char no_tag_open] in Ha. by rewrite andb_true_r in Ha.
Qed.

Lemma no_tag_open_brace s v :
  no_tag_open (s +:+ "{") = true → no_tag_open v = true → no_tag_open (s +:+ v) = true.
Proof.
  induction s as [|a s IH]; [done|]. rewrite !append_cons. intros Hs Hv.
  apply no_tag_open_cons in Hs as [Ha Hs]. specialize (IH Hs Hv).
  cbn [no_tag_open]. destruct (s +:+ v) as [|b u] eqn:Hsv; [done|].
  rewrite IH, andb_true_r.
  destruct s as [|c s].
  - cbn in Ha. unfold opens in *. cbn [append] in Ha.
    destruct (bool_decide (a = "{"%char)); [done|done].
  - rewrite append_cons in Hsv. simplify_eq. rewrite append_cons in Ha.
    cbn [first_char no_tag_open] in Ha. by rewrite andb_true_r in Ha.
Qed.

Lemma substitute_no_brace variables name :
  (∀ n w, variables !! n = Some w → no_brace w = true) →
  no_brace (substitute variables name) = true.
Proof.
  intros Hv. unfold substitute. destruct (variables !! name) as [w|] eqn:Hw.
  - apply no_brace_escape. by eapply Hv.
  - unfold builtin_names. case_bool_decide as Hb; [|done].
    rewrite !elem_of_cons in Hb. destruct Hb as [->|[->|[->|Hb]]]; [done..|inversion Hb].
Qed.

(** Where the template starts with a brace or as its rendering does. *)
Lemma first_char_substituted variables ps :
  first_char (template_of ps) = "{"
  ∨ first_char (template_of ps) = first_char (substituted variables ps).
Proof.
  induction ps as [|p ps IH]; [by right|].
  destruct p as [s|before name after]; cbn [template_of substituted].
  - destruct s as [|a s]; [done|]. by right.
  - by left.
Qed.

(** No tag opens in the rendering when the values have no opening brace. *)
Lemma substituted_no_tag_open variables ps :
  spans_ok ps = true →
  (∀ n w, variables !! n = Some w → no_brace w = true) →
  no_tag_open (substituted variables ps) = true.
Proof.
  intros Hok Hv. induction ps as [|p ps IH]; [done|].
  destruct p as [s|before name after]; cbn [spans_ok substituted] in *.
  - apply andb_true_iff in Hok as [Hs Hok]. specialize (IH Hok).
    destruct (first_char_substituted variables ps) as [Hf|Hf]; rewrite Hf in Hs.
    + by apply no_tag_open_brace.
    + by apply no_tag_open_first.
  - apply andb_true_iff in Hok as [_ Hok]. specialize (IH Hok).
    apply no_brace_no_tag_open; [|done]. by apply substitute_no_brace.
Qed.

End Substituted.

Section Fragment.

Lemma post_fragment outside d db template ns :
  ¬ falsy (get (q_code d)) →
  active_latest (get (q_code d)) (get_default (q_language d) "en") db = Some template →
  compile (content template) = Nodes ns →
  post (E := django outside) d db =
    {| status_code := status.HTTP_200_OK;
       body := _envelope_response true
                 (DataRendered {| r_code := code template;
                                  r_subject := subject template;
                                  r_content := render_nodes ns (default ∅ (q_variables d));
                                  r_version := version template;
                                  r_language := language template |})
                 "Template rendered successfully" None None |}.
Proof.
  intros Hf Ha Hc. unfold post. rewrite bool_decide_eq_false_2 by done.
  rewrite Ha. cbn [DjangoTemplate render django]. by rewrite Hc.
Qed.

End Fragment.

(** * The claims *)

(** C1. A create assigns version 1 when the group of its (code, language)
    has no row, and the greatest version of the group plus one otherwise, and
    the row is stored with that version.  Hence N successful creates for one
    (code, language), from a table without rows of the group, are assigned
    the versions 1, 2, ..., N in the order of the requests. *)
Theorem create_assigns_next_version (E : Engine) :
  (∀ outage d uuid now db db' r t,
     create outage d uuid now db = (db', r) → created r = Some t →
     t ∈ db'
     ∧ (group (code t) (language t) db = [] → version t = 1)
     ∧ (group (code t) (language t) db ≠ [] →
        ∃ latest, latest ∈ group (code t) (language t) db
                  ∧ Forall (λ u, version u ≤ version latest) (group (code t) (language t) db)
                  ∧ version t = version latest + 1))
  ∧ (∀ calls c l db db' rs,
       group c l db = [] →
       creates calls db = (db', rs) →
       Forall (λ r, created_in r = Some (c, l)) rs →
       version <$> omap created rs = seqZ 1 (Z.of_nat (length calls))).
Proof.
  split.
  - intros outage d uuid now db db' r t Hc Hr.
    destruct (created_row _ _ _ _ _ _ _ _ Hc Hr) as (vd & Hv & Hcode & Hlang & Ht & Hok & ->).
    assert (version t = next_version (Some (code t)) (language t) db) as Hvt
      by (rewrite Ht at 1; done).
    split_and!.
    + rewrite Ht, <- Hcode, <- Hlang. apply created_row_stored.
    + intros Hg. rewrite Hvt. by apply next_version_empty.
    + intros Hg. rewrite Hvt. by apply next_version_max.
  - intros calls c l db db' rs Hg Hcs Hall.
    rewrite (creates_versions_from _ _ _ _ _ _ Hcs Hall).
    by rewrite (next_version_empty _ _ _ Hg).
Qed.

(** The second create for ("welcome", "en") gets version 2 and is stored;
    three creates from the empty table get the versions 1, 2, 3. *)
Lemma create_assigns_next_version_witness :
  (create (E := engine) None second 2%N 1 one_version = (two_versions, second_response)
   ∧ created second_response = Some second_row
   ∧ second_row ∈ two_versions
   ∧ version second_row = 2)
  ∧ (group "welcome" "en" [] = []
     ∧ Forall (λ r, created_in r = Some ("welcome", "en"))
         (snd (creates (E := engine) three_calls []))
     ∧ version <$> omap created (snd (creates (E := engine) three_calls [])) = [1; 2; 3]).
Proof.
  assert (Hc : create (E := engine) None second 2%N 1 one_version
               = (two_versions, second_response)) by (vm_compute; reflexivity).
  assert (Hr : created second_response = Some second_row) by (vm_compute; reflexivity).
  assert (Hall : Forall (λ r, created_in r = Some ("welcome", "en"))
                   (snd (creates (E := engine) three_calls [])))
    by (vm_compute; repeat constructor).
  split.
  - split; [exact Hc|]. split; [exact Hr|].
    split; [|reflexivity].
    exact (proj1 (proj1 (create_assigns_next_version engine) None second 2%N 1 one_version
                    two_versions second_response second_row Hc Hr)).
  - split; [reflexivity|]. split; [exact Hall|].
    exact (proj2 (create_assigns_next_version engine) three_calls "welcome" "en" []
             (fst (creates (E := engine) three_calls []))
             (snd (creates (E := engine) three_calls []))
             eq_refl (surjective_pairing _) Hall).
Defined.

(** C2, as the code has it.  After a successful create the group of the
    created row has exactly one active row, the created one, and no row of
    the group has a greater version; and on every table that create requests
    leave, from the empty one and each on a database that stays up, no group
    has more than one active row.  It does not hold at all times: between
    the two statements of a create the committed table holds the inserted
    row, active, beside every row of the group that was active, and that
    table is the one that stays when the database fails at the second
    statement. *)
Theorem create_single_active (E : Engine) :
  (∀ outage d uuid now db db' r t,
     create outage d uuid now db = (db', r) → created r = Some t →
     active (code t) (language t) db' = [t]
     ∧ Forall (λ u, version u ≤ version t) (group (code t) (language t) db'))
  ∧ (∀ calls db' rs c l,
       Forall (λ call, cc_outage call = None) calls →
       creates calls [] = (db', rs) →
       (length (active c l db') ≤ 1)%nat)
  ∧ (∀ d vd uuid now db,
       is_valid false d = inr vd →
       let t := instance_of vd uuid now
                  (next_version (v_code vd) (default "en" (v_language vd)) db) in
       constraints_ok (db ++ [t]) = true →
       head (committed (perform_create_stmts vd uuid now db) db) = Some (db ++ [t])
       ∧ create (Some 1%nat) d uuid now db = (db ++ [t], server_error OperationalError)
       ∧ active (code t) (language t) (db ++ [t]) = active (code t) (language t) db ++ [t]).
Proof.
  split_and!.
  - intros outage d uuid now db db' r t Hc Hr.
    destruct (single_active_after_create _ _ _ _ _ _ _ _ Hc Hr) as (? & ? & _). done.
  - intros calls db' rs c l Hup Hcs.
    apply (creates_up_single_active calls [] db' rs Hup); [|done].
    intros ??. cbn. lia.
  - intros d vd uuid now db Hv t Hok. split_and!.
    + unfold perform_create_stmts. cbn [committed]. fold t.
      by rewrite (exec_INSERT _ _ Hok).
    + unfold create, perform_create, perform_create_stmts. rewrite Hv. cbn [run]. fold t.
      by rewrite (exec_INSERT _ _ Hok).
    + apply active_after_insert. destruct (is_valid_create_code _ _ Hv) as [c ->]. done.
Qed.

(** After the second create for ("welcome", "en") the group has one active
    row, version 2; after three creates it has at most one; between the
    two statements of the second create it has two. *)
Lemma create_single_active_witness :
  (create (E := engine) None second 2%N 1 one_version = (two_versions, second_response)
   ∧ created second_response = Some second_row
   ∧ active "welcome" "en" two_versions = [second_row]
   ∧ Forall (λ u, version u ≤ 2) (group "welcome" "en" two_versions))
  ∧ (Forall (λ call, cc_outage call = None) three_calls
     ∧ (length (active "welcome" "en" (fst (creates (E := engine) three_calls []))) ≤ 1)%nat)
  ∧ (is_valid (E := engine) false second = inr second_valid
     ∧ constraints_ok (one_version ++ [instance_of second_valid 2%N 1 2]) = true
     ∧ head (committed (perform_create_stmts second_valid 2%N 1 one_version) one_version)
       = Some (one_version ++ [instance_of second_valid 2%N 1 2])
     ∧ active "welcome" "en" (one_version ++ [instance_of second_valid 2%N 1 2])
       = active "welcome" "en" one_version ++ [instance_of second_valid 2%N 1 2]).
Proof.
  assert (Hc : create (E := engine) None second 2%N 1 one_version
               = (two_versions, second_response)) by (vm_compute; reflexivity).
  assert (Hr : created second_response = Some second_row) by (vm_compute; reflexivity).
  assert (Hup : Forall (λ call, cc_outage call = None) three_calls)
    by (repeat constructor).
  assert (Hv : is_valid (E := engine) false second = inr second_valid)
    by (vm_compute; reflexivity).
  assert (Hok : constraints_ok (one_version ++ [instance_of second_valid 2%N 1 2]) = true)
    by (vm_compute; reflexivity).
  split; [|split].
  - split; [exact Hc|]. split; [exact Hr|].
    exact (proj1 (create_single_active engine) None second 2%N 1 one_version
             two_versions second_response second_row Hc Hr).
  - split; [exact Hup|].
    exact (proj1 (proj2 (create_single_active engine)) three_calls
             (fst (creates (E := engine) three_calls []))
             (snd (creates (E := engine) three_calls []))
             "welcome" "en" Hup (surjective_pairing _)).
  - split; [exact Hv|]. split; [exact Hok|].
    pose proof (proj2 (proj2 (create_single_active engine)) second second_valid 2%N 1
                  one_version Hv Hok) as (Hh & _ & Ha).
    split; [exact Hh|exact Ha].
Defined.

(** C2 fails on the code: during the second create for ("welcome", "en"),
    on a database that stays up and with the answer 201, the first table
    committed holds version 2 beside the still active version 1: the group
    has two active rows until the second statement completes. *)
Lemma single_active_at_all_times_counterexample :
  let v1 := row 1%N "welcome" "en" (Some "Welcome {{name}}!")
              "Hello {{name}}, welcome to {{company}}!" 1 true in
  one_version = [v1]
  ∧ create (E := engine) None second 2%N 1 one_version = (two_versions, second_response)
  ∧ status_code second_response = 201
  ∧ committed (perform_create_stmts second_valid 2%N 1 one_version) one_version
    = [[v1; second_row]; two_versions]
  ∧ active "welcome" "en" [v1; second_row] = [v1; second_row]
  ∧ length (active "welcome" "en" [v1; second_row]) = 2%nat.
Proof. vm_compute. split_and!; reflexivity. Qed.

(** C3, as the code has it.  The two statements of a create, the insert of
    the new active row and the deactivation of the other rows of the group,
    are committed one after the other, with no transaction around them: if
    the insert fails the table is unchanged; if the deactivation fails (the
    database goes down at the second statement) the create fails and the
    inserted row stays, with no other row deactivated; between the two
    statements of a create that goes through, the committed table is that
    same table; when both complete, the table is the one with the other
    rows of the group deactivated. *)
Theorem create_commits_statement_by_statement (E : Engine) d vd uuid now db :
  is_valid false d = inr vd →
  let t := instance_of vd uuid now (next_version (v_code vd) (default "en" (v_language vd)) db) in
  (constraints_ok (db ++ [t]) = false →
     ∀ outage, ∃ e, create outage d uuid now db = (db, server_error e))
  ∧ (constraints_ok (db ++ [t]) = true →
       committed (perform_create_stmts vd uuid now db) db
       = [db ++ [t]; after_create vd uuid now db]
       ∧ create (Some 0%nat) d uuid now db = (db, server_error OperationalError)
       ∧ create (Some 1%nat) d uuid now db = (db ++ [t], server_error OperationalError)
       ∧ ∀ outage, outage ≠ Some 0%nat → outage ≠ Some 1%nat →
           ∃ r, create outage d uuid now db = (after_create vd uuid now db, r)
                ∧ created r = Some t).
Proof.
  intros Hv t. split.
  - intros Hok outage. unfold create, perform_create, perform_create_stmts.
    rewrite Hv. fold t.
    assert (exec (INSERT t) db = inl IntegrityError) as Hx by (unfold exec; by rewrite Hok).
    destruct outage as [[|k]|]; cbn [run]; rewrite ?Hx; eauto.
  - intros Hok.
    assert (exec (deactivate_older (v_code vd) (default "en" (v_language vd))
                    (next_version (v_code vd) (default "en" (v_language vd)) db)) (db ++ [t])
            = inr (after_create vd uuid now db)) as Hup.
    { unfold deactivate_older, after_create. fold t. apply exec_deactivate.
      unfold apply_update. by rewrite constraints_ok_fmap by apply set_is_active_keeps_keys. }
    split_and!.
    + unfold perform_create_stmts. cbn [committed]. fold t.
      rewrite (exec_INSERT _ _ Hok). by rewrite Hup.
    + unfold create. by rewrite Hv.
    + unfold create, perform_create, perform_create_stmts. rewrite Hv. cbn [run]. fold t.
      by rewrite (exec_INSERT _ _ Hok).
    + intros outage H0 H1. unfold create, perform_create, perform_create_stmts.
      rewrite Hv. cbn [run]. fold t. rewrite (exec_INSERT _ _ Hok).
      destruct outage as [[|[|k]]|]; try done; cbn [fmap option_fmap option_map pred];
        rewrite Hup; eexists; (split; [done|]); unfold created; cbn;
        by rewrite bool_decide_eq_true_2.
Qed.

(** The second create for ("welcome", "en"), on a database that goes down at
    the second statement. *)
Lemma create_commits_statement_by_statement_witness :
  is_valid (E := engine) false second = inr second_valid
  ∧ constraints_ok (one_version ++ [instance_of second_valid 2%N 1 2]) = true
  ∧ create (E := engine) (Some 1%nat) second 2%N 1 one_version
    = (one_version ++ [instance_of second_valid 2%N 1 2], server_error OperationalError).
Proof.
  assert (Hv : is_valid (E := engine) false second = inr second_valid) by (vm_compute; reflexivity).
  assert (Hok : constraints_ok (one_version ++ [instance_of second_valid 2%N 1 2]) = true)
    by (vm_compute; reflexivity).
  split; [exact Hv|]. split; [exact Hok|].
  exact (proj1 (proj2 (proj2 (proj2 (create_commits_statement_by_statement
           engine second second_valid 2%N 1 one_version Hv) Hok)))).
Defined.

(** C3 fails on the code: a create whose second statement fails answers 500
    and leaves the inserted version 2 beside the still active version 1, so
    the table is changed and the group has two active rows; the same table
    is the committed one between the two statements of a create that goes
    through. *)
Lemma create_rolls_back_counterexample :
  let v1 := row 1%N "welcome" "en" (Some "Welcome {{name}}!")
              "Hello {{name}}, welcome to {{company}}!" 1 true in
  one_version = [v1]
  ∧ create (E := engine) (Some 1%nat) second 2%N 1 one_version
    = ([v1; second_row], server_error OperationalError)
  ∧ status_code (server_error OperationalError) = 500
  ∧ [v1; second_row] ≠ one_version
  ∧ active "welcome" "en" [v1; second_row] = [v1; second_row]
  ∧ head (committed (perform_create_stmts second_valid 2%N 1 one_version) one_version)
    = Some [v1; second_row].
Proof. vm_compute. split_and!; try reflexivity. intros Heq. discriminate Heq. Qed.

(** C4, as the code has it.  For every successful render request the
    template's content is passed through the placeholder renderer with the
    supplied variables, and the response returns the rendered content,
    the subject as it is stored (not rendered), and the code, version and
    language of the row that served the request. *)
Theorem render_returns_rendered_content (E : Engine) d db :
  status_code (post d db) = status.HTTP_200_OK →
  ∃ template rendered_content,
    active_latest (get (q_code d)) (get_default (q_language d) "en") db = Some template
    ∧ rendering (content template) (default ∅ (q_variables d)) = inr rendered_content
    ∧ post d db =
        {| status_code := status.HTTP_200_OK;
           body := _envelope_response true
                     (DataRendered {| r_code := code template;
                                      r_subject := subject template;
                                      r_content := rendered_content;
                                      r_version := version template;
                                      r_language := language template |})
                     "Template rendered successfully" None None |}.
Proof.
  intros Hs. destruct (post_200 d db Hs) as (template & t & out & _ & Ha & Ht & Hr & Hp).
  exists template, out. split_and!; [done| |done].
  unfold rendering. by rewrite Ht.
Qed.

(** A render of "welcome" with name and company. *)
Lemma render_returns_rendered_content_witness :
  status_code (post (E := engine) alice one_version) = status.HTTP_200_OK
  ∧ ∃ template rendered_content,
      active_latest (get (q_code alice)) (get_default (q_language alice) "en") one_version
      = Some template
      ∧ rendering (E := engine) (content template) (default ∅ (q_variables alice))
        = inr rendered_content
      ∧ post (E := engine) alice one_version =
          {| status_code := status.HTTP_200_OK;
             body := _envelope_response true
                       (DataRendered {| r_code := code template;
                                        r_subject := subject template;
                                        r_content := rendered_content;
                                        r_version := version template;
                                        r_language := language template |})
                       "Template rendered successfully" None None |}.
Proof.
  assert (Hs : status_code (post (E := engine) alice one_version) = status.HTTP_200_OK)
    by (vm_compute; reflexivity).
  split; [exact Hs|].
  exact (render_returns_rendered_content engine alice one_version Hs).
Defined.

(** C4 fails on the code: the subject of the response is the stored one,
    with its placeholder, while the renderer makes "Welcome Alice!" of it. *)
Lemma render_subject_counterexample :
  post (E := engine) alice one_version =
    {| status_code := 200;
       body := _envelope_response true
                 (DataRendered {| r_code := "welcome";
                                  r_subject := Some "Welcome {{name}}!";
                                  r_content := "Hello Alice, welcome to ACME!";
                                  r_version := 1;
                                  r_language := "en" |})
                 "Template rendered successfully" None None |}
  ∧ rendering (E := engine) "Welcome {{name}}!" (default ∅ (q_variables alice))
    = inr "Welcome Alice!".
Proof. vm_compute. split; reflexivity. Qed.

(** C5, as the code has it.  At create time the content is validated
    against the placeholder syntax of the renderer, and content of invalid
    syntax is rejected with a ValidationError (HTTP 400) before any mutation:
    the table of a request answered 400 is unchanged.  The subject is not
    validated against the syntax: when a create without subject is answered
    201, the same create with a subject that has at most 255 characters once
    trimmed and no NUL character is answered 201 as well, and its row is
    stored with the trimmed subject, whatever the subject holds; a subject
    that is longer, or has a NUL character, is rejected with 400 by the
    field's own checks. *)
Theorem create_validates_content_only (E : Engine) :
  (∀ outage d uuid now db s e,
     d_content d = Str s → DjangoTemplate (strip s) = inl e →
     ∃ errs, create outage d uuid now db = (db, bad_request errs))
  ∧ (∀ outage d uuid now db db' r,
       create outage d uuid now db = (db', r) →
       status_code r = status.HTTP_400_BAD_REQUEST → db' = db)
  ∧ (∀ outage d s uuid now db db' r t,
       (String.length (strip s) ≤ 255)%nat → has_null_character (strip s) = false →
       create outage (with_subject Absent d) uuid now db = (db', r) →
       created r = Some t →
       ∃ db'' r', create outage (with_subject (Str s) d) uuid now db = (db'', r')
                  ∧ created r' = Some (set_subject (Some (strip s)) t)
                  ∧ set_subject (Some (strip s)) t ∈ db'')
  ∧ (∀ outage d s uuid now db,
       d_subject d = Str s →
       (255 < String.length (strip s))%nat ∨ has_null_character (strip s) = true →
       ∃ errs, create outage d uuid now db = (db, bad_request errs))
  ∧ (∀ partial d s vd,
       (String.length (strip s) ≤ 255)%nat → has_null_character (strip s) = false →
       is_valid partial (with_subject Absent d) = inr vd →
       is_valid partial (with_subject (Str s) d)
       = inr (set_v_subject (Some (Some (strip s))) vd)).
Proof.
  split_and!.
  - intros outage d uuid now db s e Hd He.
    destruct (content_rejected false d s e Hd He) as [errs Herr].
    exists errs. unfold create. by rewrite Herr.
  - intros. by eapply create_400.
  - intros. by eapply create_with_subject.
  - intros outage d s uuid now db Hd Hbad.
    destruct (subject_too_long_or_null false s Hbad) as (msg & msgs & Hs).
    rewrite <- Hd in Hs. destruct (subject_refused false d msg msgs Hs) as [errs Herr].
    exists errs. unfold create. by rewrite Herr.
  - intros. by apply subject_unchecked.
Qed.

(** A create whose content is an empty variable tag; a create whose subject
    is one. *)
Lemma create_validates_content_only_witness :
  (d_content (welcome "{{ }}" Absent) = Str "{{ }}"
   ∧ DjangoTemplate (Engine := engine) (strip "{{ }}")
     = inl {| str := "Empty variable tag on line 1" |}
   ∧ ∃ errs, create (E := engine) None (welcome "{{ }}" Absent) 2%N 1 one_version
             = (one_version, bad_request errs))
  ∧ ((String.length (strip "{{ }}") ≤ 255)%nat
     ∧ has_null_character (strip "{{ }}") = false
     ∧ create (E := engine) None (with_subject Absent second) 2%N 1 one_version
       = (two_versions, second_response)
     ∧ created second_response = Some second_row
     ∧ ∃ db'' r', create (E := engine) None (with_subject (Str "{{ }}") second) 2%N 1
                    one_version = (db'', r')
                  ∧ created r' = Some (set_subject (Some (strip "{{ }}")) second_row)
                  ∧ set_subject (Some (strip "{{ }}")) second_row ∈ db'').
Proof.
  assert (Hd : d_content (welcome "{{ }}" Absent) = Str "{{ }}") by reflexivity.
  assert (He : DjangoTemplate (Engine := engine) (strip "{{ }}")
               = inl {| str := "Empty variable tag on line 1" |}) by (vm_compute; reflexivity).
  assert (Hlen : (String.length (strip "{{ }}") ≤ 255)%nat) by (vm_compute; lia).
  assert (Hnul : has_null_character (strip "{{ }}") = false) by (vm_compute; reflexivity).
  assert (Hc : create (E := engine) None (with_subject Absent second) 2%N 1 one_version
               = (two_versions, second_response)) by (vm_compute; reflexivity).
  assert (Hr : created second_response = Some second_row) by (vm_compute; reflexivity).
  split.
  - split; [exact Hd|]. split; [exact He|].
    exact (proj1 (create_validates_content_only engine) None (welcome "{{ }}" Absent) 2%N 1
             one_version "{{ }}" _ Hd He).
  - split; [exact Hlen|]. split; [exact Hnul|]. split; [exact Hc|]. split; [exact Hr|].
    exact (proj1 (proj2 (proj2 (create_validates_content_only engine))) None second "{{ }}"
             2%N 1 one_version two_versions second_response second_row Hlen Hnul Hc Hr).
Defined.

(** C5 fails on the code: a subject that the engine refuses (an empty
    variable tag) is accepted, answered 201 and stored. *)
Lemma create_invalid_subject_counterexample :
  let v1 := row 1%N "welcome" "en" (Some "Welcome {{name}}!")
              "Hello {{name}}, welcome to {{company}}!" 1 false in
  let v2 := {| id := 2%N; code := "welcome"; name := "Welcome"; language := "en";
               subject := Some "{{ }}"; content := "Hi"; version := 2;
               is_active := true; created_at := 1; updated_at := 1 |} in
  DjangoTemplate (Engine := engine) "{{ }}" = inl {| str := "Empty variable tag on line 1" |}
  ∧ create (E := engine) None (welcome "Hi" (Str "{{ }}")) 2%N 1 one_version
    = ([v1; v2],
       {| status_code := 201;
          body := _envelope_response true (DataTemplate v2) "Template created" None None |}).
Proof. vm_compute. split; reflexivity. Qed.



(** C7. The version list is made of every row of the (code, language)
    group, ordered by version descending, newest first: without a page size
    the response carries the whole list; with a page size each page is a
    slice of it and the pages in order are the whole list; and for a code
    that no row has the response is 200 with an empty list (on the first
    page, the one a request without a page parameter gets). *)
Theorem list_versions_newest_first :
  (∀ code language db,
     get_queryset code language db ≡ₚ group code (default "en" language) db
     ∧ StronglySorted (λ a b, version b ≤ version a) (get_queryset code language db))
  ∧ (∀ PAGE_SIZE code language p db,
       PAGE_SIZE = None ∨ PAGE_SIZE = Some 0%nat →
       list_versions PAGE_SIZE code language p db
       = versions_retrieved (get_queryset code language db))
  ∧ (∀ size code language n db,
       (0 < size)%nat →
       1 ≤ n ≤ Z.of_nat (num_pages (length (get_queryset code language db)) size) →
       list_versions (Some size) code language (PageNumber n) db
       = versions_retrieved
           (take size (drop ((Z.to_nat n - 1) * size) (get_queryset code language db))))
  ∧ (∀ size code language db,
       (0 < size)%nat →
       concat ((λ i, rows_of (list_versions (Some size) code language
                                (PageNumber (Z.of_nat (S i))) db))
                 <$> seq 0 (num_pages (length (get_queryset code language db)) size))
       = get_queryset code language db)
  ∧ (∀ PAGE_SIZE code language p db,
       (∀ t, t ∈ db → models.code t ≠ code) →
       p = NoPage ∨ p = LastPage ∨ p = PageNumber 1 →
       list_versions PAGE_SIZE code language p db = versions_retrieved []).
Proof.
  split_and!.
  - intros. split; [apply get_queryset_perm | apply get_queryset_sorted].
  - apply list_versions_unpaginated.
  - intros. by apply list_versions_page.
  - intros. by apply list_versions_pages.
  - apply list_versions_unknown.
Qed.

(** The two versions of "welcome", newest first, and the empty list of a
    code that no row has. *)
Lemma list_versions_newest_first_witness :
  (get_queryset "welcome" None two_versions = reverse two_versions
   ∧ list_versions None "welcome" None NoPage two_versions
     = versions_retrieved (get_queryset "welcome" None two_versions))
  ∧ ((0 < 1)%nat
     ∧ 1 ≤ 2 ≤ Z.of_nat (num_pages (length (get_queryset "welcome" None two_versions)) 1)
     ∧ list_versions (Some 1%nat) "welcome" None (PageNumber 2) two_versions
       = versions_retrieved
           (take 1 (drop ((Z.to_nat 2 - 1) * 1) (get_queryset "welcome" None two_versions))))
  ∧ ((∀ t, t ∈ two_versions → models.code t ≠ "nonexistent")
     ∧ list_versions (Some 10%nat) "nonexistent" None NoPage two_versions
       = versions_retrieved []).
Proof.
  assert (Hno : ∀ t, t ∈ two_versions → models.code t ≠ "nonexistent").
  { intros t Hin. apply elem_of_cons in Hin as [->|Hin]; [discriminate|].
    apply elem_of_cons in Hin as [->|Hin]; [discriminate|inversion Hin]. }
  assert (Hn : 1 ≤ 2 ≤ Z.of_nat (num_pages (length (get_queryset "welcome" None two_versions)) 1))
    by (vm_compute; split; discriminate).
  split; [split|split; [split; [|split]|split]].
  - vm_compute. reflexivity.
  - exact (proj1 (proj2 list_versions_newest_first) None "welcome" None NoPage two_versions
             (or_introl eq_refl)).
  - lia.
  - exact Hn.
  - exact (proj1 (proj2 (proj2 list_versions_newest_first)) 1%nat "welcome" None 2
             two_versions (Nat.lt_0_1) Hn).
  - exact Hno.
  - exact (proj2 (proj2 (proj2 (proj2 list_versions_newest_first))) (Some 10%nat)
             "nonexistent" None NoPage two_versions Hno (or_introl eq_refl)).
Defined.

(** C8, as the code has it.  A direct PATCH or PUT on a row sets code,
    name, language, subject and content without going through the version
    manager, but never the identifier, the version, is_active or the creation
    time, which are read-only: every row keeps them.  Because code and
    language can be set, there is a pair of direct PATCH requests, on a
    table that creates have left with at most one active row per group,
    after which two rows of one (code, language) pair are active at once. *)
Theorem direct_update_keeps_is_active (E : Engine) :
  (∀ outage partial pk d now db db' r,
     update outage partial pk d now db = (db', r) →
     read_only <$> db' = read_only <$> db)
  ∧ (∀ c l, (length (active c l two_codes) ≤ 1)%nat)
  ∧ (∃ db1 r1 db2 r2 a b,
       update (E := engine) None true 1%N (patch_code "offer") 5 two_codes = (db1, r1)
       ∧ status_code r1 = status.HTTP_200_OK
       ∧ update (E := engine) None true 3%N (patch_code "offer") 6 db1 = (db2, r2)
       ∧ status_code r2 = status.HTTP_200_OK
       ∧ a ≠ b ∧ active "offer" "en" db2 = [a; b]).
Proof.
  split_and!.
  - intros. by eapply update_read_only.
  - intros c l.
    apply (creates_up_single_active (E := engine) two_codes_calls [] two_codes
             (snd (creates (E := engine) two_codes_calls []))).
    + repeat constructor.
    + intros ??. cbn. lia.
    + apply surjective_pairing.
  - eexists _, _, _, _, offer1, offer2.
    split; [apply surjective_pairing|]. split; [vm_compute; reflexivity|].
    split; [apply surjective_pairing|]. split; [vm_compute; reflexivity|].
    split; [discriminate|]. vm_compute. reflexivity.
Qed.

(** A PATCH of is_active on the inactive version 1 of "promo". *)
Lemma direct_update_keeps_is_active_witness :
  update (E := engine) None true 2%N (patch_is_active true) 9 two_codes
  = (promo_patched, promo_patched_response)
  ∧ read_only <$> promo_patched = read_only <$> two_codes.
Proof.
  assert (Hu : update (E := engine) None true 2%N (patch_is_active true) 9 two_codes
               = (promo_patched, promo_patched_response)) by (vm_compute; reflexivity).
  split; [exact Hu|].
  exact (proj1 (direct_update_keeps_is_active engine) None true 2%N (patch_is_active true) 9
           two_codes promo_patched promo_patched_response Hu).
Defined.

(** C8 fails on the code: a PATCH that sets is_active to true on the
    inactive version 1 of "promo" is answered 200 and leaves the row
    inactive. *)
Lemma patch_is_active_counterexample :
  let promo1 := {| id := 2%N; code := "promo"; name := "Welcome"; language := "en";
                   subject := None; content := "Buy"; version := 1; is_active := false;
                   created_at := 0; updated_at := 9 |} in
  get_object 2%N two_codes = Some (row 2%N "promo" "en" None "Buy" 1 false)
  ∧ d_is_active (patch_is_active true) = Some true
  ∧ update (E := engine) None true 2%N (patch_is_active true) 9 two_codes
    = ([row 1%N "welcome" "en" None "Hello {{name}}" 1 true;
        promo1;
        row 3%N "promo" "en" None "Buy {{what}}" 2 true],
       {| status_code := 200;
          body := _envelope_response true (DataTemplate promo1) "Template updated" None None |}).
Proof. vm_compute. split_and!; reflexivity. Qed.

(** C9. For a template written as text in which no tag opens and variable
    tags [{{ name }}], with or without blanks around the name, and whatever
    the variables of the request are, the render succeeds with 200 and its
    content is the text with every tag replaced by the escaped value that
    the variables give for its name, and by the empty string when they give
    none (the names True, False and None, which every context gives, render
    as themselves): leaving the unresolved tags out of the template gives the
    same content; when no name is resolved the content is the text alone; and
    no tag opens in the content when the values have no opening brace. *)
Theorem render_missing_variable_empty outside d db template ps :
  ¬ falsy (get (q_code d)) →
  active_latest (get (q_code d)) (get_default (q_language d) "en") db = Some template →
  content template = template_of ps →
  spans_ok ps = true →
  let variables := default ∅ (q_variables d) in
  post (E := django outside) d db =
    {| status_code := status.HTTP_200_OK;
       body := _envelope_response true
                 (DataRendered {| r_code := code template;
                                  r_subject := subject template;
                                  r_content := substituted variables ps;
                                  r_version := version template;
                                  r_language := language template |})
                 "Template rendered successfully" None None |}
  ∧ substituted variables ps
    = substituted variables (filter (λ p, tag_unresolved variables p = false) ps)
  ∧ ((∀ before name after, Tag before name after ∈ ps → unresolved variables name) →
     substituted variables ps = texts ps)
  ∧ ((∀ n w, variables !! n = Some w → no_brace w = true) →
     no_tag_open (substituted variables ps) = true).
Proof.
  intros Hf Ha Hc Hok variables.
  destruct (compile_template ps Hok) as (ns & Hns & Hr).
  split_and!.
  - rewrite <- Hr. apply post_fragment; [done..|]. by rewrite Hc.
  - apply substituted_drop_unresolved.
  - apply substituted_texts.
  - by apply substituted_no_tag_open.
Qed.

(** A render of "welcome" whose variables give the name and not the
    company, on a template with blanks in a tag and a brace in its text. *)
Lemma render_missing_variable_empty_witness :
  ¬ falsy (get (q_code only_name))
  ∧ active_latest (get (q_code only_name)) (get_default (q_language only_name) "en") padded
    = Some (row 1%N "welcome" "en" None "Hi {{ name }}, {{company}} {sic}" 1 true)
  ∧ "Hi {{ name }}, {{company}} {sic}" = template_of padded_spans
  ∧ spans_ok padded_spans = true
  ∧ unresolved (default ∅ (q_variables only_name)) "company"
  ∧ substituted (default ∅ (q_variables only_name)) padded_spans = "Hi Alice,  {sic}"
  ∧ post (E := engine) only_name padded =
      {| status_code := status.HTTP_200_OK;
         body := _envelope_response true
                   (DataRendered {| r_code := "welcome";
                                    r_subject := None;
                                    r_content := substituted (default ∅ (q_variables only_name))
                                                   padded_spans;
                                    r_version := 1;
                                    r_language := "en" |})
                   "Template rendered successfully" None None |}.
Proof.
  assert (Hf : ¬ falsy (get (q_code only_name))).
  { intros [Hn|Hn]; cbn in Hn; congruence. }
  assert (Ha : active_latest (get (q_code only_name))
                 (get_default (q_language only_name) "en") padded
               = Some (row 1%N "welcome" "en" None "Hi {{ name }}, {{company}} {sic}" 1 true))
    by (vm_compute; reflexivity).
  assert (Hok : spans_ok padded_spans = true) by (vm_compute; reflexivity).
  split; [exact Hf|]. split; [exact Ha|]. split; [reflexivity|]. split; [exact Hok|].
  split; [apply (bool_decide_unpack _); vm_compute; exact I|].
  split; [vm_compute; reflexivity|].
  exact (proj1 (render_missing_variable_empty _ only_name padded _ padded_spans
                  Hf Ha eq_refl Hok)).
Defined.

(** C10. When a group has active rows, however many, the render resolves
    to an active row of the group whose version no other active row of the
    group exceeds, and answers from that row; the row does not depend on the
    order in which the table holds its rows. *)
Theorem render_resolves_greatest_active (E : Engine) :
  (∀ c l db a,
     a ∈ db → in_group c l a → is_active a = true →
     ∃ t, active_latest c l db = Some t
          ∧ t ∈ db ∧ in_group c l t ∧ is_active t = true
          ∧ ∀ u, u ∈ db → in_group c l u → is_active u = true → version u ≤ version t)
  ∧ (∀ c l db db',
       constraints_ok db = true → db ≡ₚ db' →
       active_latest c l db' = active_latest c l db)
  ∧ (∀ d db t rendered_content,
       ¬ falsy (get (q_code d)) →
       active_latest (get (q_code d)) (get_default (q_language d) "en") db = Some t →
       rendering (content t) (default ∅ (q_variables d)) = inr rendered_content →
       post d db =
         {| status_code := status.HTTP_200_OK;
            body := _envelope_response true
                      (DataRendered {| r_code := code t;
                                       r_subject := subject t;
                                       r_content := rendered_content;
                                       r_version := version t;
                                       r_language := language t |})
                      "Template rendered successfully" None None |}).
Proof.
  split_and!.
  - intros c l db a Hin Hg Ha.
    destruct (active_latest_is_Some c l db a Hin Hg Ha) as [t Ht].
    exists t. split; [done|]. by apply active_latest_Some.
  - intros. by apply active_latest_perm.
  - intros d db t out Hf Ha Hr. unfold post.
    rewrite bool_decide_eq_false_2 by done. rewrite Ha.
    unfold rendering in Hr. destruct (DjangoTemplate (content t)); [done|]. by rewrite Hr.
Qed.

(** The table with two active rows of ("offer", "en"): the render answers
    from version 2, also when the table holds its rows in the reverse
    order. *)
Lemma render_resolves_greatest_active_witness :
  (offer1 ∈ two_patches ∧ in_group (Some "offer") (Some "en") offer1
   ∧ is_active offer1 = true
   ∧ active_latest (Some "offer") (Some "en") two_patches = Some offer2
   ∧ ∃ t, active_latest (Some "offer") (Some "en") two_patches = Some t
          ∧ t ∈ two_patches ∧ in_group (Some "offer") (Some "en") t ∧ is_active t = true
          ∧ ∀ u, u ∈ two_patches → in_group (Some "offer") (Some "en") u →
                 is_active u = true → version u ≤ version t)
  ∧ (constraints_ok two_patches = true ∧ two_patches ≡ₚ reverse two_patches
     ∧ active_latest (Some "offer") (Some "en") (reverse two_patches)
       = active_latest (Some "offer") (Some "en") two_patches)
  ∧ (¬ falsy (get (q_code (render_of "offer")))
     ∧ rendering (E := engine) (content offer2) (default ∅ (q_variables (render_of "offer")))
       = inr "Buy "
     ∧ post (E := engine) (render_of "offer") two_patches =
         {| status_code := status.HTTP_200_OK;
            body := _envelope_response true
                      (DataRendered {| r_code := code offer2;
                                       r_subject := subject offer2;
                                       r_content := "Buy ";
                                       r_version := version offer2;
                                       r_language := language offer2 |})
                      "Template rendered successfully" None None |}).
Proof.
  assert (Hin : offer1 ∈ two_patches) by (vm_compute; left).
  assert (Hg : in_group (Some "offer") (Some "en") offer1) by (split; reflexivity).
  assert (Hl : active_latest (Some "offer") (Some "en") two_patches = Some offer2)
    by (vm_compute; reflexivity).
  assert (Hok : constraints_ok two_patches = true) by (vm_compute; reflexivity).
  assert (Hp : two_patches ≡ₚ reverse two_patches) by (symmetry; apply reverse_Permutation).
  assert (Hf : ¬ falsy (get (q_code (render_of "offer")))).
  { intros [Hn|Hn]; cbn in Hn; congruence. }
  assert (Hr : rendering (E := engine) (content offer2)
                 (default ∅ (q_variables (render_of "offer"))) = inr "Buy ")
    by (vm_compute; reflexivity).
  split; [|split].
  - split; [exact Hin|]. split; [exact Hg|]. split; [reflexivity|]. split; [exact Hl|].
    exact (proj1 (render_resolves_greatest_active engine) (Some "offer") (Some "en")
             two_patches offer1 Hin Hg eq_refl).
  - split; [exact Hok|]. split; [exact Hp|].
    exact (proj1 (proj2 (render_resolves_greatest_active engine)) (Some "offer") (Some "en")
             two_patches (reverse two_patches) Hok Hp).
  - split; [exact Hf|]. split; [exact Hr|].
    exact (proj2 (proj2 (render_resolves_greatest_active engine)) (render_of "offer")
             two_patches offer2 "Buy " Hf Hl Hr).
Defined.

(** * More on what a create does *)

Section CreateMore.
Context {E : Engine}.

Lemma filter_fmap_fixed {A} (P : A → Prop) `{∀ x, Decision (P x)} (f : A → A) (l : list A) :
  (∀ x, P x → f x = x) → (∀ x, P (f x) → P x) →
  filter P (f <$> l) = filter P l.
Proof.
  intros Hfix Hback. induction l as [|x l IH]; [done|].
  rewrite fmap_cons, (filter_cons _ (f x)), (filter_cons _ x), IH.
  destruct (decide (P x)) as [Hx|Hx].
  - rewrite (Hfix x Hx). by rewrite decide_True.
  - rewrite decide_False; [done|]. intros Hfx. by apply Hx, Hback.
Qed.

(** The rows outside the group of a create are left as they are. *)
Lemma outside_after_create vd uuid now db c :
  v_code vd = Some c →
  let l := default "en" (v_language vd) in
  filter (λ u, ¬ in_group (Some c) (Some l) u) (after_create vd uuid now db)
  = filter (λ u, ¬ in_group (Some c) (Some l) u) db.
Proof.
  intros Hc l. unfold after_create, apply_update. fold l. rewrite Hc.
  rewrite filter_fmap_fixed.
  - rewrite filter_app, filter_cons, filter_nil.
    rewrite decide_False; [by rewrite app_nil_r|].
    intros Hn. apply Hn. unfold in_group. cbn. by rewrite Hc.
  - intros u Hu. by rewrite bool_decide_eq_false_2.
  - intros u Hu Hg. apply Hu. by destruct (_ && _).
Qed.

Lemma create_ok_response vd uuid now db :
  let t := instance_of vd uuid now (next_version (v_code vd) (default "en" (v_language vd)) db) in
  created {| status_code := status.HTTP_201_CREATED;
             body := _envelope_response true (DataTemplate t) "Template created" None None |}
  = Some t.
Proof. intros t. unfold created. cbn. by rewrite bool_decide_eq_true_2. Qed.

(** The version that a create computes is not in the group: the insert
    cannot break [unique_together]. *)
Lemma create_row_fits vd uuid now db c :
  v_code vd = Some c →
  constraints_ok db = true → (∀ u, u ∈ db → id u ≠ uuid) →
  constraints_ok
    (db ++ [instance_of vd uuid now
              (next_version (v_code vd) (default "en" (v_language vd)) db)]) = true.
Proof.
  intros Hc Hok Hid. apply constraints_ok_snoc. split; [done|].
  intros u Hu. split; [by apply Hid|].
  intros (Hcode & Hlang & Hver). cbn in Hcode, Hlang, Hver.
  assert (u ∈ objects_filter (v_code vd) (Some (default "en" (v_language vd))) db) as Hin.
  { apply list_elem_of_filter. split; [|done]. unfold in_group.
    rewrite Hc in *. cbn in Hcode. by rewrite Hcode, Hlang. }
  pose proof (next_version_above _ _ _ _ Hin). lia.
Qed.

Lemma create_succeeds d vd uuid now db :
  is_valid false d = inr vd →
  constraints_ok db = true → (∀ u, u ∈ db → id u ≠ uuid) →
  let t := instance_of vd uuid now (next_version (v_code vd) (default "en" (v_language vd)) db) in
  create None d uuid now db
  = (after_create vd uuid now db,
     {| status_code := status.HTTP_201_CREATED;
        body := _envelope_response true (DataTemplate t) "Template created" None None |}).
Proof.
  intros Hv Hok Hid t. destruct (is_valid_create_code _ _ Hv) as [c Hc].
  unfold create. rewrite Hv.
  by rewrite (perform_create_total vd uuid now db (create_row_fits vd uuid now db c Hc Hok Hid)).
Qed.

End CreateMore.

(** * What validated data holds *)

Section Validated.
Context {E : Engine}.

Lemma CharField_Value partial required allow_null allow_blank max_length f s :
  CharField partial required allow_null allow_blank max_length f = Value (Some s) →
  ∃ s0, f = Str s0 ∧ s = strip s0
        ∧ (allow_blank = false → s ≠ EmptyString)
        ∧ has_null_character s = false
        ∧ ∀ n, max_length = Some n → (String.length s ≤ n)%nat.
Proof.
  unfold CharField. intros Hf. destruct f as [| |s0].
  - by destruct (required && negb partial).
  - destruct allow_null; simplify_eq.
  - exists s0. split; [done|].
    case_bool_decide as He.
    + destruct allow_blank; simplify_eq. rewrite He.
      split_and!; try done. intros n _. cbn. lia.
    + unfold run_validators in Hf.
      destruct (has_null_character (strip s0)) eqn:Hn.
      { destruct max_length as [n|]; [destruct (_ <=? _)%nat|]; cbn in Hf; simplify_eq. }
      destruct max_length as [n|].
      * destruct (String.length (strip s0) <=? n)%nat eqn:Hl; cbn in Hf; simplify_eq.
        split_and!; try done. intros m ?. simplify_eq. by apply Nat.leb_le.
      * cbn in Hf. simplify_eq. split_and!; done.
Qed.

Lemma CharField_required_total required allow_null allow_blank max_length f :
  required = true → allow_null = false →
  match CharField false required allow_null allow_blank max_length f with
  | Value (Some _) | Invalid _ => True
  | _ => False
  end.
Proof.
  intros -> ->. unfold CharField. destruct f; cbn; [done..|].
  repeat case_match; done.
Qed.

(** What [is_valid] leaves in [validated_data], field by field. *)
Lemma is_valid_inr partial d vd :
  is_valid partial d = inr vd →
  ∃ c n l s b,
    CharField partial true false false (Some 100%nat) (d_code d) = c
    ∧ CharField partial true false false (Some 200%nat) (d_name d) = n
    ∧ CharField partial false false false (Some 10%nat) (d_language d) = l
    ∧ CharField partial false true true (Some 255%nat) (d_subject d) = s
    ∧ content_field partial (d_content d) = b
    ∧ errors_of "code" c = [] ∧ errors_of "name" n = [] ∧ errors_of "language" l = []
    ∧ errors_of "subject" s = [] ∧ errors_of "content" b = []
    ∧ vd = {| v_code := mjoin (value_of c); v_name := mjoin (value_of n);
              v_language := mjoin (value_of l); v_subject := value_of s;
              v_content := mjoin (value_of b) |}.
Proof.
  unfold is_valid. intros Hv.
  eexists _, _, _, _, _. split_and!; try reflexivity;
    destruct (errors_of "code" _ ++ _) eqn:Herr; simplify_eq;
    repeat (apply app_eq_nil in Herr as [? Herr]); done.
Qed.

Lemma content_field_Value partial f b :
  content_field partial f = Value (Some b) →
  ∃ s0 t, f = Str s0 ∧ b = strip s0 ∧ b ≠ EmptyString ∧ DjangoTemplate b = inr t.
Proof.
  unfold content_field, validate_content. intros Hf.
  destruct (CharField partial true false false None f) as [|[v|]|msg] eqn:Hc; simplify_eq.
  destruct (DjangoTemplate v) as [e|t] eqn:Ht; simplify_eq.
  apply CharField_Value in Hc as (s0 & -> & -> & Hne & _).
  exists s0, t. split_and!; try done. by apply Hne.
Qed.

Lemma value_Some_inv o s : mjoin (value_of o) = Some s → o = Value (Some s).
Proof. destruct o as [|[v|]|]; cbn; intros; by simplify_eq. Qed.

(** The content that passes validation compiles. *)
Lemma is_valid_content partial d vd b :
  is_valid partial d = inr vd → v_content vd = Some b →
  b ≠ EmptyString ∧ ∃ t, DjangoTemplate b = inr t.
Proof.
  intros Hv Hb. apply is_valid_inr in Hv as (c & n & l & s & o & _ & _ & _ & _ & Ho & _ & _ & _ & _ & _ & ->).
  cbn in Hb. apply value_Some_inv in Hb. subst o.
  apply content_field_Value in Hb as (s0 & t & _ & _ & Hne & Ht). eauto.
Qed.

(** A create needs code, name and content; each is trimmed, not blank and
    within its column. *)
Lemma is_valid_create d vd :
  is_valid false d = inr vd →
  ∃ c n b, v_code vd = Some c ∧ v_name vd = Some n ∧ v_content vd = Some b
           ∧ c ≠ EmptyString ∧ (String.length c ≤ 100)%nat
           ∧ n ≠ EmptyString ∧ (String.length n ≤ 200)%nat
           ∧ b ≠ EmptyString ∧ ∃ t, DjangoTemplate b = inr t.
Proof.
  intros Hv. pose proof Hv as Hv0.
  apply is_valid_inr in Hv as (c & n & l & s & o & Hc & Hn & _ & _ & Ho & Hec & Hen & _ & _ & Heo & ->).
  pose proof (CharField_required_total true false false (Some 100%nat) (d_code d) eq_refl eq_refl) as Tc.
  pose proof (CharField_required_total true false false (Some 200%nat) (d_name d) eq_refl eq_refl) as Tn.
  pose proof (CharField_required_total true false false None (d_content d) eq_refl eq_refl) as To.
  rewrite Hc in Tc. rewrite Hn in Tn.
  destruct c as [|[c|]|msgs]; try done.
  2:{ apply CharField_Invalid in Hc. by destruct msgs. }
  destruct n as [|[n|]|msgs]; try done.
  2:{ apply CharField_Invalid in Hn. by destruct msgs. }
  assert (∃ b, o = Value (Some b)) as [b ->].
  { subst o. unfold content_field in *.
    destruct (CharField false true false false None (d_content d)) as [|[b|]|msgs] eqn:Hcf;
      try done.
    - destruct (validate_content b); [done|eauto].
    - apply CharField_Invalid in Hcf. by destruct msgs. }
  exists c, n, b. cbn.
  apply CharField_Value in Hc as (_ & _ & _ & Hc1 & _ & Hc2).
  apply CharField_Value in Hn as (_ & _ & _ & Hn1 & _ & Hn2).
  apply content_field_Value in Ho as (_ & t & _ & _ & Ho1 & Ho2).
  split_and!; eauto.
Qed.

End Validated.

(** * A create, then a read *)

Section CreateRead.
Context {E : Engine}.

Lemma head_filter_snoc_unique {A} (P : A → Prop) `{∀ x, Decision (P x)} (l : list A) x :
  (∀ y, y ∈ l → ¬ P y) → P x → head (filter P (l ++ [x])) = Some x.
Proof.
  intros Hl Hx. rewrite filter_app, (filter_none P l Hl), app_nil_l.
  rewrite filter_cons, decide_True by done. done.
Qed.

Lemma get_object_after_create vd uuid now db :
  let t := instance_of vd uuid now (next_version (v_code vd) (default "en" (v_language vd)) db) in
  constraints_ok (db ++ [t]) = true →
  get_object uuid (after_create vd uuid now db) = Some t.
Proof.
  intros t Hok. apply constraints_ok_snoc in Hok as [_ Hfresh].
  unfold get_object, after_create, apply_update. fold t.
  rewrite fmap_app, filter_app, filter_none.
  - rewrite app_nil_l, fmap_cons, fmap_nil.
    rewrite (bool_decide_eq_true_2 (version t = _)) by done.
    rewrite andb_false_r. rewrite filter_cons, decide_True by done. done.
  - intros u Hu Hid. apply list_elem_of_fmap in Hu as (u0 & -> & Hu0).
    destruct (Hfresh u0 Hu0) as [Hne _]. apply Hne. change (id u0 = uuid).
    rewrite <- Hid. by destruct (_ && _).
Qed.

End CreateRead.

(** * Reading and deleting by identifier *)

Section Detail.
Context {E : Engine}.

Lemma get_object_None pk db : get_object pk db = None ↔ ∀ t, t ∈ db → id t ≠ pk.
Proof.
  unfold get_object. rewrite head_None. split.
  - intros Hf t Hin Hid.
    assert (t ∈ filter (λ t, id t = pk) db) as Ht by (by apply list_elem_of_filter).
    rewrite Hf in Ht. inversion Ht.
  - intros Hall. apply filter_none. done.
Qed.

Lemma get_object_deleted pk db : get_object pk (filter (λ t, id t ≠ pk) db) = None.
Proof. apply get_object_None. intros t Ht. by apply list_elem_of_filter in Ht as [??]. Qed.

Lemma destroy_cases outage pk db db' r :
  destroy outage pk db = (db', r) →
  (status_code r = HTTP_204_NO_CONTENT ∧ is_Some (get_object pk db)
   ∧ db' = filter (λ t, id t ≠ pk) db)
  ∨ (status_code r ≠ HTTP_204_NO_CONTENT ∧ db' = db).
Proof.
  unfold destroy. intros Hd.
  destruct (get_object pk db) as [instance|]; [|right; by simplify_eq].
  destruct outage as [[|k]|]; simplify_eq; [right; done|left; done..].
Qed.

Lemma filter_filter_comm {A} (P Q : A → Prop) `{∀ x, Decision (P x)} `{∀ x, Decision (Q x)}
    (l : list A) :
  filter P (filter Q l) = filter Q (filter P l).
Proof.
  induction l as [|x l IH]; [done|].
  rewrite !(filter_cons _ x).
  destruct (decide (P x)), (decide (Q x));
    rewrite ?filter_cons, ?decide_True, ?decide_False by done; by rewrite IH.
Qed.

Lemma filter_all {A} (P : A → Prop) `{∀ x, Decision (P x)} (l : list A) :
  (∀ x, x ∈ l → P x) → filter P l = l.
Proof.
  induction l as [|x l IH]; [done|]. intros Hall.
  rewrite filter_cons, decide_True by (apply Hall; left).
  f_equal. apply IH. intros y Hy. apply Hall. by right.
Qed.

Lemma group_deleted pk c l db :
  group c l (filter (λ t, id t ≠ pk) db) = filter (λ t, id t ≠ pk) (group c l db).
Proof. unfold group, objects_filter. apply filter_filter_comm. Qed.

Lemma active_deleted pk c l db :
  active c l (filter (λ t, id t ≠ pk) db) = filter (λ t, id t ≠ pk) (active c l db).
Proof. unfold active. rewrite group_deleted. apply filter_filter_comm. Qed.

(** The update statement of a PUT or PATCH, on the table. *)
Lemma update_cases outage partial pk d now db db' r :
  update outage partial pk d now db = (db', r) →
  (∃ instance vd,
     get_object pk db = Some instance ∧ is_valid partial d = inr vd
     ∧ updated r = Some (update_instance vd now instance)
     ∧ db' = apply_update (λ t, bool_decide (id t = pk))
               (λ _, update_instance vd now instance) db
     ∧ constraints_ok db' = true)
  ∨ (updated r = None ∧ db' = db).
Proof.
  unfold update. intros Hu.
  destruct (get_object pk db) as [instance|] eqn:Hg; [|right; by simplify_eq].
  destruct (is_valid partial d) as [e|vd] eqn:Hv; [right; by simplify_eq|].
  cbn [run] in Hu.
  destruct outage as [[|k]|]; [right; by simplify_eq| |];
    (destruct (exec _ db) as [e|db1] eqn:Hx; [right; by simplify_eq|]);
    cbn in Hu; simplify_eq; apply exec_inr in Hx as [Hok ->];
    left; exists instance, vd; split_and!; try done;
    unfold updated; cbn; by rewrite bool_decide_eq_true_2.
Qed.

End Detail.

Section NextVersionMore.

(** The next version of a group depends on the versions of its rows
    only. *)
Lemma next_version_versions c l db1 db2 :
  version <$> objects_filter c (Some l) db1 = version <$> objects_filter c (Some l) db2 →
  next_version c l db1 = next_version c l db2.
Proof.
  intros Hvs.
  destruct (objects_filter c (Some l) db1) as [|a q1] eqn:Hq1.
  - destruct (objects_filter c (Some l) db2) as [|b q2] eqn:Hq2; [|done].
    by rewrite !next_version_empty.
  - destruct (objects_filter c (Some l) db2) as [|b q2] eqn:Hq2; [done|].
    destruct (next_version_max c l db1) as (m1 & Hm1 & Hall1 & ->); [by rewrite Hq1|].
    destruct (next_version_max c l db2) as (m2 & Hm2 & Hall2 & ->); [by rewrite Hq2|].
    rewrite Hq1 in Hm1, Hall1. rewrite Hq2 in Hm2, Hall2.
    rewrite Forall_forall in Hall1, Hall2.
    apply (list_elem_of_fmap_2 version) in Hm1 as Hv1. rewrite Hvs in Hv1.
    apply (list_elem_of_fmap_2 version) in Hm2 as Hv2. rewrite <- Hvs in Hv2.
    apply list_elem_of_fmap in Hv1 as (u1 & Hu1 & Hin1).
    apply list_elem_of_fmap in Hv2 as (u2 & Hu2 & Hin2).
    specialize (Hall1 _ Hin2). specialize (Hall2 _ Hin1). lia.
Qed.

End NextVersionMore.

(** * Tables built through the views *)

Section Built.
Context {E : Engine}.

Lemma is_valid_fields partial d vd :
  is_valid partial d = inr vd →
  (∀ c, v_code vd = Some c → c ≠ EmptyString ∧ (String.length c ≤ 100)%nat)
  ∧ (∀ n, v_name vd = Some n → n ≠ EmptyString ∧ (String.length n ≤ 200)%nat)
  ∧ (∀ l, v_language vd = Some l → l ≠ EmptyString ∧ (String.length l ≤ 10)%nat)
  ∧ (∀ s, v_subject vd = Some (Some s) → (String.length s ≤ 255)%nat)
  ∧ (∀ b, v_content vd = Some b → b ≠ EmptyString ∧ ∃ t, DjangoTemplate b = inr t).
Proof.
  intros Hv. pose proof Hv as Hv0.
  apply is_valid_inr in Hv as (c & n & l & s & o & Hc & Hn & Hl & Hs & Ho & _ & _ & _ & _ & _ & ->).
  cbn [v_code v_name v_language v_subject v_content].
  split_and!.
  - intros x Hx. apply value_Some_inv in Hx. subst c.
    apply CharField_Value in Hx as (_ & _ & _ & H1 & _ & H2). split; [by apply H1|by apply H2].
  - intros x Hx. apply value_Some_inv in Hx. subst n.
    apply CharField_Value in Hx as (_ & _ & _ & H1 & _ & H2). split; [by apply H1|by apply H2].
  - intros x Hx. apply value_Some_inv in Hx. subst l.
    apply CharField_Value in Hx as (_ & _ & _ & H1 & _ & H2). split; [by apply H1|by apply H2].
  - intros x Hx. destruct s as [|v|]; simplify_eq/=.
    apply CharField_Value in Hs as (_ & _ & _ & _ & _ & H2). by apply H2.
  - intros x Hx. by apply (is_valid_content partial d _ x Hv0).
Qed.

Lemma set_is_active_valid b t : row_valid t → row_valid (set_is_active b t).
Proof. done. Qed.

Lemma next_version_positive c l db :
  Forall row_valid db → 1 ≤ next_version c l db.
Proof.
  intros Hall. destruct (objects_filter c (Some l) db) as [|a q] eqn:Hq.
  - by rewrite next_version_empty.
  - destruct (next_version_max c l db) as (m & Hm & _ & ->); [by rewrite Hq|].
    apply list_elem_of_filter in Hm as [_ Hm].
    rewrite Forall_forall in Hall. destruct (Hall m Hm) as (_ & _ & _ & _ & _ & _ & _ & _ & _ & Hv).
    lia.
Qed.

Lemma instance_of_valid vd d uuid now v :
  is_valid false d = inr vd → 1 ≤ v → row_valid (instance_of vd uuid now v).
Proof.
  intros Hv Hpos.
  destruct (is_valid_create _ _ Hv)
    as (c & n & b & Hc & Hn & Hb & Hc1 & Hc2 & Hn1 & Hn2 & Hb1 & Hb2).
  destruct (is_valid_fields _ _ _ Hv) as (_ & _ & Hl & Hs & _).
  unfold row_valid, instance_of. cbn. rewrite Hc, Hn, Hb. cbn.
  split_and!; try done.
  - destruct (v_language vd) as [l|]; [by apply Hl|done].
  - destruct (v_language vd) as [l|]; [by apply Hl|cbn; lia].
  - intros s Hsub. destruct (v_subject vd) as [[s'|]|]; simplify_eq/=. by apply Hs.
Qed.

Lemma update_instance_valid partial d vd now t :
  is_valid partial d = inr vd → row_valid t → row_valid (update_instance vd now t).
Proof.
  intros Hv (Hc1 & Hc2 & Hn1 & Hn2 & Hl1 & Hl2 & Hs & Hb1 & Hb2 & Hver).
  destruct (is_valid_fields _ _ _ Hv) as (Hc & Hn & Hl & Hsub & Hb).
  unfold row_valid, update_instance. cbn.
  split_and!; try done.
  - destruct (v_code vd) as [c|]; [by apply Hc|done].
  - destruct (v_code vd) as [c|]; [by apply Hc|done].
  - destruct (v_name vd) as [n|]; [by apply Hn|done].
  - destruct (v_name vd) as [n|]; [by apply Hn|done].
  - destruct (v_language vd) as [l|]; [by apply Hl|done].
  - destruct (v_language vd) as [l|]; [by apply Hl|done].
  - intros s Hs'. destruct (v_subject vd) as [[s'|]|]; simplify_eq/=; [by apply Hsub|by apply Hs].
  - destruct (v_content vd) as [b|]; [by apply Hb|done].
  - destruct (v_content vd) as [b|]; [by apply Hb|done].
Qed.

Lemma run_two outage s1 s2 db db' e :
  run outage [s1; s2] db = (db', e) →
  db' = db
  ∨ ∃ db1, exec s1 db = inr db1
           ∧ (db' = db1 ∨ ∃ db2, exec s2 db1 = inr db2 ∧ db' = db2).
Proof.
  cbn [run]. intros Hr.
  destruct outage as [[|[|k]]|]; cbn [fmap option_fmap option_map pred] in Hr;
    repeat (case_match; simplify_eq/=); simplify_eq/=; eauto 10.
Qed.

(** The tables a create can leave, whatever the database does. *)
Lemma create_tables outage d uuid now db db' r :
  create outage d uuid now db = (db', r) →
  db' = db
  ∨ ∃ vd, is_valid false d = inr vd
          ∧ let t := instance_of vd uuid now
                       (next_version (v_code vd) (default "en" (v_language vd)) db) in
            db' = db ++ [t] ∨ db' = after_create vd uuid now db.
Proof.
  unfold create. intros Hc.
  destruct (is_valid false d) as [e|vd] eqn:Hv; [left; by simplify_eq|].
  unfold perform_create, perform_create_stmts, deactivate_older in Hc.
  destruct (run outage _ db) as [db1 e] eqn:Hr.
  assert (db' = db1) as -> by (destruct e; by simplify_eq).
  apply run_two in Hr as [->|(db2 & Hx & Hr)]; [by left|].
  right. exists vd. split; [done|]. cbn zeta.
  apply exec_inr in Hx as [_ ->].
  destruct Hr as [->|(db3 & Hx & ->)]; [by left|].
  apply exec_inr in Hx as [_ ->]. by right.
Qed.

Lemma create_valid outage d uuid now db db' r :
  create outage d uuid now db = (db', r) → Forall row_valid db → Forall row_valid db'.
Proof.
  intros Hc Hall.
  destruct (create_tables _ _ _ _ _ _ _ Hc) as [->|(vd & Hv & Ht)]; [done|].
  cbn zeta in Ht.
  assert (Forall row_valid
            (db ++ [instance_of vd uuid now
                      (next_version (v_code vd) (default "en" (v_language vd)) db)])) as Hnew.
  { apply Forall_app. split; [done|]. apply Forall_singleton.
    apply (instance_of_valid vd d); [done|]. by apply next_version_positive. }
  destruct Ht as [->| ->]; [done|].
  unfold after_create, apply_update. apply Forall_fmap.
  eapply Forall_impl; [exact Hnew|]. intros t Ht. cbn. by destruct (_ && _).
Qed.

Lemma update_valid outage partial pk d now db db' r :
  update outage partial pk d now db = (db', r) → Forall row_valid db → Forall row_valid db'.
Proof.
  intros Hu Hall.
  destruct (update_cases _ _ _ _ _ _ _ _ Hu) as [(instance & vd & Hg & Hv & _ & -> & _)|[_ ->]];
    [|done].
  apply get_object_Some in Hg as [Hin _].
  unfold apply_update. apply Forall_fmap.
  eapply Forall_impl; [exact Hall|]. intros t Ht. cbn.
  case_bool_decide; [|done].
  apply (update_instance_valid partial d); [done|].
  rewrite Forall_forall in Hall. by apply Hall.
Qed.

Lemma destroy_valid outage pk db db' r :
  destroy outage pk db = (db', r) → Forall row_valid db → Forall row_valid db'.
Proof.
  intros Hd Hall.
  destruct (destroy_cases _ _ _ _ _ Hd) as [(_ & _ & ->)|[_ ->]]; [|done].
  rewrite Forall_forall in *. intros t Ht. apply list_elem_of_filter in Ht as [_ Ht]. by apply Hall.
Qed.

Lemma create_newest d uuid now db db' r :
  create None d uuid now db = (db', r) → active_is_newest db → active_is_newest db'.
Proof.
  intros Hc Hinv.
  destruct (create_up_cases _ _ _ _ _ _ Hc) as [->|[t Hr]]; [done|].
  destruct (single_active_after_create _ _ _ _ _ _ _ _ Hc Hr) as (Hone & Hmax & Hother).
  intros c l. destruct (decide ((c, l) = (code t, language t))) as [Heq|Hne].
  - simplify_eq. rewrite Hone. split; [done|].
    intros t' u Ht' Hu. apply list_elem_of_singleton in Ht'. subst t'.
    rewrite Forall_forall in Hmax. by apply Hmax.
  - unfold active. rewrite (Hother _ _ Hne). apply Hinv.
Qed.

Lemma destroy_newest outage pk db db' r :
  destroy outage pk db = (db', r) → active_is_newest db → active_is_newest db'.
Proof.
  intros Hd Hinv.
  destruct (destroy_cases _ _ _ _ _ Hd) as [(_ & _ & ->)|[_ ->]]; [|done].
  intros c l. destruct (Hinv c l) as [Hlen Hmax].
  rewrite active_deleted, group_deleted. split.
  - etrans; [apply length_filter|done].
  - intros t u Ht Hu. apply list_elem_of_filter in Ht as [_ Ht].
    apply list_elem_of_filter in Hu as [_ Hu]. by apply Hmax.
Qed.

End Built.

(** * The routes *)

Section Routes.
Import urls.

Lemma after_literal_Some text : ∀ s r,
  after_literal text s = Some r ↔ s = text +:+ r.
Proof.
  induction text as [|a text IH]; intros s r; cbn.
  - split; intros; by simplify_eq.
  - destruct s as [|b s]; [done|].
    case_bool_decide as Hab.
    + subst b. rewrite IH, append_cons. split; intros; by simplify_eq.
    + rewrite append_cons. split; intros; simplify_eq.
Qed.

Lemma segment_spec s : ∀ seg rest,
  segment s = (seg, rest) →
  s = seg +:+ rest ∧ no_slash seg = true
  ∧ (rest = EmptyString ∨ ∃ r, rest = String "/" r).
Proof.
  induction s as [|a s IH]; intros seg rest; cbn [segment].
  - intros; simplify_eq. split_and!; [done..|by left].
  - case_bool_decide as Ha.
    + intros; simplify_eq. split_and!; [done..|right; eauto].
    + destruct (segment s) as [seg' rest'] eqn:Hs. intros; simplify_eq.
      destruct (IH _ _ eq_refl) as (-> & Hn & Hr).
      split_and!; [by rewrite append_cons| |done]. cbn [no_slash].
      by rewrite bool_decide_eq_false_2.
Qed.

Lemma segment_no_slash seg : ∀ rest,
  no_slash seg = true → (rest = EmptyString ∨ ∃ r, rest = String "/" r) →
  segment (seg +:+ rest) = (seg, rest).
Proof.
  induction seg as [|a seg IH]; intros rest Hn Hr.
  - destruct Hr as [->|[r ->]]; reflexivity.
  - cbn [no_slash] in Hn. apply andb_true_iff in Hn as [Ha Hn].
    apply negb_true_iff, bool_decide_eq_false in Ha.
    rewrite append_cons. cbn [segment].
    rewrite bool_decide_eq_false_2 by done. by rewrite (IH rest Hn Hr).
Qed.

(** Two texts without a slash, each followed by a slash, are the same
    text when what they start is. *)
Lemma no_slash_inj a b r1 r2 :
  no_slash a = true → no_slash b = true →
  a +:+ String "/" r1 = b +:+ String "/" r2 → a = b ∧ r1 = r2.
Proof.
  intros Ha Hb Heq.
  pose proof (segment_no_slash a (String "/" r1) Ha (or_intror (ex_intro _ r1 eq_refl))) as H1.
  pose proof (segment_no_slash b (String "/" r2) Hb (or_intror (ex_intro _ r2 eq_refl))) as H2.
  rewrite Heq, H2 in H1. by simplify_eq.
Qed.

Lemma classes_spec cs : ∀ s m rest,
  classes cs s = Some (m, rest) →
  s = m +:+ rest ∧ classes cs m = Some (m, EmptyString).
Proof.
  induction cs as [|c cs IH]; intros s m rest; cbn [classes].
  - intros; by simplify_eq.
  - destruct s as [|a s]; [done|].
    destruct (c a) eqn:Hc; [|done].
    destruct (classes cs s) as [[m' rest']|] eqn:Hs; [|done].
    intros; simplify_eq. destruct (IH _ _ _ Hs) as [-> Hm].
    split; [by rewrite append_cons|]. by rewrite Hc, Hm.
Qed.

Lemma classes_app cs : ∀ m rest,
  classes cs m = Some (m, EmptyString) → classes cs (m +:+ rest) = Some (m, rest).
Proof.
  induction cs as [|c cs IH]; intros m rest; cbn [classes].
  - destruct m; intros; by simplify_eq.
  - destruct m as [|a m]; [done|]. rewrite append_cons.
    destruct (c a); [|done].
    destruct (classes cs m) as [[m' rest']|] eqn:Hm; [|done].
    intros; simplify_eq. by rewrite (IH _ rest Hm).
Qed.

Lemma classes_no_slash cs : ∀ s m rest,
  Forall (λ c : ascii → bool, c "/"%char = false) cs →
  classes cs s = Some (m, rest) → no_slash m = true.
Proof.
  induction cs as [|c cs IH]; intros s m rest Hcs; cbn [classes].
  - intros; by simplify_eq.
  - apply Forall_cons in Hcs as [Hc Hcs].
    destruct s as [|a s]; [done|].
    destruct (c a) eqn:Hca; [|done].
    destruct (classes cs s) as [[m' rest']|] eqn:Hs; [|done].
    intros; simplify_eq. cbn [no_slash]. rewrite (IH _ _ _ Hcs Hs), andb_true_r.
    apply negb_true_iff, bool_decide_eq_false. intros ->. congruence.
Qed.

Lemma uuid_regex_no_slash : Forall (λ c : ascii → bool, c "/"%char = false) uuid_regex.
Proof. unfold uuid_regex. cbn. repeat constructor. Qed.

(** What a converter takes is a text without a slash, not empty, that it
    takes whole. *)
Lemma convert_spec c s value rest :
  convert c s = Some (value, rest) →
  s = value +:+ rest ∧ converts c value ∧ no_slash value = true ∧ value ≠ EmptyString.
Proof.
  unfold converts. destruct c; cbn [convert].
  - destruct (segment s) as [seg r] eqn:Hs. case_bool_decide as Hne; [done|].
    intros; simplify_eq. destruct (segment_spec _ _ _ Hs) as (-> & Hn & _).
    split_and!; try done.
    pose proof (segment_no_slash value EmptyString Hn (or_introl eq_refl)) as Hv.
    rewrite append_nil_r in Hv. rewrite Hv. by rewrite bool_decide_eq_false_2.
  - intros Hc. destruct (classes_spec _ _ _ _ Hc) as [-> Hm].
    split_and!; try done.
    + apply (classes_no_slash _ _ _ _ uuid_regex_no_slash Hc).
    + intros ->. vm_compute in Hm. done.
Qed.

Lemma converts_no_slash c value :
  converts c value → no_slash value = true ∧ value ≠ EmptyString.
Proof. intros Hc. by destruct (convert_spec _ _ _ _ Hc) as (_ & _ & ? & ?). Qed.

Lemma convert_app c value r :
  converts c value →
  convert c (value +:+ String "/" r) = Some (value, String "/" r).
Proof.
  intros Hc. destruct (converts_no_slash _ _ Hc) as [Hn Hne].
  unfold converts in Hc. destruct c; cbn [convert] in *.
  - rewrite segment_no_slash by eauto. by rewrite bool_decide_eq_false_2.
  - by apply classes_app.
Qed.

End Routes.

Section RouteShapes.
Import urls.

Lemma append_inv_l p : ∀ x y, p +:+ x = p +:+ y → x = y.
Proof.
  induction p as [|a p IH]; intros x y; [done|].
  rewrite !append_cons. intros; simplify_eq. by apply IH.
Qed.

(** A route that is one literal. *)
Lemma match_literal text path kwargs :
  match_route [Literal text] path = Some kwargs ↔ path = text ∧ kwargs = [].
Proof.
  cbn [match_route]. split.
  - destruct (after_literal text path) as [rest|] eqn:Ha; [|done].
    apply after_literal_Some in Ha. case_bool_decide; [|done].
    intros; simplify_eq. by rewrite append_nil_r.
  - intros [-> ->].
    rewrite (proj2 (after_literal_Some text text EmptyString)) by (by rewrite append_nil_r).
    by rewrite bool_decide_eq_true_2.
Qed.

(** A route with one parameter between two literals, the second starting
    with a slash. *)
Lemma match_parameter text c name text' path kwargs :
  match_route [Literal text; Param c name; Literal (String "/" text')] path = Some kwargs ↔
  ∃ value, converts c value ∧ path = text +:+ value +:+ String "/" text'
           ∧ kwargs = [(name, value)].
Proof.
  cbn [match_route]. split.
  - destruct (after_literal text path) as [rest|] eqn:Ha; [|done].
    apply after_literal_Some in Ha.
    destruct (convert c rest) as [[value rest']|] eqn:Hc; [|done].
    apply convert_spec in Hc as (-> & Hv & _).
    destruct (after_literal (String "/" text') rest') as [rest''|] eqn:Ha'; [|done].
    apply after_literal_Some in Ha'.
    case_bool_decide; [|done]. intros; simplify_eq.
    exists value. by rewrite append_nil_r.
  - intros (value & Hv & -> & ->).
    rewrite (proj2 (after_literal_Some text _ (value +:+ String "/" text'))) by done.
    rewrite (convert_app _ _ _ Hv).
    rewrite (proj2 (after_literal_Some (String "/" text') _ EmptyString))
      by (by rewrite append_nil_r).
    by rewrite bool_decide_eq_true_2.
Qed.

(** [str] takes whole the texts without a slash that are not empty. *)
Lemma converts_str code :
  converts str_converter code ↔ code ≠ EmptyString ∧ no_slash code = true.
Proof.
  split.
  - intros Hc. destruct (converts_no_slash _ _ Hc). done.
  - intros [Hne Hn]. unfold converts. cbn [convert].
    pose proof (segment_no_slash code EmptyString Hn (or_introl eq_refl)) as Hs.
    rewrite append_nil_r in Hs. rewrite Hs. by rewrite bool_decide_eq_false_2.
Qed.

Lemma match_route_None route path :
  (∀ kwargs, match_route route path ≠ Some kwargs) → match_route route path = None.
Proof. destruct (match_route route path) as [kwargs|]; [|done]. intros Hn. by destruct (Hn kwargs). Qed.

End RouteShapes.

(** * Properties beyond the claims *)

(** X1. A successful create changes no column but [is_active], and that only in
    its own group: the rows outside the group of the created row are the
    rows that were there, in their order, and the group is its former rows,
    each with [is_active] false and nothing else changed, followed by the
    created row. *)
Theorem create_touches_own_group_only (E : Engine) outage d uuid now db db' r t :
  create outage d uuid now db = (db', r) → created r = Some t →
  filter (λ u, ¬ in_group (Some (code t)) (Some (language t)) u) db'
  = filter (λ u, ¬ in_group (Some (code t)) (Some (language t)) u) db
  ∧ group (code t) (language t) db'
    = (set_is_active false <$> group (code t) (language t) db) ++ [t].
Proof.
  intros Hc Hr.
  destruct (created_row _ _ _ _ _ _ _ _ Hc Hr) as (vd & Hv & Hcode & Hlang & Ht & Hok & ->).
  split.
  - pose proof (outside_after_create vd uuid now db _ Hcode) as Ho.
    cbn zeta in Ho. by rewrite Hlang in Ho.
  - pose proof (group_after_create vd uuid now db _ Hcode) as Hg.
    cbn zeta in Hg. rewrite Hlang, Hcode in Hg. by rewrite <- Ht in Hg.
Qed.

Lemma create_touches_own_group_only_witness :
  create (E := engine) None second 2%N 1 one_version = (two_versions, second_response)
  ∧ created second_response = Some second_row
  ∧ filter (λ u, ¬ in_group (Some "welcome") (Some "en") u) two_versions
    = filter (λ u, ¬ in_group (Some "welcome") (Some "en") u) one_version
  ∧ group "welcome" "en" two_versions
    = (set_is_active false <$> group "welcome" "en" one_version) ++ [second_row].
Proof.
  assert (create (E := engine) None second 2%N 1 one_version
          = (two_versions, second_response)) as Hc by (vm_compute; reflexivity).
  assert (created second_response = Some second_row) as Hr by (vm_compute; reflexivity).
  split; [exact Hc|]. split; [exact Hr|].
  exact (create_touches_own_group_only engine None second 2%N 1 one_version
           two_versions second_response second_row Hc Hr).
Defined.

(** X2. On a table that satisfies its constraints, a create with a valid body
    and an identifier that no row has is answered 201 when the database
    stays up: the version it computes is in no row of the group, so the
    insert cannot break [unique_together].  The row is stored under its
    identifier and the table still satisfies its constraints. *)
Theorem create_valid_is_created (E : Engine) d vd uuid now db :
  is_valid false d = inr vd →
  constraints_ok db = true → (∀ u, u ∈ db → id u ≠ uuid) →
  ∃ db' r t, create None d uuid now db = (db', r)
             ∧ created r = Some t ∧ id t = uuid
             ∧ version t = next_version (v_code vd) (default "en" (v_language vd)) db
             ∧ t ∈ db' ∧ constraints_ok db' = true.
Proof.
  intros Hv Hok Hid.
  set (t := instance_of vd uuid now (next_version (v_code vd) (default "en" (v_language vd)) db)).
  destruct (is_valid_create_code _ _ Hv) as [c Hc].
  eexists _, _, t. split; [by apply create_succeeds|].
  split; [apply create_ok_response|].
  split_and!; try done.
  - apply created_row_stored.
  - unfold after_create, apply_update.
    rewrite constraints_ok_fmap by apply set_is_active_keeps_keys.
    by apply (create_row_fits vd uuid now db c).
Qed.

Lemma create_valid_is_created_witness :
  is_valid (E := engine) false second = inr second_valid
  ∧ constraints_ok one_version = true
  ∧ (∀ u, u ∈ one_version → id u ≠ 2%N)
  ∧ ∃ db' r t, create (E := engine) None second 2%N 1 one_version = (db', r)
               ∧ created r = Some t ∧ id t = 2%N
               ∧ version t = next_version (v_code second_valid)
                               (default "en" (v_language second_valid)) one_version
               ∧ t ∈ db' ∧ constraints_ok db' = true.
Proof.
  assert (is_valid (E := engine) false second = inr second_valid) as Hv
    by (vm_compute; reflexivity).
  assert (constraints_ok one_version = true) as Hok by (vm_compute; reflexivity).
  assert (∀ u, u ∈ one_version → id u ≠ 2%N) as Hid.
  { intros u Hu. vm_compute in Hu. apply list_elem_of_singleton in Hu. subst u.
    vm_compute. discriminate. }
  split; [exact Hv|]. split; [exact Hok|]. split; [exact Hid|].
  exact (create_valid_is_created engine second second_valid 2%N 1 one_version Hv Hok Hid).
Defined.

(** X3. A created template can be read back under its identifier: the detail
    view answers 200 with the row the create answered with. *)
Theorem create_then_retrieve (E : Engine) outage d uuid now db db' r t :
  create outage d uuid now db = (db', r) → created r = Some t →
  retrieve (id t) db'
  = {| status_code := status.HTTP_200_OK;
       body := _envelope_response true (DataTemplate t) "Template retrieved" None None |}.
Proof.
  intros Hc Hr.
  destruct (created_row _ _ _ _ _ _ _ _ Hc Hr) as (vd & Hv & Hcode & Hlang & Ht & Hok & ->).
  assert (id t = uuid) as -> by (by rewrite Ht).
  unfold retrieve.
  pose proof (get_object_after_create vd uuid now db) as Hg. cbn zeta in Hg.
  rewrite Hcode, Hlang, <- Ht in Hg. by rewrite (Hg Hok).
Qed.

Lemma create_then_retrieve_witness :
  create (E := engine) None second 2%N 1 one_version = (two_versions, second_response)
  ∧ created second_response = Some second_row
  ∧ retrieve (id second_row) two_versions
    = {| status_code := status.HTTP_200_OK;
         body := _envelope_response true (DataTemplate second_row) "Template retrieved"
                   None None |}.
Proof.
  assert (create (E := engine) None second 2%N 1 one_version
          = (two_versions, second_response)) as Hc by (vm_compute; reflexivity).
  assert (created second_response = Some second_row) as Hr by (vm_compute; reflexivity).
  split; [exact Hc|]. split; [exact Hr|].
  exact (create_then_retrieve engine None second 2%N 1 one_version
           two_versions second_response second_row Hc Hr).
Defined.

(** X4. A created template is the one the render view serves next: a render
    request for its code and language compiles the content the create
    stored (the compilation cannot fail, the create has validated it) and
    answers with the row's code, subject, version and language. *)
Theorem create_then_render (E : Engine) outage d uuid now db db' r t q :
  create outage d uuid now db = (db', r) → created r = Some t →
  get (q_code q) = Some (code t) →
  get_default (q_language q) "en" = Some (language t) →
  ∃ django_template,
    DjangoTemplate (content t) = inr django_template
    ∧ post q db'
      = match render django_template (default ∅ (q_variables q)) with
        | inl _ =>
            {| status_code := status.HTTP_500_INTERNAL_SERVER_ERROR;
               body := _envelope_response false DataNone "Template render error"
                         (Some "render_error") None |}
        | inr rendered_content =>
            {| status_code := status.HTTP_200_OK;
               body := _envelope_response true
                         (DataRendered {| r_code := code t; r_subject := subject t;
                                          r_content := rendered_content;
                                          r_version := version t;
                                          r_language := language t |})
                         "Template rendered successfully" None None |}
        end.
Proof.
  intros Hc Hr Hqc Hql.
  destruct (single_active_after_create _ _ _ _ _ _ _ _ Hc Hr) as (Hone & _ & _).
  destruct (created_row _ _ _ _ _ _ _ _ Hc Hr) as (vd & Hv & Hcode & Hlang & Ht & Hok & ->).
  destruct (is_valid_create _ _ Hv) as (c & n & b & Hvc & _ & Hvb & Hne & _ & _ & _ & _ & tpl & Hb).
  assert (code t = c) as Hct by (rewrite Hvc in Hcode; by simplify_eq).
  assert (content t = b) as Hcb by (rewrite Ht; cbn; by rewrite Hvb).
  exists tpl. split; [by rewrite Hcb|].
  unfold post. rewrite Hqc, Hql.
  rewrite bool_decide_eq_false_2.
  2:{ intros [?|?]; simplify_eq. }
  unfold active_latest, latest_version.
  unfold active, group in Hone. rewrite Hone. cbn [order_by_version_desc].
  replace (head (order_by_version_desc [t])) with (Some t) by done.
  rewrite Hcb, Hb. done.
Qed.

Lemma create_then_render_witness :
  create (E := engine) None second 2%N 1 one_version = (two_versions, second_response)
  ∧ created second_response = Some second_row
  ∧ get (q_code alice) = Some (code second_row)
  ∧ get_default (q_language alice) "en" = Some (language second_row)
  ∧ ∃ django_template,
      DjangoTemplate (Engine := engine) (content second_row) = inr django_template
      ∧ post (E := engine) alice two_versions
        = match render django_template (default ∅ (q_variables alice)) with
          | inl _ =>
              {| status_code := status.HTTP_500_INTERNAL_SERVER_ERROR;
                 body := _envelope_response false DataNone "Template render error"
                           (Some "render_error") None |}
          | inr rendered_content =>
              {| status_code := status.HTTP_200_OK;
                 body := _envelope_response true
                           (DataRendered {| r_code := code second_row;
                                            r_subject := subject second_row;
                                            r_content := rendered_content;
                                            r_version := version second_row;
                                            r_language := language second_row |})
                           "Template rendered successfully" None None |}
          end.
Proof.
  assert (create (E := engine) None second 2%N 1 one_version
          = (two_versions, second_response)) as Hc by (vm_compute; reflexivity).
  assert (created second_response = Some second_row) as Hr by (vm_compute; reflexivity).
  split; [exact Hc|]. split; [exact Hr|]. split; [reflexivity|]. split; [reflexivity|].
  exact (create_then_render engine None second 2%N 1 one_version
           two_versions second_response second_row alice Hc Hr eq_refl eq_refl).
Defined.

(** X5. After a successful create the version list of the group starts with
    the created row: it is the created row followed by the rows the list had
    before, each now inactive. *)
Theorem create_then_versions (E : Engine) outage d uuid now db db' r t :
  create outage d uuid now db = (db', r) → created r = Some t →
  ∃ rest,
    get_queryset (code t) (Some (language t)) db' = t :: rest
    ∧ rest ≡ₚ set_is_active false <$> get_queryset (code t) (Some (language t)) db.
Proof.
  intros Hc Hr.
  destruct (created_row _ _ _ _ _ _ _ _ Hc Hr) as (vd & Hv & Hcode & Hlang & Ht & Hok & ->).
  pose proof (group_after_create vd uuid now db _ Hcode) as Hg. cbn zeta in Hg.
  rewrite Hlang, Hcode, <- Ht in Hg.
  assert (first (get_queryset (code t) (Some (language t)) (after_create vd uuid now db))
          = Some t) as Hfirst.
  { unfold get_queryset. apply first_order_by_unique.
    - change (t ∈ group (code t) (language t) (after_create vd uuid now db)).
      rewrite Hg. apply elem_of_app. right. left.
    - change (Forall (λ u, u ≠ t → version u < version t)
                (group (code t) (language t) (after_create vd uuid now db))).
      rewrite Hg. apply Forall_app. split.
      + apply Forall_fmap, Forall_forall. intros u Hu _. cbn.
        pose proof (next_version_above _ _ _ _ Hu) as Hlt. rewrite Ht. cbn. lia.
      + apply Forall_singleton. done. }
  pose proof (get_queryset_perm (code t) (Some (language t)) (after_create vd uuid now db)) as Hp.
  change (default "en" (Some (language t))) with (language t) in Hp. rewrite Hg in Hp.
  destruct (get_queryset (code t) (Some (language t)) (after_create vd uuid now db))
    as [|t' rest]; [done|].
  cbn in Hfirst. simplify_eq. exists rest. split; [done|].
  rewrite <- Permutation_cons_append in Hp. apply Permutation_cons_inv in Hp.
  rewrite Hp. apply fmap_Permutation. symmetry.
  apply (get_queryset_perm (code t) (Some (language t)) db).
Qed.

Lemma create_then_versions_witness :
  create (E := engine) None second 2%N 1 one_version = (two_versions, second_response)
  ∧ created second_response = Some second_row
  ∧ ∃ rest,
      get_queryset (code second_row) (Some (language second_row)) two_versions
      = second_row :: rest
      ∧ rest ≡ₚ set_is_active false
                 <$> get_queryset (code second_row) (Some (language second_row)) one_version.
Proof.
  assert (create (E := engine) None second 2%N 1 one_version
          = (two_versions, second_response)) as Hc by (vm_compute; reflexivity).
  assert (created second_response = Some second_row) as Hr by (vm_compute; reflexivity).
  split; [exact Hc|]. split; [exact Hr|].
  exact (create_then_versions engine None second 2%N 1 one_version
           two_versions second_response second_row Hc Hr).
Defined.



(** X7. A delete answered 204 removes the rows of the identifier and no other
    row; the identifier is then unknown: the detail view answers 404, and so
    does a second delete, which leaves the table as it is.  A delete that
    is not answered 204 leaves the table as it was. *)
Theorem destroy_removes_the_row outage pk db db' r :
  destroy outage pk db = (db', r) →
  (status_code r = HTTP_204_NO_CONTENT
   ∧ (∃ t, t ∈ db ∧ id t = pk)
   ∧ (∀ u, u ∈ db' ↔ u ∈ db ∧ id u ≠ pk)
   ∧ retrieve pk db' = not_found "No Template matches the given query."
   ∧ ∀ outage', destroy outage' pk db'
                = (db', not_found "No Template matches the given query."))
  ∨ (status_code r ≠ HTTP_204_NO_CONTENT ∧ db' = db).
Proof.
  intros Hd. destruct (destroy_cases _ _ _ _ _ Hd) as [(Hs & [t Hg] & ->)|Hno]; [left|by right].
  split; [done|]. split; [exists t; by apply get_object_Some|].
  split; [|split].
  - intros u. rewrite list_elem_of_filter. tauto.
  - unfold retrieve. by rewrite get_object_deleted.
  - intros outage'. unfold destroy. by rewrite get_object_deleted.
Qed.

Lemma destroy_removes_the_row_witness :
  destroy None 2%N two_versions = (after_delete, deleted_response)
  ∧ ((status_code deleted_response = HTTP_204_NO_CONTENT
      ∧ (∃ t, t ∈ two_versions ∧ id t = 2%N)
      ∧ (∀ u, u ∈ after_delete ↔ u ∈ two_versions ∧ id u ≠ 2%N)
      ∧ retrieve 2%N after_delete = not_found "No Template matches the given query."
      ∧ ∀ outage', destroy outage' 2%N after_delete
                   = (after_delete, not_found "No Template matches the given query."))
     ∨ (status_code deleted_response ≠ HTTP_204_NO_CONTENT ∧ after_delete = two_versions)).
Proof.
  assert (destroy None 2%N two_versions = (after_delete, deleted_response)) as Hd
    by (vm_compute; reflexivity).
  split; [exact Hd|].
  exact (destroy_removes_the_row None 2%N two_versions after_delete deleted_response Hd).
Defined.

(** X8. Deleting the active row of a group does not bring an older version
    back: the rows that stay keep their [is_active], so a render request
    for the group is answered 404 whatever versions are still stored. *)
Theorem destroy_active_then_render_404 (E : Engine) t db q :
  active (code t) (language t) db = [t] →
  code t ≠ EmptyString →
  get (q_code q) = Some (code t) →
  get_default (q_language q) "en" = Some (language t) →
  post q (fst (destroy None (id t) db)) = render_not_found.
Proof.
  intros Hone Hne Hqc Hql.
  assert (t ∈ db) as Hin.
  { assert (t ∈ active (code t) (language t) db) as Ht by (rewrite Hone; left).
    apply list_elem_of_filter in Ht as [_ Ht]. by apply list_elem_of_filter in Ht as [_ Ht]. }
  unfold destroy.
  destruct (get_object (id t) db) as [instance|] eqn:Hg.
  2:{ rewrite get_object_None in Hg. by destruct (Hg t Hin). }
  cbn [fst]. apply post_no_active.
  - rewrite Hqc. intros [?|?]; simplify_eq.
  - rewrite Hqc, Hql. apply active_latest_None.
    intros u Hu Hgu. apply list_elem_of_filter in Hu as [Hid Hu].
    destruct (is_active u) eqn:Ha; [|done]. exfalso.
    assert (u ∈ active (code t) (language t) db) as Hact.
    { apply list_elem_of_filter. split; [done|]. by apply list_elem_of_filter. }
    rewrite Hone in Hact. apply list_elem_of_singleton in Hact. by subst.
Qed.

Lemma destroy_active_then_render_404_witness :
  active (code second_row) (language second_row) two_versions = [second_row]
  ∧ code second_row ≠ EmptyString
  ∧ get (q_code alice) = Some (code second_row)
  ∧ get_default (q_language alice) "en" = Some (language second_row)
  ∧ group "welcome" "en" (fst (destroy None (id second_row) two_versions)) ≠ []
  ∧ post (E := engine) alice (fst (destroy None (id second_row) two_versions))
    = render_not_found.
Proof.
  assert (active (code second_row) (language second_row) two_versions = [second_row])
    as Hone by (vm_compute; reflexivity).
  assert (code second_row ≠ EmptyString) as Hne by (vm_compute; discriminate).
  split; [exact Hone|]. split; [exact Hne|]. split; [reflexivity|]. split; [reflexivity|].
  split; [vm_compute; discriminate|].
  exact (destroy_active_then_render_404 engine second_row two_versions alice
           Hone Hne eq_refl eq_refl).
Defined.

(** X9. A version number does not stay with the row that had it: when the
    row a create has just stored is deleted, the next create in the group is
    assigned the same version again. *)
Theorem destroyed_version_is_reused (E : Engine)
    outage d uuid now db db1 r t outage2 d2 uuid2 now2 db2 r2 t2 :
  create outage d uuid now db = (db1, r) → created r = Some t →
  create outage2 d2 uuid2 now2 (fst (destroy None (id t) db1)) = (db2, r2) →
  created r2 = Some t2 →
  code t2 = code t → language t2 = language t →
  version t2 = version t.
Proof.
  intros Hc Hr Hc2 Hr2 Hcode2 Hlang2.
  destruct (created_row _ _ _ _ _ _ _ _ Hc Hr) as (vd & Hv & Hcode & Hlang & Ht & Hok & ->).
  destruct (created_row _ _ _ _ _ _ _ _ Hc2 Hr2) as (vd2 & _ & _ & _ & Ht2 & _ & _).
  assert (version t2 = next_version (Some (code t2)) (language t2)
                         (fst (destroy None (id t) (after_create vd uuid now db)))) as ->
    by (rewrite Ht2 at 1; done).
  assert (version t = next_version (Some (code t)) (language t) db) as ->
    by (rewrite Ht at 1; done).
  rewrite Hcode2, Hlang2.
  apply next_version_versions.
  assert (id t = uuid) as Hid by (by rewrite Ht).
  unfold destroy.
  pose proof (get_object_after_create vd uuid now db) as Hg. cbn zeta in Hg.
  rewrite Hcode, Hlang, <- Ht in Hg. rewrite Hid, (Hg Hok). cbn [fst].
  change (objects_filter (Some (code t)) (Some (language t)) ?x) with (group (code t) (language t) x).
  rewrite group_deleted.
  pose proof (group_after_create vd uuid now db _ Hcode) as Hga. cbn zeta in Hga.
  rewrite Hlang, Hcode, <- Ht in Hga. rewrite Hga.
  rewrite filter_app, filter_cons, filter_nil, decide_False by (intros Hn; by apply Hn).
  rewrite app_nil_r.
  apply constraints_ok_snoc in Hok as [_ Hfresh].
  rewrite filter_all.
  - rewrite <- list_fmap_compose. apply list_fmap_ext. done.
  - intros u Hu. apply list_elem_of_fmap in Hu as (u0 & -> & Hu0).
    apply list_elem_of_filter in Hu0 as [_ Hu0]. destruct (Hfresh u0 Hu0) as [Hne _].
    cbn. congruence.
Qed.

Lemma destroyed_version_is_reused_witness :
  create (E := engine) None second 2%N 1 one_version = (two_versions, second_response)
  ∧ created second_response = Some second_row
  ∧ create (E := engine) None again 3%N 2 (fst (destroy None (id second_row) two_versions))
    = (after_delete ++ [again_row], again_response)
  ∧ created again_response = Some again_row
  ∧ code again_row = code second_row
  ∧ language again_row = language second_row
  ∧ version again_row = version second_row.
Proof.
  assert (create (E := engine) None second 2%N 1 one_version
          = (two_versions, second_response)) as Hc by (vm_compute; reflexivity).
  assert (created second_response = Some second_row) as Hr by (vm_compute; reflexivity).
  assert (create (E := engine) None again 3%N 2
            (fst (destroy None (id second_row) two_versions))
          = (after_delete ++ [again_row], again_response)) as Hc2
    by (vm_compute; reflexivity).
  assert (created again_response = Some again_row) as Hr2 by (vm_compute; reflexivity).
  split; [exact Hc|]. split; [exact Hr|]. split; [exact Hc2|]. split; [exact Hr2|].
  split; [reflexivity|]. split; [reflexivity|].
  exact (destroyed_version_is_reused engine None second 2%N 1 one_version two_versions
           second_response second_row None again 3%N 2 (after_delete ++ [again_row])
           again_response again_row Hc Hr Hc2 Hr2 eq_refl eq_refl).
Defined.

(** X10. A PUT or PATCH writes one row: the table keeps its length and the rows
    of every other identifier, in their order.  When it is answered 200,
    the row of the answer is the one stored under the identifier, which a
    retrieve answers with; with any other answer the table is as it was. *)
Theorem update_changes_one_row (E : Engine) outage partial pk d now db db' r :
  update outage partial pk d now db = (db', r) →
  length db' = length db
  ∧ filter (λ u, id u ≠ pk) db' = filter (λ u, id u ≠ pk) db
  ∧ match updated r with
    | Some t =>
        id t = pk ∧ t ∈ db'
        ∧ retrieve pk db'
          = {| status_code := status.HTTP_200_OK;
               body := _envelope_response true (DataTemplate t) "Template retrieved"
                         None None |}
    | None => db' = db
    end.
Proof.
  intros Hu.
  destruct (update_cases _ _ _ _ _ _ _ _ Hu) as [(instance & vd & Hg & Hv & -> & -> & Hok)|[-> ->]];
    [|done].
  set (t := update_instance vd now instance).
  assert (id t = pk) as Hid by (apply get_object_Some in Hg as [_ Hg]; done).
  assert (filter (λ u, id u = pk) (apply_update (λ u, bool_decide (id u = pk)) (λ _, t) db)
          = (λ _, t) <$> filter (λ u, id u = pk) db) as Hf.
  { unfold apply_update. clear Hok Hg Hu. induction db as [|u db IH]; [done|].
    rewrite fmap_cons. destruct (decide (id u = pk)) as [Hu'|Hu'].
    - rewrite bool_decide_eq_true_2 by done.
      rewrite !filter_cons, !decide_True by done. rewrite fmap_cons. f_equal. apply IH.
    - rewrite bool_decide_eq_false_2 by done.
      rewrite !filter_cons, !decide_False by done. apply IH. }
  split_and!.
  - unfold apply_update. by rewrite length_fmap.
  - unfold apply_update. clear Hok Hg Hf Hu. induction db as [|u db IH]; [done|].
    rewrite fmap_cons. destruct (decide (id u = pk)) as [Hu'|Hu'].
    + rewrite bool_decide_eq_true_2 by done.
      rewrite !filter_cons, !decide_False by (intros Hn; by apply Hn). apply IH.
    + rewrite bool_decide_eq_false_2 by done.
      rewrite !filter_cons, !decide_True by done. f_equal. apply IH.
  - done.
  - assert (t ∈ filter (λ u, id u = pk)
                  (apply_update (λ u, bool_decide (id u = pk)) (λ _, t) db)) as Hin.
    { rewrite Hf. unfold get_object in Hg. destruct (filter _ db); [done|]. left. }
    by apply list_elem_of_filter in Hin as [_ Hin].
  - unfold retrieve, get_object. rewrite Hf.
    unfold get_object in Hg. destruct (filter _ db); [done|]. done.
Qed.

Lemma update_changes_one_row_witness :
  update (E := engine) None true 2%N (patch_is_active true) 9 two_codes
  = (promo_patched, promo_patched_response)
  ∧ length promo_patched = length two_codes
  ∧ filter (λ u, id u ≠ 2%N) promo_patched = filter (λ u, id u ≠ 2%N) two_codes
  ∧ match updated promo_patched_response with
    | Some t =>
        id t = 2%N ∧ t ∈ promo_patched
        ∧ retrieve 2%N promo_patched
          = {| status_code := status.HTTP_200_OK;
               body := _envelope_response true (DataTemplate t) "Template retrieved"
                         None None |}
    | None => promo_patched = two_codes
    end.
Proof.
  assert (update (E := engine) None true 2%N (patch_is_active true) 9 two_codes
          = (promo_patched, promo_patched_response)) as Hu by (vm_compute; reflexivity).
  split; [exact Hu|].
  exact (update_changes_one_row engine None true 2%N (patch_is_active true) 9 two_codes
           promo_patched promo_patched_response Hu).
Defined.

(** X11. The serializer does not check [unique_together] (Meta.validators is
    empty): a PUT or PATCH that would give a row the code, language and
    version of another row passes validation, the table refuses the
    statement, and the request is answered 500 with the table unchanged. *)
Theorem update_onto_existing_key_fails (E : Engine) partial pk d now db instance vd u :
  get_object pk db = Some instance →
  is_valid partial d = inr vd →
  u ∈ db → id u ≠ pk → same_key u (update_instance vd now instance) →
  update None partial pk d now db = (db, server_error IntegrityError).
Proof.
  intros Hg Hv Hu Hid Hk. unfold update. rewrite Hg, Hv. cbn [run].
  set (t := update_instance vd now instance). fold t in Hk.
  assert (exec (UPDATE (λ x, bool_decide (id x = pk)) (λ _, t)) db = inl IntegrityError) as ->;
    [|done].
  unfold exec.
  destruct (constraints_ok (apply_update _ _ db)) eqn:Hok; [exfalso|done].
  apply get_object_Some in Hg as [Hin Hpk].
  assert (t ∈ apply_update (λ x, bool_decide (id x = pk)) (λ _, t) db) as Ht.
  { unfold apply_update. apply list_elem_of_fmap. exists instance.
    by rewrite bool_decide_eq_true_2. }
  assert (u ∈ apply_update (λ x, bool_decide (id x = pk)) (λ _, t) db) as Hu'.
  { unfold apply_update. apply list_elem_of_fmap. exists u.
    by rewrite bool_decide_eq_false_2. }
  assert (u = t) as -> by (by apply (constraints_ok_keys _ _ _ Hok Hu' Ht)).
  apply Hid. done.
Qed.

Lemma update_onto_existing_key_fails_witness :
  get_object 1%N two_codes = Some (row 1%N "welcome" "en" None "Hello {{name}}" 1 true)
  ∧ is_valid (E := engine) true (patch_code "promo") = inr only_code
  ∧ row 2%N "promo" "en" None "Buy" 1 false ∈ two_codes
  ∧ id (row 2%N "promo" "en" None "Buy" 1 false) ≠ 1%N
  ∧ same_key (row 2%N "promo" "en" None "Buy" 1 false)
      (update_instance only_code 5 (row 1%N "welcome" "en" None "Hello {{name}}" 1 true))
  ∧ update (E := engine) None true 1%N (patch_code "promo") 5 two_codes
    = (two_codes, server_error IntegrityError).
Proof.
  assert (get_object 1%N two_codes
          = Some (row 1%N "welcome" "en" None "Hello {{name}}" 1 true)) as Hg
    by (vm_compute; reflexivity).
  assert (is_valid (E := engine) true (patch_code "promo") = inr only_code) as Hv
    by (vm_compute; reflexivity).
  assert (row 2%N "promo" "en" None "Buy" 1 false ∈ two_codes) as Hu
    by (vm_compute; right; left).
  assert (id (row 2%N "promo" "en" None "Buy" 1 false) ≠ 1%N) as Hid
    by (vm_compute; discriminate).
  assert (same_key (row 2%N "promo" "en" None "Buy" 1 false)
            (update_instance only_code 5
               (row 1%N "welcome" "en" None "Hello {{name}}" 1 true))) as Hk
    by (vm_compute; split_and!; reflexivity).
  split; [exact Hg|]. split; [exact Hv|]. split; [exact Hu|]. split; [exact Hid|].
  split; [exact Hk|].
  exact (update_onto_existing_key_fails engine true 1%N (patch_code "promo") 5 two_codes
           _ only_code _ Hg Hv Hu Hid Hk).
Defined.

(** X12. A PUT or PATCH on the row that a group serves takes effect at once and
    under the same version: when the row of the identifier is the one the
    render view finds for its code and language, and the update leaves it
    in that group, the render view finds the updated row afterwards and
    answers from its new content with the version number unchanged. *)
Theorem update_then_render (E : Engine) outage partial pk d now db db' r t' instance q :
  update outage partial pk d now db = (db', r) → updated r = Some t' →
  active_latest (Some (code t')) (Some (language t')) db = Some instance →
  id instance = pk →
  get (q_code q) = Some (code t') → code t' ≠ EmptyString →
  get_default (q_language q) "en" = Some (language t') →
  version t' = version instance
  ∧ active_latest (Some (code t')) (Some (language t')) db' = Some t'
  ∧ post q db'
    = match rendering (content t') (default ∅ (q_variables q)) with
      | inl _ =>
          {| status_code := status.HTTP_500_INTERNAL_SERVER_ERROR;
             body := _envelope_response false DataNone "Template render error"
                       (Some "render_error") None |}
      | inr rendered_content =>
          {| status_code := status.HTTP_200_OK;
             body := _envelope_response true
                       (DataRendered {| r_code := code t'; r_subject := subject t';
                                        r_content := rendered_content;
                                        r_version := version instance;
                                        r_language := language t' |})
                       "Template rendered successfully" None None |}
      end.
Proof.
  intros Hu Hr Hl Hid Hqc Hne Hql.
  destruct (update_cases _ _ _ _ _ _ _ _ Hu)
    as [(instance0 & vd & Hg & Hv & Hr' & -> & Hok)|[Hr' _]]; [|congruence].
  rewrite Hr in Hr'. simplify_eq.
  set (t' := update_instance vd now instance0) in *.
  apply active_latest_Some in Hl as (Hin & Hgrp & Hact & Hmax).
  apply get_object_Some in Hg as [Hin0 Hid0].
  set (f := λ t : Template, if bool_decide (id t = id instance) then t' else t).
  assert (id <$> apply_update (λ t, bool_decide (id t = id instance)) (λ _, t') db = id <$> db)
    as Hids.
  { unfold apply_update. rewrite <- list_fmap_compose. apply list_fmap_ext.
    intros i u _. cbn. case_bool_decide; [|done]. cbn. congruence. }
  assert (instance0 = instance) as ->.
  { apply (NoDup_fmap_elem_inj id db); try done.
    rewrite <- Hids. by apply constraints_ok_ids. }
  assert (version t' = version instance) as Hver by done.
  assert (is_active t' = true) as Hact' by done.
  assert (t' ∈ apply_update (λ t, bool_decide (id t = id instance)) (λ _, t') db) as Hin'.
  { unfold apply_update. apply list_elem_of_fmap. exists instance.
    by rewrite bool_decide_eq_true_2. }
  assert (active_latest (Some (code t')) (Some (language t'))
            (apply_update (λ t, bool_decide (id t = id instance)) (λ _, t') db) = Some t')
    as Hl'.
  { unfold active_latest, latest_version. apply first_order_by_unique.
    - apply list_elem_of_filter. split; [done|]. by apply list_elem_of_filter.
    - apply Forall_forall. intros u' Hu' Hneq.
      apply list_elem_of_filter in Hu' as [Hau Hu'].
      apply list_elem_of_filter in Hu' as [Hgu Hu'].
      pose proof Hu' as Hu''. unfold apply_update in Hu''.
      apply list_elem_of_fmap in Hu'' as (u & Hfu & Hu0).
      case_bool_decide as Hpk; [by subst|]. subst u'.
      pose proof (Hmax u Hu0 Hgu Hau) as Hle.
      destruct (decide (version u = version t')) as [Heq|]; [|lia].
      exfalso. apply Hneq. apply (constraints_ok_keys _ _ _ Hok Hu' Hin').
      destruct Hgu as [Hc1 Hl1]. unfold same_key. split_and!; congruence. }
  split; [done|]. split; [done|].
  unfold post, rendering. rewrite Hqc, Hql.
  rewrite bool_decide_eq_false_2 by (intros [?|?]; simplify_eq).
  rewrite Hl'. rewrite Hver. done.
Qed.

Lemma update_then_render_witness :
  update (E := engine) None true 2%N patch_content 5 two_versions
  = (two_versions_patched, patched_response)
  ∧ updated patched_response = Some second_row_patched
  ∧ active_latest (Some (code second_row_patched)) (Some (language second_row_patched))
      two_versions = Some second_row
  ∧ id second_row = 2%N
  ∧ get (q_code alice) = Some (code second_row_patched)
  ∧ code second_row_patched ≠ EmptyString
  ∧ get_default (q_language alice) "en" = Some (language second_row_patched)
  ∧ version second_row_patched = version second_row
  ∧ active_latest (Some (code second_row_patched)) (Some (language second_row_patched))
      two_versions_patched = Some second_row_patched
  ∧ post (E := engine) alice two_versions_patched
    = match rendering (E := engine) (content second_row_patched)
              (default ∅ (q_variables alice)) with
      | inl _ =>
          {| status_code := status.HTTP_500_INTERNAL_SERVER_ERROR;
             body := _envelope_response false DataNone "Template render error"
                       (Some "render_error") None |}
      | inr rendered_content =>
          {| status_code := status.HTTP_200_OK;
             body := _envelope_response true
                       (DataRendered {| r_code := code second_row_patched;
                                        r_subject := subject second_row_patched;
                                        r_content := rendered_content;
                                        r_version := version second_row;
                                        r_language := language second_row_patched |})
                       "Template rendered successfully" None None |}
      end.
Proof.
  assert (update (E := engine) None true 2%N patch_content 5 two_versions
          = (two_versions_patched, patched_response)) as Hu by (vm_compute; reflexivity).
  assert (updated patched_response = Some second_row_patched) as Hr
    by (vm_compute; reflexivity).
  assert (active_latest (Some (code second_row_patched))
            (Some (language second_row_patched)) two_versions = Some second_row) as Hl
    by (vm_compute; reflexivity).
  assert (code second_row_patched ≠ EmptyString) as Hne by (vm_compute; discriminate).
  split; [exact Hu|]. split; [exact Hr|]. split; [exact Hl|]. split; [reflexivity|].
  split; [reflexivity|]. split; [exact Hne|]. split; [reflexivity|].
  exact (update_then_render engine None true 2%N patch_content 5 two_versions
           two_versions_patched patched_response second_row_patched second_row alice
           Hu Hr Hl eq_refl eq_refl Hne eq_refl).
Defined.

(** X13. The version list of a code and language that have no row is empty on
    its first page only: with a page size, every other page number is
    answered 404. *)
Theorem list_versions_empty_other_page size code language n db :
  group code (default "en" language) db = [] → (0 < size)%nat → n ≠ 1 →
  list_versions (Some size) code language (PageNumber n) db = not_found "Invalid page.".
Proof.
  intros Hg Hs Hn. unfold list_versions, paginate_queryset.
  assert (get_queryset code language db = []) as ->.
  { apply Permutation_nil_r. rewrite <- Hg. apply get_queryset_perm. }
  destruct size as [|size]; [lia|].
  cbn [length]. rewrite num_pages_empty by lia.
  destruct (n <? 1) eqn:H1; [done|]. apply Z.ltb_ge in H1.
  rewrite (proj2 (Z.ltb_lt (Z.of_nat 1) n)) by lia. done.
Qed.

Lemma list_versions_empty_other_page_witness :
  group "nonexistent" (default "en" None) two_versions = []
  ∧ (0 < 10)%nat ∧ 2 ≠ 1
  ∧ list_versions (Some 10%nat) "nonexistent" None (PageNumber 2) two_versions
    = not_found "Invalid page.".
Proof.
  assert (group "nonexistent" (default "en" None) two_versions = []) as Hg
    by (vm_compute; reflexivity).
  assert (0 < 10)%nat as Hs by lia.
  assert (2 ≠ 1) as Hn by lia.
  split; [exact Hg|]. split; [exact Hs|]. split; [exact Hn|].
  exact (list_versions_empty_other_page 10 "nonexistent" None 2 two_versions Hg Hs Hn).
Defined.

(** X14. A create in one group changes no render of another: after a
    successful create, a render request for any other code or language is
    answered exactly as it was before. *)
Theorem create_leaves_other_renders (E : Engine) outage d uuid now db db' r t q :
  create outage d uuid now db = (db', r) → created r = Some t →
  (get (q_code q), get_default (q_language q) "en") ≠ (Some (code t), Some (language t)) →
  post q db' = post q db.
Proof.
  intros Hc Hr Hne.
  destruct (single_active_after_create _ _ _ _ _ _ _ _ Hc Hr) as (_ & _ & Hother).
  assert (objects_filter (get (q_code q)) (get_default (q_language q) "en") db'
          = objects_filter (get (q_code q)) (get_default (q_language q) "en") db) as Hg.
  { destruct (get (q_code q)) as [c|] eqn:Hqc.
    - destruct (get_default (q_language q) "en") as [l|] eqn:Hql.
      + apply (Hother c l). intros Heq. apply Hne. by simplify_eq.
      + unfold objects_filter. rewrite !filter_none; [done|..]; by intros u _ [_ ?].
    - unfold objects_filter. rewrite !filter_none; [done|..]; by intros u _ [? _]. }
  unfold post, active_latest. by rewrite Hg.
Qed.

Lemma create_leaves_other_renders_witness :
  create (E := engine) None second 2%N 1 one_version = (two_versions, second_response)
  ∧ created second_response = Some second_row
  ∧ (get (q_code (render_of "promo")), get_default (q_language (render_of "promo")) "en")
    ≠ (Some (code second_row), Some (language second_row))
  ∧ post (E := engine) (render_of "promo") two_versions
    = post (E := engine) (render_of "promo") one_version.
Proof.
  assert (create (E := engine) None second 2%N 1 one_version
          = (two_versions, second_response)) as Hc by (vm_compute; reflexivity).
  assert (created second_response = Some second_row) as Hr by (vm_compute; reflexivity).
  assert ((get (q_code (render_of "promo")), get_default (q_language (render_of "promo")) "en")
          ≠ (Some (code second_row), Some (language second_row))) as Hne
    by (vm_compute; discriminate).
  split; [exact Hc|]. split; [exact Hr|]. split; [exact Hne|].
  exact (create_leaves_other_renders engine None second 2%N 1 one_version two_versions
           second_response second_row (render_of "promo") Hc Hr Hne).
Defined.

(** X15. The render view and the version list agree: on a table that satisfies
    its constraints, the row the render view finds for a code and language
    is the first active row of their version list, and it finds none exactly
    when the list has no active row. *)
Theorem render_serves_first_active_version code language db :
  constraints_ok db = true →
  active_latest (Some code) (Some language) db
  = head (filter (λ t, is_active t = true) (get_queryset code (Some language) db)).
Proof.
  intros Hok.
  pose proof (get_queryset_perm code (Some language) db) as Hp.
  pose proof (get_queryset_sorted code (Some language) db) as Hs.
  change (default "en" (Some language)) with language in Hp.
  destruct (head (filter (λ t, is_active t = true) (get_queryset code (Some language) db)))
    as [h|] eqn:Hh.
  - assert (h ∈ filter (λ t, is_active t = true) (get_queryset code (Some language) db))
      as Hin by (by apply head_Some_elem_of).
    apply list_elem_of_filter in Hin as [Hact Hin].
    assert (∀ u, u ∈ get_queryset code (Some language) db → is_active u = true →
                 version u ≤ version h) as Hmax.
    { revert Hh Hs. clear. induction (get_queryset code (Some language) db) as [|a q IH];
        intros Hh Hs u Hu Hau; [inversion Hu|].
      apply StronglySorted_inv in Hs as [Hs Hall].
      rewrite filter_cons in Hh. destruct (decide (is_active a = true)) as [Ha|Ha].
      - cbn in Hh. simplify_eq. apply elem_of_cons in Hu as [->|Hu]; [lia|].
        rewrite Forall_forall in Hall. by apply Hall.
      - apply elem_of_cons in Hu as [->|Hu]; [done|]. by apply IH. }
    unfold active_latest, latest_version. apply first_order_by_unique.
    + apply list_elem_of_filter. split; [done|]. by rewrite <- Hp.
    + apply Forall_forall. intros u Hu Hne.
      apply list_elem_of_filter in Hu as [Hau Hu].
      assert (u ∈ get_queryset code (Some language) db) as Hu' by (by rewrite Hp).
      pose proof (Hmax u Hu' Hau) as Hle.
      destruct (decide (version u = version h)) as [Heq|]; [|lia].
      exfalso. apply Hne.
      rewrite Hp in Hin.
      apply list_elem_of_filter in Hu as [[Hc1 Hl1] Hu].
      apply list_elem_of_filter in Hin as [[Hc2 Hl2] Hin].
      apply (constraints_ok_keys db); try done.
      unfold same_key. split_and!; congruence.
  - apply active_latest_None. intros t Hin Hg.
    destruct (is_active t) eqn:Ha; [|done]. exfalso.
    assert (t ∈ filter (λ t, is_active t = true) (get_queryset code (Some language) db)) as Ht.
    { apply list_elem_of_filter. split; [done|]. rewrite Hp. by apply list_elem_of_filter. }
    apply head_None in Hh. rewrite Hh in Ht. inversion Ht.
Qed.

Lemma render_serves_first_active_version_witness :
  constraints_ok two_patches = true
  ∧ active_latest (Some "offer") (Some "en") two_patches
    = head (filter (λ t, is_active t = true) (get_queryset "offer" (Some "en") two_patches)).
Proof.
  assert (constraints_ok two_patches = true) as Hok by (vm_compute; reflexivity).
  split; [exact Hok|].
  exact (render_serves_first_active_version "offer" "en" two_patches Hok).
Defined.

(** X16. Whatever requests have written a table, and whatever the database did
    to them, its rows hold what the serializer lets through: code, name and
    language not blank and within 100, 200 and 10 characters, a subject
    within 255, a content that compiles, a version from 1 on.  Creates,
    PUT and PATCH validate what they write and deletes write nothing. *)
Theorem written_rows_are_valid (E : Engine) cs db :
  Forall row_valid db → Forall row_valid (calls_on cs db).
Proof.
  revert db. induction cs as [|c cs IH]; intros db Hall; [done|].
  cbn [calls_on]. apply IH.
  destruct (call_on c db) as [db' r] eqn:Hc. cbn [fst].
  destruct c; cbn [call_on] in Hc.
  - by apply (create_valid _ _ _ _ _ _ _ Hc).
  - by apply (update_valid _ _ _ _ _ _ _ _ Hc).
  - by apply (destroy_valid _ _ _ _ _ Hc).
Qed.

Lemma written_rows_are_valid_witness :
  Forall (row_valid (E := engine)) []
  ∧ Forall (row_valid (E := engine)) (calls_on (E := engine) create_create_delete []).
Proof.
  assert (Forall (row_valid (E := engine)) []) as Hnil by constructor.
  split; [exact Hnil|].
  exact (written_rows_are_valid engine create_create_delete [] Hnil).
Defined.

(** X17. On a table written through the views, the render view never fails to
    compile the content it has found: when a row serves the request, its
    content compiles, and the answer is 200 with the rendered content, or
    500 when the rendering itself raises. *)
Theorem render_compiles_written_content (E : Engine) cs q t :
  active_latest (get (q_code q)) (get_default (q_language q) "en") (calls_on cs []) = Some t →
  ∃ django_template,
    DjangoTemplate (content t) = inr django_template
    ∧ post q (calls_on cs [])
      = match render django_template (default ∅ (q_variables q)) with
        | inl _ =>
            {| status_code := status.HTTP_500_INTERNAL_SERVER_ERROR;
               body := _envelope_response false DataNone "Template render error"
                         (Some "render_error") None |}
        | inr rendered_content =>
            {| status_code := status.HTTP_200_OK;
               body := _envelope_response true
                         (DataRendered {| r_code := code t; r_subject := subject t;
                                          r_content := rendered_content;
                                          r_version := version t;
                                          r_language := language t |})
                         "Template rendered successfully" None None |}
        end.
Proof.
  intros Hl.
  assert (Forall row_valid (calls_on cs [])) as Hall.
  { assert (∀ cs db, Forall row_valid db → Forall row_valid (calls_on cs db)) as Hgen.
    { clear. induction cs as [|c cs IH]; intros db Hall; [done|].
      cbn [calls_on]. apply IH.
      destruct (call_on c db) as [db' r] eqn:Hc. cbn [fst].
      destruct c; cbn [call_on] in Hc.
      - by apply (create_valid _ _ _ _ _ _ _ Hc).
      - by apply (update_valid _ _ _ _ _ _ _ _ Hc).
      - by apply (destroy_valid _ _ _ _ _ Hc). }
    apply Hgen. constructor. }
  pose proof Hl as Hl'.
  apply active_latest_Some in Hl' as (Hin & [Hgc Hgl] & _ & _).
  rewrite Forall_forall in Hall.
  destruct (Hall t Hin) as (Hne & _ & _ & _ & _ & _ & _ & _ & [tpl Htpl] & _).
  exists tpl. split; [done|].
  unfold post. rewrite bool_decide_eq_false_2.
  2:{ rewrite Hgc. intros [?|?]; simplify_eq. }
  rewrite Hl, Htpl. done.
Qed.

Lemma render_compiles_written_content_witness :
  active_latest (get (q_code alice)) (get_default (q_language alice) "en")
    (calls_on (E := engine) two_creates []) = Some second_row
  ∧ ∃ django_template,
      DjangoTemplate (Engine := engine) (content second_row) = inr django_template
      ∧ post (E := engine) alice (calls_on (E := engine) two_creates [])
        = match render django_template (default ∅ (q_variables alice)) with
          | inl _ =>
              {| status_code := status.HTTP_500_INTERNAL_SERVER_ERROR;
                 body := _envelope_response false DataNone "Template render error"
                           (Some "render_error") None |}
          | inr rendered_content =>
              {| status_code := status.HTTP_200_OK;
                 body := _envelope_response true
                           (DataRendered {| r_code := code second_row;
                                            r_subject := subject second_row;
                                            r_content := rendered_content;
                                            r_version := version second_row;
                                            r_language := language second_row |})
                           "Template rendered successfully" None None |}
          end.
Proof.
  assert (active_latest (get (q_code alice)) (get_default (q_language alice) "en")
            (calls_on (E := engine) two_creates []) = Some second_row) as Hl
    by (vm_compute; reflexivity).
  split; [exact Hl|].
  exact (render_compiles_written_content engine two_creates alice second_row Hl).
Defined.

(** X18. As long as the table is written by creates (on a database that stays
    up) and deletes only, the row a group serves is its newest: no group has
    more than one active row, and no row of the group has a greater version
    than an active one.  A delete keeps that; it takes a PUT or PATCH, or a
    create cut short by the database, to break it. *)
Theorem creates_and_deletes_serve_newest (E : Engine) cs db :
  Forall create_or_delete cs → active_is_newest db → active_is_newest (calls_on cs db).
Proof.
  revert db. induction cs as [|c cs IH]; intros db Hcs Hinv; [done|].
  apply Forall_cons in Hcs as [Hc Hcs].
  cbn [calls_on]. apply IH; [done|].
  destruct (call_on c db) as [db' r] eqn:Hcall. cbn [fst].
  destruct c as [c|?????|outage pk]; cbn [call_on create_or_delete] in Hcall, Hc.
  - rewrite Hc in Hcall. by apply (create_newest _ _ _ _ _ _ Hcall).
  - done.
  - by apply (destroy_newest _ _ _ _ _ Hcall).
Qed.

Lemma creates_and_deletes_serve_newest_witness :
  Forall create_or_delete create_create_delete
  ∧ active_is_newest []
  ∧ active_is_newest (calls_on (E := engine) create_create_delete []).
Proof.
  assert (Forall create_or_delete create_create_delete) as Hcs
    by (repeat constructor).
  assert (active_is_newest []) as Hnil.
  { intros c l. split; [cbn; lia|]. intros t u Ht. inversion Ht. }
  split; [exact Hcs|]. split; [exact Hnil|].
  exact (creates_and_deletes_serve_newest engine create_create_delete [] Hcs Hnil).
Defined.

(** X19. The paths that resolve, and the view and keyword arguments each gives:
    the template list, the detail of a [uuid], the version list of a code
    (any text without a slash that is not empty), the render view and the health
    check.  No route takes a path from a route further down the list: the
    render path is not read as a code or an identifier. *)
Theorem resolve_routes path view kwargs :
  urls.resolve path = Some (view, kwargs) ↔
    (path = "api/v1/templates/" ∧ view = urls.TemplateListCreateView ∧ kwargs = [])
  ∨ (∃ pk, urls.converts urls.uuid_converter pk
           ∧ path = "api/v1/templates/" +:+ pk +:+ "/"
           ∧ view = urls.TemplateDetailView ∧ kwargs = [("pk", pk)])
  ∨ (∃ code, code ≠ EmptyString ∧ urls.no_slash code = true
             ∧ path = "api/v1/templates/" +:+ code +:+ "/versions/"
             ∧ view = urls.TemplateVersionListView ∧ kwargs = [("code", code)])
  ∨ (path = "api/v1/templates/render/" ∧ view = urls.RenderTemplateView ∧ kwargs = [])
  ∨ (path = "health/" ∧ view = urls.HealthCheckView ∧ kwargs = []).
Proof.
  unfold urls.resolve, urls.urlpatterns. cbn [urls.resolve_in]. split.
  - destruct (urls.match_route [urls.Literal "api/v1/templates/"] path) as [kw|] eqn:H1.
    { apply match_literal in H1 as [-> ->]. intros; simplify_eq. by left. }
    destruct (urls.match_route [_; urls.Param urls.uuid_converter _; _] path) as [kw|] eqn:H2.
    { apply match_parameter in H2 as (pk & Hpk & -> & ->). intros; simplify_eq.
      right; left. by exists pk. }
    destruct (urls.match_route [_; urls.Param urls.str_converter _; _] path) as [kw|] eqn:H3.
    { apply match_parameter in H3 as (code & Hcode & -> & ->). intros; simplify_eq.
      apply converts_str in Hcode as [Hne Hn].
      right; right; left. by exists code. }
    destruct (urls.match_route [urls.Literal "api/v1/templates/render/"] path) as [kw|] eqn:H4.
    { apply match_literal in H4 as [-> ->]. intros; simplify_eq. by right; right; right; left. }
    destruct (urls.match_route [urls.Literal "health/"] path) as [kw|] eqn:H5; [|done].
    apply match_literal in H5 as [-> ->]. intros; simplify_eq. by right; right; right; right.
  - intros [(-> & -> & ->)|[(pk & Hpk & -> & -> & ->)|[(code & Hne & Hn & -> & -> & ->)
             |[(-> & -> & ->)|(-> & -> & ->)]]]].
    + reflexivity.
    + rewrite (match_route_None [urls.Literal _]).
      2:{ intros kw Hm. apply match_literal in Hm as [Hm _].
          rewrite <- (append_nil_r "api/v1/templates/") in Hm at 2.
          apply append_inv_l in Hm. by destruct pk. }
      by rewrite (proj2 (match_parameter _ _ _ _ _ _) (ex_intro _ pk (conj Hpk (conj eq_refl eq_refl)))).
    + assert (urls.converts urls.str_converter code) as Hcode by (by apply converts_str).
      rewrite (match_route_None [urls.Literal _]).
      2:{ intros kw Hm. apply match_literal in Hm as [Hm _].
          rewrite <- (append_nil_r "api/v1/templates/") in Hm at 2.
          apply append_inv_l in Hm. by destruct code. }
      rewrite (match_route_None [_; urls.Param urls.uuid_converter _; _]).
      2:{ intros kw Hm. apply match_parameter in Hm as (pk & Hpk & Hm & _).
          apply append_inv_l in Hm.
          destruct (converts_no_slash _ _ Hpk) as [Hn' _].
          by destruct (no_slash_inj _ _ _ _ Hn Hn' Hm) as [_ ?]. }
      by rewrite (proj2 (match_parameter _ _ _ _ _ _)
                    (ex_intro _ code (conj Hcode (conj eq_refl eq_refl)))).
    + vm_compute. reflexivity.
    + vm_compute. reflexivity.
Qed.
